(** * Click-and-collect pickup resolution: a shallow embedding of
    [app/utils/pickup.server.js] and the properties of its specification.

    The first part follows the source file top to bottom: the JavaScript
    values the code manipulates (strings, numbers, loosely typed inputs), the
    error classes, [numberOr] and [haversineKm], the three caches, the
    geocoding chain, the Shopify GraphQL helpers, [geocodeShopifyLocation] and
    [buildPickupResponse].  Outbound HTTP is an oracle (a function from the
    request to the response); every request issued is appended to a log, so
    that statements such as "the primary provider is never contacted" can be
    expressed.  Caches and the log form the state that is threaded through
    the code by a small state-and-exception monad; an [async] function makes
    its first test of a cache in the state it is called in, which matters
    where [Promise.all] runs the callbacks of [locations.map] side by side.
    The code around the module follows: the regular expressions,
    [makeShopifyGqlClient], the routes [api.pickup] and [api.locations]
    that call the module, and the delivery customization
    [cartDeliveryOptionsTransformRun].

    The second part holds a sample runtime, world and shop on which the code
    can be run, and the vocabulary of the statements.  The third part proves
    facts about the stages of the code, and the fourth states and settles
    the claims of the specification, in their order.  The last part proves
    further properties of the code: of the caches, the requests, the
    callbacks and the errors of the resolver, of the routes and of the
    delivery customization. *)

From Stdlib Require Import QArith Qabs Qround ZArith String Ascii List Lia Bool.
From Stdlib Require Import Sorted Permutation Lqa.
From stdpp Require Import gmap strings list fin_maps pretty.

Local Open Scope string_scope.

(* ===================================================================== *)
(** ** JavaScript strings *)
(* ===================================================================== *)

(** A string is a sequence of code units; the model covers the code units
    U+0000..U+00FF, one [ascii] each. *)
Module JsString.

Definition code (c : ascii) : N := N_of_ascii c.

(** White space and line terminators stripped by [String.prototype.trim]
    (TAB, LF, VT, FF, CR, SP, NBSP). *)
Definition isWhiteSpace (c : ascii) : bool :=
  let n := code c in
  ((9 <=? n) && (n <=? 13) || (n =? 32) || (n =? 160))%N.

Fixpoint trimStart (s : string) : string :=
  match s with
  | EmptyString => EmptyString
  | String c s' => if isWhiteSpace c then trimStart s' else s
  end.

Fixpoint trimEnd (s : string) : string :=
  match s with
  | EmptyString => EmptyString
  | String c s' =>
      match trimEnd s' with
      | EmptyString => if isWhiteSpace c then EmptyString else String c EmptyString
      | t => String c t
      end
  end.

(** [s.trim()] *)
Definition trim (s : string) : string := trimEnd (trimStart s).

(** The regular-expression class [\d]: the ten ASCII digits. *)
Definition isDigit (c : ascii) : bool :=
  let n := code c in ((48 <=? n) && (n <=? 57))%N.

Fixpoint allDigits (s : string) : bool :=
  match s with
  | EmptyString => true
  | String c s' => isDigit c && allDigits s'
  end.

(** [/^\d{n}$/.test(s)] *)
Definition digits_exactly (n : nat) (s : string) : bool :=
  Nat.eqb (String.length s) n && allDigits s.

(** [s.startsWith(p)] *)
Definition startsWith (p s : string) : bool := String.prefix p s.

(** [c.toLowerCase()] on one code unit: A-Z, and the Latin-1 capitals
    U+00C0..U+00DE except the multiplication sign U+00D7. *)
Definition lowerChar (c : ascii) : ascii :=
  let n := code c in
  if ((65 <=? n) && (n <=? 90) || (192 <=? n) && (n <=? 222) && negb (n =? 215))%N
  then ascii_of_N (n + 32) else c.

Fixpoint toLowerCase (s : string) : string :=
  match s with
  | EmptyString => EmptyString
  | String c s' => String (lowerChar c) (toLowerCase s')
  end.

(** [parts.join(sep)] *)
Fixpoint join (sep : string) (parts : list string) : string :=
  match parts with
  | [] => ""
  | [p] => p
  | p :: ps => p +:+ sep +:+ join sep ps
  end.

End JsString.

(* ===================================================================== *)
(** ** JavaScript numbers *)
(* ===================================================================== *)

(** A number is [NaN], one of the two infinities, or a finite value.  Finite
    values are the rationals they denote and the two zeros are identified.
    An operation yields its exact result when that is within the range of
    binary64, and an infinity when it is beyond, as binary64 arithmetic
    does; the rounding of results within the range is outside the model.
    Results are kept in lowest terms. *)
Module JsNumber.

Inductive num : Type :=
| NaN
| Infinity (negative : bool)
| Fin (q : Q).

Definition of_Z (z : Z) : num := Fin (inject_Z z).

Definition qneg (q : Q) : bool := negb (Qle_bool 0 q).
Definition qzero (q : Q) : bool := Qeq_bool q 0.

(** The magnitude from which an exact result is rounded to an infinity:
    the midpoint between the largest finite binary64 number and [2^1024]. *)
Definition overflow_threshold : Q := Eval vm_compute in inject_Z (2 ^ 1024 - 2 ^ 970).

(** The number an exact result becomes. *)
Definition ofExact (q : Q) : num :=
  if Qle_bool overflow_threshold (Qabs q) then Infinity (qneg q) else Fin (Qred q).

Definition neg (a : num) : num :=
  match a with
  | NaN => NaN
  | Infinity s => Infinity (negb s)
  | Fin q => Fin (Qred (- q))
  end.

Definition add (a b : num) : num :=
  match a, b with
  | NaN, _ | _, NaN => NaN
  | Infinity s, Infinity t => if Bool.eqb s t then Infinity s else NaN
  | Infinity s, Fin _ | Fin _, Infinity s => Infinity s
  | Fin x, Fin y => ofExact (x + y)
  end.

Definition sub (a b : num) : num := add a (neg b).

Definition mul (a b : num) : num :=
  match a, b with
  | NaN, _ | _, NaN => NaN
  | Infinity s, Infinity t => Infinity (xorb s t)
  | Infinity s, Fin q | Fin q, Infinity s =>
      if qzero q then NaN else Infinity (xorb s (qneg q))
  | Fin x, Fin y => ofExact (x * y)
  end.

Definition div (a b : num) : num :=
  match a, b with
  | NaN, _ | _, NaN => NaN
  | Infinity _, Infinity _ => NaN
  | Infinity s, Fin q => Infinity (xorb s (qneg q))
  | Fin _, Infinity _ => Fin 0
  | Fin x, Fin y =>
      if qzero y then (if qzero x then NaN else Infinity (qneg x))
      else ofExact (x / y)
  end.

(** [a ** 2] *)
Definition square (a : num) : num := mul a a.

(** [a < b], [a <= b], [a > b], [a === b] on numbers: every comparison
    with [NaN] is false. *)
Definition lt (a b : num) : bool :=
  match a, b with
  | NaN, _ | _, NaN => false
  | Infinity s, Infinity t => s && negb t
  | Infinity s, Fin _ => s
  | Fin _, Infinity t => negb t
  | Fin x, Fin y => negb (Qle_bool y x)
  end.

Definition le (a b : num) : bool :=
  match a, b with
  | NaN, _ | _, NaN => false
  | Infinity s, Infinity t => s || negb t
  | Infinity s, Fin _ => s
  | Fin _, Infinity t => negb t
  | Fin x, Fin y => Qle_bool x y
  end.

Definition gt (a b : num) : bool := lt b a.

Definition eq (a b : num) : bool :=
  match a, b with
  | Infinity s, Infinity t => Bool.eqb s t
  | Fin x, Fin y => Qeq_bool x y
  | _, _ => false
  end.

Definition isNaN (a : num) : bool :=
  match a with NaN => true | _ => false end.

(** [Number.isFinite(a)] *)
Definition isFinite (a : num) : bool :=
  match a with Fin _ => true | _ => false end.

(** [Number(a.toFixed(2))]: [toFixed] prints the integer [n] for which
    [n / 100] is closest to [|a|] (the larger one on a tie) with two
    decimals and the sign of [a], and prints [NaN], the infinities and
    magnitudes from [1e21] on like [String]; [Number] reads the value back. *)
Definition toFixed2 (a : num) : num :=
  match a with
  | Fin q =>
      if Qle_bool (inject_Z (10 ^ 21)) (Qabs q) then Fin q
      else
        let n := Qfloor (Qabs q * 100 + (1 # 2)) in
        Fin (Qred (inject_Z (if qneg q then - n else n) / 100))
  | other => other
  end.

End JsNumber.

Export JsNumber (num, NaN, Infinity, Fin).

(* ===================================================================== *)
(** ** Loosely typed values and the conversions the code applies to them *)
(* ===================================================================== *)

(** The parts of the JavaScript runtime whose results the language leaves to
    the implementation: the approximations of the elementary functions on
    the arguments for which the language fixes no value, and the printing of
    a finite number that is not an integer below [1e21]. *)
Record Runtime : Type := {
  sin_fin : Q -> Q;
  cos_fin : Q -> Q;
  asin_fin : Q -> Q;
  sqrt_fin : Q -> Q;
  print_fin : Q -> string;
}.

Module Js.
Import JsString JsNumber.

(** The values a JSON request body can put in a field, and [undefined] for
    a field that is absent. *)
Inductive jsval : Type :=
| JUndefined
| JNull
| JBool (b : bool)
| JNum (n : num)
| JStr (s : string).

(** Truthiness, as tested by [if (v)], [!v] and [v || d]. *)
Definition truthy (v : jsval) : bool :=
  match v with
  | JUndefined | JNull => false
  | JBool b => b
  | JNum (Fin q) => negb (qzero q)
  | JNum NaN => false
  | JNum (Infinity _) => true
  | JStr s => negb (String.eqb s "")
  end.

Section WithRuntime.
Variable rt : Runtime.

(** [String(n)] for a number. *)
Definition numberToString (n : num) : string :=
  match n with
  | NaN => "NaN"
  | Infinity false => "Infinity"
  | Infinity true => "-Infinity"
  | Fin q =>
      let r := Qred q in
      if (Pos.eqb (Qden r) 1 && (Z.abs (Qnum r) <? 10 ^ 21)%Z)%bool
      then pretty (Qnum r)
      else print_fin rt q
  end.

(** [String(v)] (the name [String] is the constructor of Rocq strings) *)
Definition ToString (v : jsval) : string :=
  match v with
  | JUndefined => "undefined"
  | JNull => "null"
  | JBool true => "true"
  | JBool false => "false"
  | JNum n => numberToString n
  | JStr s => s
  end.
End WithRuntime.

(** *** [Number(s)] for a string: the grammar StringNumericLiteral *)

Definition digitValue (c : ascii) : option Z :=
  let n := Z.of_N (code c) in
  if ((48 <=? n) && (n <=? 57))%Z then Some (n - 48)%Z
  else if ((97 <=? n) && (n <=? 102))%Z then Some (n - 87)%Z
  else if ((65 <=? n) && (n <=? 70))%Z then Some (n - 55)%Z
  else None.

(** Reads the longest prefix of digits of the base: the value read, the
    number of digits and the rest. *)
Fixpoint readDigits (base acc : Z) (count : nat) (s : string) : Z * nat * string :=
  match s with
  | EmptyString => (acc, count, s)
  | String c s' =>
      match digitValue c with
      | Some d =>
          if (d <? base)%Z then readDigits base (acc * base + d)%Z (S count) s'
          else (acc, count, s)
      | None => (acc, count, s)
      end
  end.

(** A literal beyond the binary64 range converts to an infinity. *)
Definition ofLiteral (q : Q) : num := ofExact q.

(** ExponentPart, optional: the exponent and the rest, [None] when an
    exponent indicator is followed by no digit. *)
Definition readExponent (s : string) : option (Z * string) :=
  match s with
  | String c s' =>
      if (Ascii.eqb c "e" || Ascii.eqb c "E")%bool then
        let '(sgn, s'') :=
          match s' with
          | String "+"%char r => (1%Z, r)
          | String "-"%char r => ((-1)%Z, r)
          | _ => (1%Z, s')
          end in
        let '(v, n, tl) := readDigits 10 0 0 s'' in
        match n with O => None | _ => Some ((sgn * v)%Z, tl) end
      else Some (0%Z, s)
  | EmptyString => Some (0%Z, s)
  end.

(** StrUnsignedDecimalLiteral *)
Definition unsignedDecimal (s : string) : num :=
  if String.eqb s "Infinity" then Infinity false
  else
    let '(ip, ni, r1) := readDigits 10 0 0 s in
    let '(fp, nf, r2) :=
      match r1 with
      | String "."%char r => readDigits 10 0 0 r
      | _ => (0%Z, O, r1)
      end in
    match ni, nf with
    | O, O => NaN
    | _, _ =>
        match readExponent r2 with
        | Some (e, EmptyString) =>
            ofLiteral (inject_Z (ip * 10 ^ Z.of_nat nf + fp)
                       * Qpower 10 (e - Z.of_nat nf))
        | _ => NaN
        end
    end.

(** NonDecimalIntegerLiteral: [0x], [0o] and [0b] followed by digits. *)
Definition nonDecimal (base : Z) (s : string) : num :=
  let '(v, n, tl) := readDigits base 0 0 s in
  match n, tl with
  | S _, EmptyString => ofLiteral (inject_Z v)
  | _, _ => NaN
  end.

Definition StrNumericLiteral (s : string) : num :=
  match s with
  | String "0"%char (String c r) =>
      if (Ascii.eqb c "x" || Ascii.eqb c "X")%bool then nonDecimal 16 r
      else if (Ascii.eqb c "o" || Ascii.eqb c "O")%bool then nonDecimal 8 r
      else if (Ascii.eqb c "b" || Ascii.eqb c "B")%bool then nonDecimal 2 r
      else unsignedDecimal s
  | String "+"%char r => unsignedDecimal r
  | String "-"%char r => neg (unsignedDecimal r)
  | _ => unsignedDecimal s
  end.

(** StringToNumber: white space around the literal is ignored and the
    empty literal is zero. *)
Definition StringToNumber (s : string) : num :=
  match trim s with
  | EmptyString => Fin 0
  | t => StrNumericLiteral t
  end.

(** [Number(v)] *)
Definition Number (v : jsval) : num :=
  match v with
  | JUndefined => NaN
  | JNull => Fin 0
  | JBool true => Fin 1
  | JBool false => Fin 0
  | JNum n => n
  | JStr s => StringToNumber s
  end.

End Js.

Export Js (jsval, JUndefined, JNull, JBool, JNum, JStr).

(* ===================================================================== *)
(** ** Configuration, errors and helpers *)
(* ===================================================================== *)

(** The environment variables read at module load; [None] is an unset
    variable. *)
Record Env : Type := {
  env_GOOGLE_MAPS_KEY : option string;
  env_SHOPIFY_API_VERSION : option string;
  env_DEFAULT_RADIUS_KM : option string;
  env_GEOCODER_MODE : option string;
}.

Module Config.
(** A destructuring default applies to an unset variable only. *)
Definition SHOPIFY_API_VERSION (e : Env) : string :=
  default "2024-07" (env_SHOPIFY_API_VERSION e).
Definition DEFAULT_RADIUS_KM (e : Env) : string :=
  default "100" (env_DEFAULT_RADIUS_KM e).
Definition GEOCODER_MODE (e : Env) : string :=
  default "auto" (env_GEOCODER_MODE e).
End Config.

Module Errors.
Import Js.

Inductive ErrorClass : Type :=
| AppErrorClass
| InvalidPincodeErrorClass
| GeocodeNoResultErrorClass
| GeocodeProviderErrorClass
| ShopifyGQLErrorClass.

Inductive metaval : Type :=
| MetaVal (v : jsval)
| MetaList (l : list string).

(** An instance of [AppError] or of one of its subclasses. *)
Record AppError : Type := {
  cls : ErrorClass;
  message : string;
  code : string;
  status : Z;
  meta : list (string * metaval);
}.

(** What a function of the module can throw: an [AppError], the rejection
    of an HTTP request by the client library, or a [TypeError] raised by
    reading a property of [undefined]. *)
Inductive exn : Type :=
| Thrown (e : AppError)
| AxiosError (reason : string)
| TypeError.

Definition InvalidPincodeError (pin : jsval) : AppError :=
  {| cls := InvalidPincodeErrorClass;
     message := "Please enter a valid 4- or 6-digit postcode/pincode.";
     code := "invalid_pincode";
     status := 400;
     meta := [("pincode", MetaVal pin)] |}.

Definition GeocodeNoResultError (query : string) : AppError :=
  {| cls := GeocodeNoResultErrorClass;
     message := "Pickup not available for this pincode.";
     code := "pin_unavailable";
     status := 422;
     meta := [("query", MetaVal (JStr query))] |}.

Definition GeocodeProviderError (provider reason : string)
    (more : list (string * metaval)) : AppError :=
  {| cls := GeocodeProviderErrorClass;
     message := "Geocoding provider error: " +:+ provider;
     code := "geocode_provider_error";
     status := 502;
     meta := ([("provider", MetaVal (JStr provider));
               ("reason", MetaVal (JStr reason))] ++ more)%list |}.

Definition ShopifyGQLError (messages : list string) : AppError :=
  {| cls := ShopifyGQLErrorClass;
     message := "Shopify GraphQL error.";
     code := "shopify_graphql_error";
     status := 502;
     meta := [("messages", MetaList messages)] |}.

Definition PincodeRequired : AppError :=
  {| cls := AppErrorClass;
     message := "pincode is required.";
     code := "pincode_required";
     status := 400;
     meta := [] |}.

Definition InventoryItemMissing : AppError :=
  {| cls := AppErrorClass;
     message := "InventoryItem not found for this variant";
     code := "inventory_item_missing";
     status := 404;
     meta := [] |}.

(** The user-facing class of an error: a 4xx status. *)
Definition is4xx (e : exn) : bool :=
  match e with
  | Thrown a => ((400 <=? status a) && (status a <? 500))%Z
  | _ => false
  end.
End Errors.

Module Geo.
Import Js JsNumber.

(** [numberOr(a, fb)] *)
Definition numberOr (a : jsval) (fb : num) : num :=
  if isFinite (Number a) then Number a else fb.

Record LatLng : Type := { lat : num; lng : num }.

Section WithRuntime.
Variable rt : Runtime.

(** [Math.sin], [Math.cos], [Math.asin] and [Math.sqrt].  The language
    fixes the results at [NaN], at the infinities and at zero, makes
    [asin] of an argument beyond 1 in magnitude and [sqrt] of a negative
    argument [NaN], and leaves the other results, which are finite, to the
    runtime. *)
Definition Math_sin (x : num) : num :=
  match x with
  | Fin q => if qzero q then Fin 0 else Fin (Qred (sin_fin rt q))
  | _ => NaN
  end.

Definition Math_cos (x : num) : num :=
  match x with
  | Fin q => if qzero q then Fin 1 else Fin (Qred (cos_fin rt q))
  | _ => NaN
  end.

Definition Math_asin (x : num) : num :=
  match x with
  | Fin q =>
      if qzero q then Fin 0
      else if Qle_bool (Qabs q) 1 then Fin (Qred (asin_fin rt q))
      else NaN
  | _ => NaN
  end.

Definition Math_sqrt (x : num) : num :=
  match x with
  | Fin q =>
      if qzero q then Fin 0
      else if qneg q then NaN
      else Fin (Qred (sqrt_fin rt q))
  | Infinity false => Infinity false
  | _ => NaN
  end.

(** [Math.PI], the binary64 number nearest to pi. *)
Definition PI_exact : Q := 884279719003555 # 281474976710656.
Definition Math_PI : num := Fin PI_exact.

Definition toRad (d : num) : num := div (mul d Math_PI) (of_Z 180).

(** [haversineKm(a, b)] *)
Definition haversineKm (a b : LatLng) : num :=
  let R := of_Z 6371 in
  let dLat := toRad (sub (lat b) (lat a)) in
  let dLng := toRad (sub (lng b) (lng a)) in
  let lat1 := toRad (lat a) in
  let lat2 := toRad (lat b) in
  let h :=
    add (square (Math_sin (div dLat (of_Z 2))))
        (mul (mul (Math_cos lat1) (Math_cos lat2))
             (square (Math_sin (div dLng (of_Z 2))))) in
  mul (mul (of_Z 2) R) (Math_asin (Math_sqrt h)).
End WithRuntime.
End Geo.

(* ===================================================================== *)
(** ** The outside world: providers, requests and responses *)
(* ===================================================================== *)

(** The result of geocoding: [{ lat, lng, formatted }]. *)
Record GeoPoint : Type := {
  lat : num;
  lng : num;
  formatted : string;
}.

(** An HTTP request made through the client library either rejects (network
    failure, non-2xx status) or resolves to the parsed response body. *)
Inductive Http (A : Type) : Type :=
| Rejected (reason : string)
| Resolved (data : A).
Arguments Rejected {A} reason.
Arguments Resolved {A} data.

Module Google.
(** The query parameters of a request to the primary provider. *)
Inductive Params : Type :=
| Components (key : option string) (components : string)
| Address (key : option string) (address region : string).

(** [geometry.location], with its JSON numbers [lat] and [lng]; it is
    [None] when the result carries no geometry. *)
Record Hit : Type := {
  geometry_location : option (num * num);
  formatted_address : string;
}.

(** The body: [status] and [results] may be missing. *)
Record Data : Type := {
  status : option string;
  results : option (list Hit);
  error_message : option string;
}.
End Google.

Module Osm.
(** The query parameters of a request to the secondary provider; the
    fields [format: "jsonv2"], [addressdetails: 1] and [limit: 1] and the
    two headers are the same in every request. *)
Inductive Params : Type :=
| Structured (postalcode country : string)
| Freeform (q : string) (countrycodes : option string).

Record Item : Type := {
  lat : jsval;
  lon : jsval;
  display_name : string;
}.

(** The body: [None] when it is not an array. *)
Definition Data : Type := option (list Item).
End Osm.

Module Shopify.
Record Address : Type := {
  address1 : option string;
  address2 : option string;
  city : option string;
  province : option string;
  country : option string;
  zip : option string;
}.

Record Location : Type := {
  id : string;
  name : string;
  isActive : bool;
  fulfillsOnlineOrders : bool;
  address : option Address;
}.

Record Edge : Type := { cursor : string; node : Location }.

Record LocationsConnection : Type := {
  edges : option (list Edge);
  hasNextPage : option bool;
}.

(** An inventory level: the named quantities asked for and the location. *)
Record Level : Type := {
  quantities : option (list (string * Z));
  location_id : string;
}.

Record Data : Type := {
  locations : option LocationsConnection;
  productVariant_inventoryItem_id : option string;
  inventoryItem_inventoryLevels_edges : option (list Level);
}.

(** The response body: the messages of the [errors] array and [data]. *)
Record Body : Type := {
  errors : list string;
  data : option Data;
}.

(** The variables of the three queries. *)
Inductive Request : Type :=
| LocationsQuery (first : Z) (after : option string)
| InvItemQuery (id : string)
| LevelsQuery (id : string).

(** The authenticated client of one shop, as [makeShopifyGqlClient]
    returns it: [gql.post("", { query, variables })]. *)
Definition Client : Type := Request -> Http Body.
End Shopify.

(** The two geocoding services, as they answer during one run. *)
Record World : Type := {
  google : Google.Params -> Http Google.Data;
  nominatim : Osm.Params -> Http Osm.Data;
}.

Inductive Call : Type :=
| ToGoogle (p : Google.Params)
| ToNominatim (p : Osm.Params)
| ToShopify (r : Shopify.Request).

(* ===================================================================== *)
(** ** State: the three caches and the log of outbound requests *)
(* ===================================================================== *)

(** The caches are finite maps: [has]/[get] is a lookup and [set] an
    insertion.  Expiry and eviction, which only remove entries, are outside
    the model. *)
Record State : Type := {
  geocodeCache : gmap string GeoPoint;
  locationGeoCache : gmap string GeoPoint;
  shopifyLocationsCache : gmap string (list Shopify.Location);
  log : list Call;
}.

Definition emptyState : State :=
  {| geocodeCache := ∅; locationGeoCache := ∅; shopifyLocationsCache := ∅; log := [] |}.

Module M.
Import Errors.

(** How a computation ends: it returns, it throws, or it is still running
    when the bound on loop iterations is reached. *)
Inductive outcome (A : Type) : Type :=
| Returned (a : A)
| Threw (e : exn)
| Running.
Arguments Returned {A} a.
Arguments Threw {A} e.
Arguments Running {A}.

Definition t (A : Type) : Type := State -> outcome A * State.

Definition ret {A} (a : A) : t A := fun s => (Returned a, s).
Definition throw {A} (e : exn) : t A := fun s => (Threw e, s).
Definition running {A} : t A := fun s => (Running, s).

Definition bind {A B} (m : t A) (k : A -> t B) : t B :=
  fun s =>
    match m s with
    | (Returned a, s') => k a s'
    | (Threw e, s') => (Threw e, s')
    | (Running, s') => (Running, s')
    end.

(** [try { m } catch (err) { h err }]: what [m] did to the state before
    throwing stays done. *)
Definition try_catch {A} (m : t A) (h : exn -> t A) : t A :=
  fun s =>
    match m s with
    | (Threw e, s') => h e s'
    | r => r
    end.

Definition get : t State := fun s => (Returned s, s).
Definition modify (f : State -> State) : t unit := fun s => (Returned tt, f s).

Fixpoint mapM {A B} (f : A -> t B) (l : list A) : t (list B) :=
  match l with
  | [] => ret []
  | a :: l' =>
      bind (f a) (fun b => bind (mapM f l') (fun bs => ret (b :: bs)))
  end.
End M.

Declare Scope m_scope.
Delimit Scope m_scope with M.
Notation "'let*' x ':=' m 'in' k" := (M.bind m (fun x => k))
  (at level 10, x name, m at level 100, k at level 200) : m_scope.
Notation "m ';;' k" := (M.bind m (fun _ => k))
  (at level 100, k at level 200, right associativity) : m_scope.

Module Effects.
Import Errors.

Definition record (c : Call) (s : State) : State :=
  {| geocodeCache := geocodeCache s;
     locationGeoCache := locationGeoCache s;
     shopifyLocationsCache := shopifyLocationsCache s;
     log := (log s ++ [c])%list |}.

Definition set_geocodeCache (k : string) (v : GeoPoint) (s : State) : State :=
  {| geocodeCache := <[k := v]> (geocodeCache s);
     locationGeoCache := locationGeoCache s;
     shopifyLocationsCache := shopifyLocationsCache s;
     log := log s |}.

Definition set_locationGeoCache (k : string) (v : GeoPoint) (s : State) : State :=
  {| geocodeCache := geocodeCache s;
     locationGeoCache := <[k := v]> (locationGeoCache s);
     shopifyLocationsCache := shopifyLocationsCache s;
     log := log s |}.

Definition set_shopifyLocationsCache (k : string) (v : list Shopify.Location)
    (s : State) : State :=
  {| geocodeCache := geocodeCache s;
     locationGeoCache := locationGeoCache s;
     shopifyLocationsCache := <[k := v]> (shopifyLocationsCache s);
     log := log s |}.

(** [await axios.get(url, ...)] and [await gql.post(...)]: the request is
    logged, a rejection is thrown. *)
Definition await {A} (c : Call) (answer : Http A) : M.t A :=
  fun s =>
    match answer with
    | Rejected r => (M.Threw (AxiosError r), record c s)
    | Resolved d => (M.Returned d, record c s)
    end.
End Effects.

(* ===================================================================== *)
(** ** Geocoding (Google, then OpenStreetMap) *)
(* ===================================================================== *)

Module Geocoding.
Import Errors Effects JsString.
Local Open Scope m_scope.

Section Geocode.
Variable env : Env.
Variable w : World.

(** [(GEOCODER_MODE || "auto").toLowerCase()] *)
Definition mode : string :=
  toLowerCase (if String.eqb (Config.GEOCODER_MODE env) "" then "auto"
               else Config.GEOCODER_MODE env).

(** [cacheOk(res)] *)
Definition cacheOk (key : string) (res : GeoPoint) : M.t GeoPoint :=
  M.modify (set_geocodeCache key res) ;; M.ret res.

Definition googleParams (original : string) (is6 is4 : bool) : Google.Params :=
  if is6 then
    Google.Components (env_GOOGLE_MAPS_KEY env)
      ("postal_code:" +:+ original +:+ "|country:IN")
  else if is4 then
    Google.Components (env_GOOGLE_MAPS_KEY env)
      ("postal_code:" +:+ original +:+ "|country:AU")
  else Google.Address (env_GOOGLE_MAPS_KEY env) original "in".

(** The reason attached to a provider error:
    [`status=${data.status}${msg}`]. *)
Definition googleReason (data : Google.Data) : string :=
  let msg :=
    match Google.error_message data with
    | Some m => if String.eqb m "" then "" else " - " +:+ m
    | None => ""
    end in
  "status=" +:+ default "undefined" (Google.status data) +:+ msg.

(** [data.status === "OK" && data.results?.length]: the first result
    when the condition holds. *)
Definition firstResult (data : Google.Data) : option Google.Hit :=
  match Google.status data, Google.results data with
  | Some st, Some (hit :: _) => if String.eqb st "OK" then Some hit else None
  | _, _ => None
  end.

(** Step 1, the body of the [try]: [Some g] stands for [return g]. *)
Definition googleAttempt (key original : string) (is6 is4 : bool)
    : M.t (option GeoPoint) :=
  let params := googleParams original is6 is4 in
  let* data := await (ToGoogle params) (google w params) in
  match firstResult data with
  | Some hit =>
      match Google.geometry_location hit with
      | Some (la, ln) =>
          let* g := cacheOk key
            {| lat := la; lng := ln; formatted := Google.formatted_address hit |} in
          M.ret (Some g)
      | None => M.throw TypeError
      end
  | None =>
      if String.eqb mode "google" then
        M.throw (Thrown (GeocodeProviderError "google" (googleReason data)
                           [("query", MetaVal (JStr original))]))
      else M.ret None
  end.

Definition googleStep (key original : string) (is6 is4 : bool)
    : M.t (option GeoPoint) :=
  if negb (String.eqb mode "osm") then
    M.try_catch (googleAttempt key original is6 is4)
      (fun err => if String.eqb mode "google" then M.throw err else M.ret None)
  else M.ret None.

(** What both OpenStreetMap steps do with the body. *)
Definition osmResult (key : string) (data : Osm.Data) : M.t (option GeoPoint) :=
  match data with
  | Some (it :: _) =>
      let* g := cacheOk key
        {| lat := Js.Number (Osm.lat it);
           lng := Js.Number (Osm.lon it);
           formatted := Osm.display_name it |} in
      M.ret (Some g)
  | _ => M.ret None
  end.

Definition osmStructuredParams (original : string) (is6 : bool) : Osm.Params :=
  if is6 then Osm.Structured original "India"
  else Osm.Structured original "Australia".

(** Step 2 *)
Definition osmStructuredStep (key original : string) (is6 isPinLike : bool)
    : M.t (option GeoPoint) :=
  if isPinLike then
    M.try_catch
      (let params := osmStructuredParams original is6 in
       let* data := await (ToNominatim params) (nominatim w params) in
       osmResult key data)
      (fun _ => M.ret None)
  else M.ret None.

Definition osmFreeformParams (original : string) (is6 is4 : bool) : Osm.Params :=
  if is6 then Osm.Freeform (original +:+ ", India") (Some "in")
  else if is4 then Osm.Freeform (original +:+ ", Australia") (Some "au")
  else Osm.Freeform original None.

(** Step 3 *)
Definition osmFreeformStep (key original : string) (is6 is4 : bool)
    : M.t (option GeoPoint) :=
  M.try_catch
    (let params := osmFreeformParams original is6 is4 in
     let* data := await (ToNominatim params) (nominatim w params) in
     osmResult key data)
    (fun _ => M.ret None).

(** [geocode(address)], from the state it was called in.  An [async]
    function runs up to its first [await] when it is called and the rest
    when it resumes: the test of the cache is made in the state [called],
    and what follows the first request in the state of the time. *)
Definition geocodeFrom (called : State) (address : string) : M.t GeoPoint :=
  let original := trim address in
  let key := "geo:" +:+ original in
  match geocodeCache called !! key with
  | Some cached => M.ret cached
  | None =>
      let is6 := digits_exactly 6 original in
      let is4 := digits_exactly 4 original in
      let isPinLike := is6 || is4 in
      let* r1 := googleStep key original is6 is4 in
      match r1 with
      | Some g => M.ret g
      | None =>
          let* r2 := osmStructuredStep key original is6 isPinLike in
          match r2 with
          | Some g => M.ret g
          | None =>
              let* r3 := osmFreeformStep key original is6 is4 in
              match r3 with
              | Some g => M.ret g
              | None => M.throw (Thrown (GeocodeNoResultError original))
              end
          end
      end
  end.

(** [await geocode(address)]: called and resumed with nothing in between. *)
Definition geocode (address : string) : M.t GeoPoint :=
  let* called := M.get in
  geocodeFrom called address.
End Geocode.
End Geocoding.

(* ===================================================================== *)
(** ** Shopify GraphQL helpers *)
(* ===================================================================== *)

Module ShopifyApi.
Import Errors Effects JsString.
Local Open Scope m_scope.

(** [assertNoGqlErrors(resp)] *)
Definition assertNoGqlErrors (resp : Shopify.Body) : M.t unit :=
  match Shopify.errors resp with
  | [] => M.ret tt
  | msgs => M.throw (Thrown (ShopifyGQLError msgs))
  end.

(** [resp?.data?.data?.locations] *)
Definition locationsOf (resp : Shopify.Body) : option Shopify.LocationsConnection :=
  match Shopify.data resp with
  | Some d => Shopify.locations d
  | None => None
  end.

(** [resp?.data?.data?.locations?.edges || []] *)
Definition edgesOf (resp : Shopify.Body) : list Shopify.Edge :=
  match locationsOf resp with
  | Some c => default [] (Shopify.edges c)
  | None => []
  end.

(** [resp?.data?.data?.locations?.pageInfo?.hasNextPage], as a condition *)
Definition hasNextOf (resp : Shopify.Body) : bool :=
  match locationsOf resp with
  | Some c => default false (Shopify.hasNextPage c)
  | None => false
  end.

(** [edges.length ? edges[edges.length - 1].cursor : null] *)
Definition lastCursor (edges : list Shopify.Edge) : option string :=
  match last edges with
  | Some e => Some (Shopify.cursor e)
  | None => None
  end.

(** The [for] loop of one page: [if (n.isActive) locations.push(n)]. *)
Definition pushActive (locations : list Shopify.Location) (edges : list Shopify.Edge)
    : list Shopify.Location :=
  fold_left
    (fun acc e => let n := Shopify.node e in
                  if Shopify.isActive n then (acc ++ [n])%list else acc)
    edges locations.

(** [while (hasNext) { ... }], at most [fuel] iterations. *)
Fixpoint pages (fuel : nat) (gql : Shopify.Client) (hasNext : bool)
    (cursor : option string) (locations : list Shopify.Location)
    : M.t (list Shopify.Location) :=
  if hasNext then
    match fuel with
    | O => M.running
    | S fuel' =>
        let req := Shopify.LocationsQuery 100 cursor in
        let* resp := await (ToShopify req) (gql req) in
        assertNoGqlErrors resp ;;
        let edges := edgesOf resp in
        pages fuel' gql (hasNextOf resp) (lastCursor edges) (pushActive locations edges)
    end
  else M.ret locations.

(** [fetchShopifyLocations(gql, shop)] *)
Definition fetchShopifyLocations (fuel : nat) (gql : Shopify.Client) (shop : string)
    : M.t (list Shopify.Location) :=
  let cacheKey := "locations:" +:+ shop in
  let* s := M.get in
  match shopifyLocationsCache s !! cacheKey with
  | Some cached => M.ret cached
  | None =>
      let* locations := pages fuel gql true None [] in
      M.modify (set_shopifyLocationsCache cacheKey locations) ;;
      M.ret locations
  end.

Section WithRuntime.
Variable rt : Runtime.

(** [getInventoryItemIdForVariant(gql, variantIdOrGid)] *)
Definition getInventoryItemIdForVariant (gql : Shopify.Client) (variantIdOrGid : jsval)
    : M.t string :=
  let gid :=
    if startsWith "gid://" (Js.ToString rt variantIdOrGid)
    then Js.ToString rt variantIdOrGid
    else "gid://shopify/ProductVariant/" +:+ Js.ToString rt variantIdOrGid in
  let req := Shopify.InvItemQuery gid in
  let* resp := await (ToShopify req) (gql req) in
  assertNoGqlErrors resp ;;
  match Shopify.data resp with
  | Some d =>
      match Shopify.productVariant_inventoryItem_id d with
      | Some id => if String.eqb id "" then M.throw (Thrown InventoryItemMissing)
                   else M.ret id
      | None => M.throw (Thrown InventoryItemMissing)
      end
  | None => M.throw (Thrown InventoryItemMissing)
  end.
End WithRuntime.

(** [e.node.quantities?.find((q) => q.name === "available")], then
    [q ? q.quantity : 0] *)
Definition availableOf (e : Shopify.Level) : Z :=
  match Shopify.quantities e with
  | Some qs =>
      match find (fun q => String.eqb (fst q) "available") qs with
      | Some q => snd q
      | None => 0%Z
      end
  | None => 0%Z
  end.

(** [getInventoryByLocation(gql, invItemGid)] *)
Definition getInventoryByLocation (gql : Shopify.Client) (invItemGid : string)
    : M.t (gmap string Z) :=
  let req := Shopify.LevelsQuery invItemGid in
  let* resp := await (ToShopify req) (gql req) in
  assertNoGqlErrors resp ;;
  let edges :=
    match Shopify.data resp with
    | Some d => default [] (Shopify.inventoryItem_inventoryLevels_edges d)
    | None => []
    end in
  M.ret (fold_left (fun m e => <[Shopify.location_id e := availableOf e]> m) edges ∅).
End ShopifyApi.

(* ===================================================================== *)
(** ** The pickup resolver *)
(* ===================================================================== *)

Module Pickup.
Import Errors Effects JsString.
Local Open Scope m_scope.

(** The coordinates [(0, 0)] and the text that mark a failed geocoding. *)
Definition fail : GeoPoint :=
  {| lat := Fin 0; lng := Fin 0; formatted := "Geocode failed" |}.

(** [.filter(Boolean)] on the address parts: [null] and [""] go. *)
Definition present (part : option string) : option string :=
  match part with
  | Some s => if String.eqb s "" then None else Some s
  | None => None
  end.

(** [[a.address1, ..., a.zip].filter(Boolean).join(", ")] with
    [a = loc.address || {}] *)
Definition fullAddr (loc : Shopify.Location) : string :=
  match Shopify.address loc with
  | Some a =>
      join ", "
        (omap present
           [Shopify.address1 a; Shopify.address2 a; Shopify.city a;
            Shopify.province a; Shopify.country a; Shopify.zip a])
  | None => ""
  end.

(** [a.zip], when it is truthy *)
Definition zipOf (loc : Shopify.Location) : option string :=
  match Shopify.address loc with
  | Some a => present (Shopify.zip a)
  | None => None
  end.

Section Resolver.
Variable rt : Runtime.
Variable env : Env.
Variable w : World.

Definition setLoc (key : string) (g : GeoPoint) : M.t GeoPoint :=
  M.modify (set_locationGeoCache key g) ;; M.ret g.

(** [geocodeShopifyLocation(loc)], from the state it was called in: the
    test of the location cache and the call of [geocode(fullAddr)] come
    before the first [await]; [geocode(a.zip)] is called when the function
    has resumed. *)
Definition geocodeShopifyLocationFrom (called : State) (loc : Shopify.Location)
    : M.t GeoPoint :=
  let key := "loc:" +:+ Shopify.id loc in
  match locationGeoCache called !! key with
  | Some cached => M.ret cached
  | None =>
      M.try_catch
        (let* g := Geocoding.geocodeFrom env w called (fullAddr loc) in
         setLoc key g)
        (fun _ =>
           let* r :=
             match zipOf loc with
             | Some zip =>
                 M.try_catch
                   (let* g2 := Geocoding.geocode env w zip in
                    let* g2 := setLoc key g2 in
                    M.ret (Some g2))
                   (fun _ => M.ret None)
             | None => M.ret None
             end in
           match r with
           | Some g2 => M.ret g2
           | None => setLoc key fail
           end)
  end.

(** [await geocodeShopifyLocation(loc)]: called and resumed with nothing
    in between. *)
Definition geocodeShopifyLocation (loc : Shopify.Location) : M.t GeoPoint :=
  let* called := M.get in
  geocodeShopifyLocationFrom called loc.

(** [{ ...loc.address, formatted: g.formatted }] *)
Record EnrichedAddress : Type := {
  fields : option Shopify.Address;
  formatted_text : string;
}.

(** One entry of the result. *)
Record EnrichedLocation : Type := {
  locationId : string;
  name : string;
  address : EnrichedAddress;
  coordinates : Geo.LatLng;
  distanceKm : num;
  available : option Z;
  status : string;
}.

(** [qty === null ? "unknown" : qty > 0 ? "instock" : "outofstock"] *)
Definition statusOf (qty : option Z) : string :=
  match qty with
  | None => "unknown"
  | Some q => if (0 <? q)%Z then "instock" else "outofstock"
  end.

(** The callback of [locations.map], after [geocodeShopifyLocation] has
    answered [g]: [None] stands for [null]. *)
Definition enrich (pin : GeoPoint) (qtyByLoc : gmap string Z)
    (loc : Shopify.Location) (g : GeoPoint) : option EnrichedLocation :=
  if JsNumber.eq (lat g) (Fin 0) && JsNumber.eq (lng g) (Fin 0) then None
  else
    let distanceKm :=
      Geo.haversineKm rt
        {| Geo.lat := lat pin; Geo.lng := lng pin |}
        {| Geo.lat := lat g; Geo.lng := lng g |} in
    let qty := qtyByLoc !! Shopify.id loc in
    Some {| locationId := Shopify.id loc;
            name := Shopify.name loc;
            address := {| fields := Shopify.address loc;
                          formatted_text := formatted g |};
            coordinates := {| Geo.lat := lat g; Geo.lng := lng g |};
            distanceKm := JsNumber.toFixed2 distanceKm;
            available := qty;
            status := statusOf qty |}.

(** The callback of [locations.map], called in the state [called]. *)
Definition visit (called : State) (pin : GeoPoint) (qtyByLoc : gmap string Z)
    (loc : Shopify.Location) : M.t (option EnrichedLocation) :=
  let* g := geocodeShopifyLocationFrom called loc in
  M.ret (enrich pin qtyByLoc loc g).

(** [arr.sort(cmp)]: the sort is stable, and when the comparator is
    consistent the result is the one obtained by inserting the elements,
    last first, each in front of the first element it does not follow
    ([cmp x y > 0] places [x] after [y]). *)
Fixpoint insert {A} (cmp : A -> A -> num) (x : A) (l : list A) : list A :=
  match l with
  | [] => [x]
  | y :: l' => if JsNumber.gt (cmp x y) (Fin 0) then y :: insert cmp x l' else x :: l
  end.

Fixpoint sort {A} (cmp : A -> A -> num) (l : list A) : list A :=
  match l with
  | [] => []
  | x :: l' => insert cmp x (sort cmp l')
  end.

(** [(a, b) => a.distanceKm - b.distanceKm] *)
Definition byDistance (a b : EnrichedLocation) : num :=
  JsNumber.sub (distanceKm a) (distanceKm b).

Definition inRadiusOf (RADIUS : num) (enriched : list EnrichedLocation)
    : list EnrichedLocation :=
  sort byDistance (List.filter (fun x => JsNumber.le (distanceKm x) RADIUS) enriched).

Definition outOfRadiusOf (RADIUS : num) (enriched : list EnrichedLocation)
    : list EnrichedLocation :=
  sort byDistance (List.filter (fun x => JsNumber.gt (distanceKm x) RADIUS) enriched).

Record Geocoded : Type := {
  geocoded_lat : num;
  geocoded_lng : num;
  geocoded_address : string;
}.

Record Input : Type := {
  input_pincode : jsval;
  input_geocoded : Geocoded;
  input_radiusKm : num;
  input_variantId : jsval;
  input_inventoryItemGid : option string;
}.

Record PickupResult : Type := {
  input : Input;
  inRadius : list EnrichedLocation;
  outOfRadius : list EnrichedLocation;
}.

(** The arguments of [buildPickupResponse] that come from the request. *)
Record Request : Type := {
  pincode : jsval;
  variantId : jsval;
  radiusKm : jsval;
}.

(** [numberOr(radiusKm, numberOr(DEFAULT_RADIUS_KM, 100))] *)
Definition effectiveRadius (radiusKm : jsval) : num :=
  Geo.numberOr radiusKm
    (Geo.numberOr (JStr (Config.DEFAULT_RADIUS_KM env)) (JsNumber.of_Z 100)).

(** [/^\d{4}$|^\d{6}$/.test(String(pincode).trim())] *)
Definition pincodeOk (pincode : jsval) : bool :=
  let s := trim (Js.ToString rt pincode) in
  digits_exactly 4 s || digits_exactly 6 s.

(** The two guards at the head of [buildPickupResponse]. *)
Definition validate (pincode : jsval) : M.t unit :=
  if negb (Js.truthy pincode) then M.throw (Thrown PincodeRequired)
  else if negb (pincodeOk pincode) then M.throw (Thrown (InvalidPincodeError pincode))
  else M.ret tt.

(** The inventory part: [invItemGid] and [qtyByLoc]. *)
Definition inventory (gql : Shopify.Client) (variantId : jsval)
    : M.t (option string * gmap string Z) :=
  if Js.truthy variantId then
    let* invItemGid := ShopifyApi.getInventoryItemIdForVariant rt gql variantId in
    let* qtyByLoc := ShopifyApi.getInventoryByLocation gql invItemGid in
    M.ret (Some invItemGid, qtyByLoc)
  else M.ret (None, ∅).

(** [variantId ?? null] *)
Definition orNull (v : jsval) : jsval :=
  match v with JUndefined => JNull | _ => v end.

(** The object that [buildPickupResponse] returns. *)
Definition result (req : Request) (RADIUS : num) (pin : GeoPoint)
    (invItemGid : option string) (enriched : list EnrichedLocation) : PickupResult :=
  {| input := {| input_pincode := pincode req;
                 input_geocoded :=
                   {| geocoded_lat := lat pin;
                      geocoded_lng := lng pin;
                      geocoded_address := formatted pin |};
                 input_radiusKm := RADIUS;
                 input_variantId := orNull (variantId req);
                 input_inventoryItemGid := invItemGid |};
     inRadius := inRadiusOf RADIUS enriched;
     outOfRadius := outOfRadiusOf RADIUS enriched |}.

(** [await Promise.all(locations.map(async (loc) => ...))].  [map] calls
    the callback for every location before any of the callbacks resumes:
    each of them makes its first tests of the caches in the state [map] was
    called in, whatever the others will write.  The callbacks then resume,
    here one after the other in the order of the list; in which order they
    resume in the code depends on when the providers answer. *)
Definition visitAll (pin : GeoPoint) (qtyByLoc : gmap string Z)
    (locations : list Shopify.Location) : M.t (list (option EnrichedLocation)) :=
  let* called := M.get in
  M.mapM (visit called pin qtyByLoc) locations.

(** [buildPickupResponse({ pincode, variantId, radiusKm, gql, shop })] *)
Definition buildPickupResponse (fuel : nat) (req : Request)
    (gql : Shopify.Client) (shop : string) : M.t PickupResult :=
  validate (pincode req) ;;
  let RADIUS := effectiveRadius (radiusKm req) in
  let* pin := Geocoding.geocode env w (Js.ToString rt (pincode req)) in
  let* locations := ShopifyApi.fetchShopifyLocations fuel gql shop in
  let* inv := inventory gql (variantId req) in
  let* visited := visitAll pin (snd inv) locations in
  let enriched := omap id visited in
  M.ret (result req RADIUS pin (fst inv) enriched).
End Resolver.
End Pickup.

(* ===================================================================== *)
(** ** Regular expressions *)
(* ===================================================================== *)

(** The regular expressions of the code use character classes, literals,
    sequence, alternation, [*] and [{n}], anchored at both ends with [^] and
    [$] and without flags: [re.test(s)] then asks whether the whole of [s] is
    in the language of the expression.  The test is run by derivatives, one
    code unit at a time. *)
Module JsRegExp.
Import JsString.

Inductive re : Type :=
| Never
| Empty
| Class (p : ascii -> bool)
| Seq (r1 r2 : re)
| Alt (r1 r2 : re)
| Star (r : re).

Fixpoint nullable (r : re) : bool :=
  match r with
  | Never => false
  | Empty => true
  | Class _ => false
  | Seq r1 r2 => nullable r1 && nullable r2
  | Alt r1 r2 => nullable r1 || nullable r2
  | Star _ => true
  end.

Fixpoint deriv (c : ascii) (r : re) : re :=
  match r with
  | Never => Never
  | Empty => Never
  | Class p => if p c then Empty else Never
  | Seq r1 r2 =>
      if nullable r1 then Alt (Seq (deriv c r1) r2) (deriv c r2)
      else Seq (deriv c r1) r2
  | Alt r1 r2 => Alt (deriv c r1) (deriv c r2)
  | Star r1 => Seq (deriv c r1) (Star r1)
  end.

(** [/^r$/.test(s)] *)
Fixpoint test (r : re) (s : string) : bool :=
  match s with
  | EmptyString => nullable r
  | String c s' => test (deriv c r) s'
  end.

(** A literal text. *)
Fixpoint lit (text : string) : re :=
  match text with
  | EmptyString => Empty
  | String c text' => Seq (Class (Ascii.eqb c)) (lit text')
  end.

(** [r{n}] *)
Fixpoint times (n : nat) (r : re) : re :=
  match n with
  | O => Empty
  | S n' => Seq r (times n' r)
  end.

(** [\d] *)
Definition digit : re := Class isDigit.

(** [[a-zA-Z0-9]] and [[a-zA-Z0-9\-]] *)
Definition isAlnum (c : ascii) : bool :=
  let n := code c in
  ((97 <=? n) && (n <=? 122) || (65 <=? n) && (n <=? 90) || (48 <=? n) && (n <=? 57))%N.

Definition isAlnumOrHyphen (c : ascii) : bool := isAlnum c || (code c =? 45)%N.

(** [/^\d{4}$|^\d{6}$/] *)
Definition pincodeRegex : re := Alt (times 4 digit) (times 6 digit).

(** [/^[a-zA-Z0-9][a-zA-Z0-9\-]*\.myshopify\.com$/] *)
Definition shopifyDomainRegex : re :=
  Seq (Class isAlnum) (Seq (Star (Class isAlnumOrHyphen)) (lit ".myshopify.com")).

(** The language of an expression. *)
Inductive Matches : re -> string -> Prop :=
| MEmpty : Matches Empty ""
| MClass (p : ascii -> bool) (c : ascii) : p c = true -> Matches (Class p) (String c "")
| MSeq (r1 r2 : re) (s1 s2 : string) :
    Matches r1 s1 -> Matches r2 s2 -> Matches (Seq r1 r2) (s1 +:+ s2)
| MAltL (r1 r2 : re) (s : string) : Matches r1 s -> Matches (Alt r1 r2) s
| MAltR (r1 r2 : re) (s : string) : Matches r2 s -> Matches (Alt r1 r2) s
| MStarNone (r : re) : Matches (Star r) ""
| MStarMore (r : re) (s1 s2 : string) :
    Matches r s1 -> Matches (Star r) s2 -> Matches (Star r) (s1 +:+ s2).

(** Every code unit of a string satisfies a predicate. *)
Fixpoint allChars (p : ascii -> bool) (s : string) : bool :=
  match s with
  | EmptyString => true
  | String c s' => p c && allChars p s'
  end.

End JsRegExp.

(* ===================================================================== *)
(** ** The Shopify client and the two routes *)
(* ===================================================================== *)

Module Client.
Import Errors.

(** The configuration [makeShopifyGqlClient] hands to [axios.create]. *)
Record Config : Type := {
  baseURL : string;
  headers : list (string * jsval);
  timeout : Z;
}.

Definition ShopifyAuthMissing : AppError :=
  {| cls := AppErrorClass;
     message := "Missing shop or access token for Shopify client.";
     code := "shopify_auth_missing";
     status := 401;
     meta := [] |}.

Section WithRuntime.
Variable rt : Runtime.
Variable env : Env.

(** [makeShopifyGqlClient(shop, accessToken)] *)
Definition makeShopifyGqlClient (shop accessToken : jsval) : M.t Config :=
  if negb (Js.truthy shop) || negb (Js.truthy accessToken) then
    M.throw (Thrown ShopifyAuthMissing)
  else
    M.ret {| baseURL := "https://" +:+ Js.ToString rt shop +:+ "/admin/api/"
                          +:+ Config.SHOPIFY_API_VERSION env +:+ "/graphql.json";
             headers := [("X-Shopify-Access-Token", accessToken);
                         ("Content-Type", JStr "application/json")];
             timeout := 20000 |}.
End WithRuntime.
End Client.

Module Routes.
Import Errors JsString.

(** What a handler reads of the error it has caught: [error.message],
    [error?.meta], [error?.code] and [error?.status]. *)
Record ErrorView : Type := {
  view_message : string;
  view_meta : option (list (string * metaval));
  view_code : option string;
  view_status : option Z;
}.

(** A step of a handler that is not part of [pickup.server.js] (reading the
    request body, querying the session table): it fails with an error or
    gives a value. *)
Inductive Attempt (A : Type) : Type :=
| Fails (error : ErrorView)
| Gives (a : A).
Arguments Fails {A} error.
Arguments Gives {A} a.

(** The row of the session table: [session.shop], [session.accessToken]. *)
Record Session : Type := {
  shop : string;
  accessToken : string;
}.

(** The body of a response.  A field that is [undefined] is absent. *)
Inductive Payload : Type :=
| Text (text : string)
| Preflight (success : option bool)
| Failure (error : string) (meta : option (list (string * metaval)))
    (code : option string)
| PickupFound (result : Pickup.PickupResult)
| LocationsFound (shop : string) (count : nat) (locations : list Shopify.Location).

(** A response: its status, whether it went through [cors(request, ...)],
    and its body. *)
Record Response : Type := {
  status : Z;
  cors : bool;
  payload : Payload;
}.

(** [json({ message: "CORS preflight successful" }, { status: 200 })],
    through [cors] *)
Definition preflight (success : option bool) : Response :=
  {| status := 200; cors := true; payload := Preflight success |}.

(** [new Response("Method Not Allowed", { status: 405 })] *)
Definition methodNotAllowed : Response :=
  {| status := 405; cors := false; payload := Text "Method Not Allowed" |}.

(** [json({ success: false, error }, { status })], through [cors] *)
Definition refuse (status : Z) (error : string) : Response :=
  {| status := status; cors := true; payload := Failure error None None |}.

(** [error?.status || 500] *)
Definition statusOr500 (v : ErrorView) : Z :=
  match view_status v with
  | Some z => if (z =? 0)%Z then 500%Z else z
  | None => 500%Z
  end.

(** The fields of the error a handler has caught.  Those of an error that
    is not an [AppError] (the HTTP client's error, the [TypeError]) are the
    runtime's. *)
Definition viewOf (foreign : exn -> ErrorView) (e : exn) : ErrorView :=
  match e with
  | Thrown a =>
      {| view_message := message a;
         view_meta := Some (meta a);
         view_code := Some (Errors.code a);
         view_status := Some (Errors.status a) |}
  | other => foreign other
  end.

(** [!session?.accessToken]: the session, when it has a token. *)
Definition authenticated (session : option Session) : option Session :=
  match session with
  | Some se => if String.eqb (accessToken se) "" then None else Some se
  | None => None
  end.

End Routes.

(** [app/routes/api.pickup.jsx] *)
Module ApiPickup.
Import Errors JsString Routes.
Local Open Scope m_scope.

(** The body of the request after [request.json()] and the destructuring
    [const { myShopifyDomain, pincode, variantId, radiusKm } = body || {}]:
    a field the body lacks, and every field of a body that is not an object,
    is [undefined]. *)
Record Body : Type := {
  myShopifyDomain : jsval;
  pincode : jsval;
  variantId : jsval;
  radiusKm : jsval;
}.

Record Request : Type := {
  method : string;
  json : Attempt Body;
}.

Section Handlers.
Variable rt : Runtime.
Variable env : Env.
Variable w : World.
(** [db.session.findFirst({ where: { shop } })] *)
Variable findFirst : jsval -> Attempt (option Session).
(** The GraphQL endpoint a client is configured for. *)
Variable connect : Client.Config -> Shopify.Client.
Variable foreign : exn -> ErrorView.

(** [loader({ request })] *)
Definition loader (request : Request) : Response :=
  if String.eqb (method request) "OPTIONS" then preflight None else methodNotAllowed.

(** The [catch] block. *)
Definition caught (v : ErrorView) : Response :=
  {| status := statusOr500 v;
     cors := true;
     payload := Failure (view_message v) (view_meta v) (view_code v) |}.

(** [action({ request })] *)
Definition action (fuel : nat) (request : Request) : M.t Response :=
  if String.eqb (method request) "OPTIONS" then M.ret (preflight None)
  else if negb (String.eqb (method request) "POST") then M.ret methodNotAllowed
  else
    match json request with
    | Fails v => M.ret (caught v)
    | Gives body =>
        if negb (Js.truthy (myShopifyDomain body)) then
          M.ret (refuse 400 "Invalid or missing Shopify domain.")
        else if negb (JsRegExp.test JsRegExp.shopifyDomainRegex
                        (Js.ToString rt (myShopifyDomain body))) then
          M.ret (refuse 400 "Invalid Shopify domain format. Expected example.myshopify.com")
        else
          match findFirst (myShopifyDomain body) with
          | Fails v => M.ret (caught v)
          | Gives session =>
              match authenticated session with
              | None => M.ret (refuse 403 "No session found. Please authenticate the shop.")
              | Some se =>
                  M.try_catch
                    (let* gql := Client.makeShopifyGqlClient rt env
                                   (JStr (shop se)) (JStr (accessToken se)) in
                     let* result :=
                       Pickup.buildPickupResponse rt env w fuel
                         {| Pickup.pincode := pincode body;
                            Pickup.variantId := variantId body;
                            Pickup.radiusKm := radiusKm body |}
                         (connect gql) (shop se) in
                     M.ret {| status := 200; cors := true; payload := PickupFound result |})
                    (fun e => M.ret (caught (viewOf foreign e)))
              end
          end
    end.
End Handlers.
End ApiPickup.

(** [app/routes/api.locations.jsx] *)
Module ApiLocations.
Import Errors JsString Routes.
Local Open Scope m_scope.

(** The request: its method and [url.searchParams.get("shopDomain")]. *)
Record Request : Type := {
  method : string;
  shopDomain : option string;
}.

Section Handlers.
Variable rt : Runtime.
Variable env : Env.
Variable findFirst : jsval -> Attempt (option Session).
Variable connect : Client.Config -> Shopify.Client.
Variable foreign : exn -> ErrorView.

(** The [catch] block: [error?.message || "Unexpected error ..."]. *)
Definition caught (v : ErrorView) : Response :=
  {| status := statusOr500 v;
     cors := true;
     payload :=
       Failure (if String.eqb (view_message v) ""
                then "Unexpected error while fetching locations."
                else view_message v)
               (view_meta v) (view_code v) |}.

(** [loader({ request })] *)
Definition loader (fuel : nat) (request : Request) : M.t Response :=
  if String.eqb (method request) "OPTIONS" then M.ret (preflight (Some true))
  else
    match shopDomain request with
    | None =>
        M.ret (refuse 400 "Missing or invalid shopDomain (e.g. example.myshopify.com).")
    | Some domain =>
        if String.eqb domain "" then
          M.ret (refuse 400 "Missing or invalid shopDomain (e.g. example.myshopify.com).")
        else if negb (JsRegExp.test JsRegExp.shopifyDomainRegex domain) then
          M.ret (refuse 400 "Invalid Shopify domain format. Expected example.myshopify.com")
        else
          match findFirst (JStr domain) with
          | Fails v => M.ret (caught v)
          | Gives session =>
              match authenticated session with
              | None =>
                  M.ret (refuse 403
                    "No session/access token found for this shop. Please authenticate the shop.")
              | Some se =>
                  M.try_catch
                    (let* gql := Client.makeShopifyGqlClient rt env
                                   (JStr (shop se)) (JStr (accessToken se)) in
                     let* locations :=
                       ShopifyApi.fetchShopifyLocations fuel (connect gql) (shop se) in
                     M.ret {| status := 200; cors := true;
                              payload := LocationsFound (shop se) (length locations)
                                           locations |})
                    (fun e => M.ret (caught (viewOf foreign e)))
              end
          end
    end.

(** [action()] *)
Definition action : Response := methodNotAllowed.
End Handlers.
End ApiLocations.

(* ===================================================================== *)
(** ** The delivery customization *)
(* ===================================================================== *)

(** [cartDeliveryOptionsTransformRun], the function that hides delivery
    options at checkout. *)
Module DeliveryOptions.
Import JsString.

Record DeliveryOption : Type := {
  handle : string;
  title : option string;
}.

Record DeliveryGroup : Type := {
  deliveryOptions : list DeliveryOption;
}.

(** A cart line: [line.merchandise.product?.title], which is absent for
    merchandise that is not a product variant. *)
Record CartLine : Type := {
  productTitle : option string;
}.

Record Cart : Type := {
  lines : list CartLine;
  deliveryGroups : list DeliveryGroup;
}.

Inductive Operation : Type :=
| deliveryOptionHide (deliveryOptionHandle : string).

(** [s.includes(needle)] *)
Fixpoint includes (needle s : string) : bool :=
  String.prefix needle s ||
  match s with
  | EmptyString => false
  | String _ s' => includes needle s'
  end.

(** [input.cart.lines.some(line => line.merchandise.product?.title
      ?.toLowerCase().includes('click & collect'))] *)
Definition hasClickAndCollectProduct (cart : Cart) : bool :=
  existsb
    (fun line =>
       match productTitle line with
       | Some t => includes "click & collect" (toLowerCase t)
       | None => false
       end)
    (lines cart).

(** [option.title === 'Click And Collect'] *)
Definition isClickAndCollect (option : DeliveryOption) : bool :=
  match title option with
  | Some t => String.eqb t "Click And Collect"
  | None => false
  end.

Definition hide (option : DeliveryOption) : Operation :=
  deliveryOptionHide (handle option).

(** [cartDeliveryOptionsTransformRun(input)]: the [operations] of the
    result. *)
Definition cartDeliveryOptionsTransformRun (cart : Cart) : list Operation :=
  if hasClickAndCollectProduct cart then
    flat_map
      (fun group =>
         map hide (List.filter (fun option => negb (isClickAndCollect option))
                     (deliveryOptions group)))
      (deliveryGroups cart)
  else
    flat_map
      (fun group => map hide (List.filter isClickAndCollect (deliveryOptions group)))
      (deliveryGroups cart).

End DeliveryOptions.

(* ===================================================================== *)
(** ** A sample runtime, environment and world *)
(* ===================================================================== *)

(** A runtime to run the code on concrete requests: the elementary
    functions are evaluated by short series, which are close for the small
    angles of the sample (distances of a few hundred kilometres) and not
    for large ones, and rounded to sixty binary digits. *)
Module Sample.
Import JsNumber.

Definition round60 (q : Q) : Q := Qred (Qfloor (q * inject_Z (2 ^ 60)) # 2 ^ 60).

Definition sin_series (q : Q) : Q :=
  round60 (q - q ^ 3 / 6 + q ^ 5 / 120 - q ^ 7 / 5040).

Definition cos_series (q : Q) : Q :=
  round60 (1 - q ^ 2 / 2 + q ^ 4 / 24 - q ^ 6 / 720).

Definition asin_series (q : Q) : Q :=
  round60 (q + q ^ 3 / 6 + 3 * q ^ 5 / 40 + 15 * q ^ 7 / 336).

Fixpoint newton (n : nat) (q x : Q) : Q :=
  match n with
  | O => x
  | S n' => newton n' q (round60 ((x + q / x) / 2))
  end.

Definition sqrt_newton (q : Q) : Q :=
  newton 40 q (round60 ((1 + q) / 2) + 1).

(** The decimals of a fraction between 0 and 1, as far as they go and at
    most [n] of them. *)
Fixpoint decimals (n : nat) (f : Q) : string :=
  match n with
  | O => ""
  | S n' =>
      if qzero f then ""
      else let d := Qfloor (f * 10) in
           pretty d +:+ decimals n' (f * 10 - inject_Z d)
  end.

(** The decimal expansion, cut after seventeen decimals: what [String]
    prints for a number with a short decimal expansion, as 1.5 or
    28.6328. *)
Definition print_decimal (q : Q) : string :=
  let n := Qfloor (Qabs q) in
  (if qneg q then "-" else "") +:+ pretty n +:+
  match decimals 17 (Qabs q - inject_Z n) with
  | "" => ""
  | ds => "." +:+ ds
  end.

Definition runtime : Runtime :=
  {| sin_fin := sin_series;
     cos_fin := cos_series;
     asin_fin := asin_series;
     sqrt_fin := sqrt_newton;
     print_fin := print_decimal |}.

Definition env_of_mode (mode : option string) : Env :=
  {| env_GOOGLE_MAPS_KEY := Some "test-key";
     env_SHOPIFY_API_VERSION := None;
     env_DEFAULT_RADIUS_KM := None;
     env_GEOCODER_MODE := mode |}.

(** Both geocoding services unreachable. *)
Definition offline : World :=
  {| google := fun _ => Rejected "ECONNREFUSED";
     nominatim := fun _ => Rejected "ECONNREFUSED" |}.

(** Both geocoding services reachable, with no record for any query. *)
Definition nothing_known : World :=
  {| google := fun _ =>
       Resolved {| Google.status := Some "ZERO_RESULTS";
                   Google.results := Some [];
                   Google.error_message := None |};
     nominatim := fun _ => Resolved (Some []) |}.

(** The primary provider refuses the key; the secondary one has no record. *)
Definition denied : World :=
  {| google := fun _ =>
       Resolved {| Google.status := Some "REQUEST_DENIED";
                   Google.results := Some [];
                   Google.error_message := Some "The provided API key is invalid." |};
     nominatim := fun _ => Resolved (Some []) |}.

(** The secondary provider knows the queries of a gazetteer, by their exact
    text (the postal code of a structured search, the text of a free-form
    one); the primary provider is unreachable. *)
Definition atlas (gazetteer : list (string * (jsval * jsval))) : World :=
  {| google := fun _ => Rejected "ECONNREFUSED";
     nominatim := fun p =>
       let q := match p with
                | Osm.Structured postalcode _ => postalcode
                | Osm.Freeform q _ => q
                end in
       match List.find (fun entry => String.eqb (fst entry) q) gazetteer with
       | Some (_, (la, lo)) =>
           Resolved (Some [{| Osm.lat := la; Osm.lon := lo; Osm.display_name := q |}])
       | None => Resolved (Some [])
       end |}.

Definition location (id name city : string) (active online : bool) : Shopify.Location :=
  {| Shopify.id := id;
     Shopify.name := name;
     Shopify.isActive := active;
     Shopify.fulfillsOnlineOrders := online;
     Shopify.address :=
       Some {| Shopify.address1 := None; Shopify.address2 := None;
               Shopify.city := Some city; Shopify.province := None;
               Shopify.country := None; Shopify.zip := None |} |}.

(** The pages that follow the edge with the given cursor. *)
Fixpoint pagesAfter (cursor : string) (pages : list (list Shopify.Edge))
    : list (list Shopify.Edge) :=
  match pages with
  | [] => []
  | page :: rest =>
      if existsb (fun e => String.eqb (Shopify.cursor e) cursor) page then rest
      else pagesAfter cursor rest
  end.

(** The body that carries one page of locations. *)
Definition pageBody (edges : list Shopify.Edge) (more : bool) : Shopify.Body :=
  {| Shopify.errors := [];
     Shopify.data :=
       Some {| Shopify.locations :=
                 Some {| Shopify.edges := Some edges; Shopify.hasNextPage := Some more |};
               Shopify.productVariant_inventoryItem_id := None;
               Shopify.inventoryItem_inventoryLevels_edges := None |} |}.

(** A shop whose locations come in the given pages, with one inventory item
    for every variant and the given inventory levels. *)
Definition shopify (pages : list (list Shopify.Edge)) (levels : list Shopify.Level)
    : Shopify.Client :=
  fun req =>
    let body (d : Shopify.Data) := Resolved {| Shopify.errors := []; Shopify.data := Some d |} in
    match req with
    | Shopify.LocationsQuery _ after =>
        let remaining := match after with
                         | None => pages
                         | Some c => pagesAfter c pages
                         end in
        Resolved (pageBody (List.hd [] remaining)
                    (match remaining with _ :: _ :: _ => true | _ => false end))
    | Shopify.InvItemQuery _ =>
        body {| Shopify.locations := None;
                Shopify.productVariant_inventoryItem_id :=
                  Some "gid://shopify/InventoryItem/9";
                Shopify.inventoryItem_inventoryLevels_edges := None |}
    | Shopify.LevelsQuery _ =>
        body {| Shopify.locations := None;
                Shopify.productVariant_inventoryItem_id := None;
                Shopify.inventoryItem_inventoryLevels_edges := Some levels |}
    end.

Definition edge (cursor : string) (node : Shopify.Location) : Shopify.Edge :=
  {| Shopify.cursor := cursor; Shopify.node := node |}.

(** Three stores and a closed one, on two pages. *)
Definition delhi : Shopify.Location :=
  location "gid://shopify/Location/1" "Delhi" "New Delhi" true true.

Definition agra : Shopify.Location :=
  location "gid://shopify/Location/2" "Agra" "Agra" true false.

Definition jaipur : Shopify.Location :=
  location "gid://shopify/Location/3" "Jaipur" "Jaipur" true true.

Definition closed : Shopify.Location :=
  location "gid://shopify/Location/4" "Closed" "Mumbai" false true.

Definition storePages : list (list Shopify.Edge) :=
  [[edge "c1" delhi; edge "c2" closed]; [edge "c3" agra; edge "c4" jaipur]].

Definition levels : list Shopify.Level :=
  [{| Shopify.quantities := Some [("available", 5%Z)];
      Shopify.location_id := "gid://shopify/Location/1" |};
   {| Shopify.quantities := Some [("available", 0%Z)];
      Shopify.location_id := "gid://shopify/Location/3" |}].

Definition india : World :=
  atlas [("110001", (JStr "28.6328", JStr "77.2197"));
         ("110001, India", (JStr "28.6328", JStr "77.2197"));
         ("New Delhi", (JStr "28.6139", JStr "77.2090"));
         ("Agra", (JStr "27.1767", JStr "78.0081"));
         ("Jaipur", (JStr "26.9124", JStr "75.7873"))].

Definition request (pincode : string) (variantId radiusKm : jsval) : Pickup.Request :=
  {| Pickup.pincode := JStr pincode;
     Pickup.variantId := variantId;
     Pickup.radiusKm := radiusKm |}.
(** The same, except that the provider places Agra at latitude and
    longitude zero and gives no numeric latitude for Jaipur. *)
Definition india_with_gaps : World :=
  atlas [("110001", (JStr "28.6328", JStr "77.2197"));
         ("110001, India", (JStr "28.6328", JStr "77.2197"));
         ("New Delhi", (JStr "28.6139", JStr "77.2090"));
         ("Agra", (JStr "0", JStr "0"));
         ("Jaipur", (JStr "n/a", JStr "75.7873"))].


(** A request for the stores around 110001, and its run from cold caches. *)
Definition run (w : World) (variantId radiusKm : jsval)
    : M.outcome Pickup.PickupResult * State :=
  Pickup.buildPickupResponse runtime (env_of_mode None) w 10
    (request "110001" variantId radiusKm) (shopify storePages levels)
    "demo.myshopify.com" emptyState.
End Sample.

(** A session table with one shop, a request to the pickup route, and a
    cart with three delivery options. *)
Module Storefront.
Definition sessions (v : jsval) : Routes.Attempt (option Routes.Session) :=
  match v with
  | JStr "demo.myshopify.com" =>
      Routes.Gives (Some {| Routes.shop := "demo.myshopify.com";
                            Routes.accessToken := "shpat_1" |})
  | _ => Routes.Gives None
  end.

Definition opaque (e : Errors.exn) : Routes.ErrorView :=
  {| Routes.view_message := "failed"; Routes.view_meta := None;
     Routes.view_code := None; Routes.view_status := None |}.

Definition post (domain pincode : string) : ApiPickup.Request :=
  {| ApiPickup.method := "POST";
     ApiPickup.json :=
       Routes.Gives {| ApiPickup.myShopifyDomain := JStr domain;
                       ApiPickup.pincode := JStr pincode;
                       ApiPickup.variantId := JUndefined;
                       ApiPickup.radiusKm := JUndefined |} |}.

(** A store whose address the providers do not know, with a postal code
    they know. *)
Definition depot : Shopify.Location :=
  {| Shopify.id := "gid://shopify/Location/7";
     Shopify.name := "Depot";
     Shopify.isActive := true;
     Shopify.fulfillsOnlineOrders := true;
     Shopify.address :=
       Some {| Shopify.address1 := Some "Plot 7"; Shopify.address2 := None;
               Shopify.city := None; Shopify.province := None;
               Shopify.country := None; Shopify.zip := Some "110001" |} |}.

(** Two stores that Shopify lists under one id. *)
Definition north : Shopify.Location :=
  Sample.location "gid://shopify/Location/9" "North" "New Delhi" true true.

Definition south : Shopify.Location :=
  Sample.location "gid://shopify/Location/9" "South" "Agra" true true.

Definition option (handle title : string) : DeliveryOptions.DeliveryOption :=
  {| DeliveryOptions.handle := handle; DeliveryOptions.title := Some title |}.

Definition cart (titles : list string) : DeliveryOptions.Cart :=
  {| DeliveryOptions.lines :=
       map (fun t => {| DeliveryOptions.productTitle := Some t |}) titles;
     DeliveryOptions.deliveryGroups :=
       [{| DeliveryOptions.deliveryOptions :=
             [option "h1" "Standard"; option "h2" "Click And Collect";
              option "h3" "Express"] |}] |}.
End Storefront.

(* ===================================================================== *)
(** ** The vocabulary of the statements *)
(* ===================================================================== *)

Module Vocabulary.
Import Errors Effects JsString JsNumber M Geocoding ShopifyApi Pickup.

(** The state after some more requests were logged. *)
Definition logged (calls : list Call) (s : State) : State :=
  {| geocodeCache := geocodeCache s;
     locationGeoCache := locationGeoCache s;
     shopifyLocationsCache := shopifyLocationsCache s;
     log := (log s ++ calls)%list |}.

(** The key under which [geocode] caches the answer to a query. *)
Definition keyOf (address : string) : string := "geo:" +:+ trim address.

(** The key under which [geocodeShopifyLocation] caches a location. *)
Definition locKey (loc : Shopify.Location) : string := "loc:" +:+ Shopify.id loc.

(** An answer of the secondary provider that carries no record. *)
Definition noRecord (answer : Http Osm.Data) : bool :=
  match answer with
  | Resolved (Some (_ :: _)) => false
  | _ => true
  end.

(** [g.lat === 0 && g.lng === 0] *)
Definition atOrigin (la lo : num) : bool := JsNumber.eq la (Fin 0) && JsNumber.eq lo (Fin 0).

(** The entries that survive: for each location, in order, the value of
    the callback at coordinates that [geocodeShopifyLocation] returned for
    it.  In which states it did is what [resolved] and [placed] tell. *)
Definition survivors (rt : Runtime) (env : Env) (w : World) (pin : GeoPoint)
    (qty : gmap string Z) (locations : list Shopify.Location)
    (visited : list (option EnrichedLocation)) : Prop :=
  Forall2
    (fun loc v =>
       exists g called sa sb,
         geocodeShopifyLocationFrom env w called loc sa = (Returned g, sb) /\
         v = enrich rt pin qty loc g)
    locations visited.

(** The values a run of [buildPickupResponse] computes on its way, from the
    state [s] on: the geocoded pincode, the active locations of the shop,
    the inventory map, and what the callback of [locations.map] returned for
    each location. *)
Definition resolved (rt : Runtime) (env : Env) (w : World) (fuel : nat)
    (req : Request) (gql : Shopify.Client) (shop : string) (s : State)
    (pin : GeoPoint) (qty : gmap string Z) (locations : list Shopify.Location)
    (visited : list (option EnrichedLocation)) : Prop :=
  exists s1 s2 gid s3 s4,
    geocode env w (Js.ToString rt (pincode req)) s = (Returned pin, s1) /\
    fetchShopifyLocations fuel gql shop s1 = (Returned locations, s2) /\
    inventory rt gql (variantId req) s2 = (Returned (gid, qty), s3) /\
    visitAll rt env w pin qty locations s3 = (Returned visited, s4).

(** The coordinates a run of [buildPickupResponse] obtains from the state
    [s] on: the geocoded pincode, the active locations of the shop, the
    inventory map and, for each location in order, what the call of
    [geocodeShopifyLocation] in its callback returned. *)
Definition placed (rt : Runtime) (env : Env) (w : World) (fuel : nat)
    (req : Request) (gql : Shopify.Client) (shop : string) (s : State)
    (pin : GeoPoint) (qty : gmap string Z) (locations : list Shopify.Location)
    (gs : list GeoPoint) : Prop :=
  exists s1 s2 gid s3 s4,
    geocode env w (Js.ToString rt (pincode req)) s = (Returned pin, s1) /\
    fetchShopifyLocations fuel gql shop s1 = (Returned locations, s2) /\
    inventory rt gql (variantId req) s2 = (Returned (gid, qty), s3) /\
    mapM (geocodeShopifyLocationFrom env w s3) locations s3 = (Returned gs, s4).

(** The entry of the result for a location with the coordinates [g]: its
    id, name and address, the coordinates, the distance from the pincode
    rounded to two decimals, and the stock. *)
Definition entryOf (rt : Runtime) (pin : GeoPoint) (qty : gmap string Z)
    (loc : Shopify.Location) (g : GeoPoint) : EnrichedLocation :=
  {| locationId := Shopify.id loc;
     name := Shopify.name loc;
     address := {| fields := Shopify.address loc; formatted_text := formatted g |};
     coordinates := {| Geo.lat := lat g; Geo.lng := lng g |};
     distanceKm :=
       toFixed2 (Geo.haversineKm rt {| Geo.lat := lat pin; Geo.lng := lng pin |}
                   {| Geo.lat := lat g; Geo.lng := lng g |});
     available := qty !! Shopify.id loc;
     status :=
       match qty !! Shopify.id loc with
       | None => "unknown"
       | Some q => if (0 <? q)%Z then "instock" else "outofstock"
       end |}.

(** The locations with their coordinates, without those at (0, 0). *)
Definition awayFromOrigin (locations : list Shopify.Location) (gs : list GeoPoint)
    : list (Shopify.Location * GeoPoint) :=
  List.filter (fun p => negb (atOrigin (lat (snd p)) (lng (snd p)))) (zip locations gs).

(** The haversine formula, as the specification names it: the great-circle
    distance on a sphere of radius [R] between two points, from their
    latitudes [phi1] and [phi2] and the differences [dphi] and [dlambda] of
    their latitudes and of their longitudes, all in radians:
    [2 R asin (sqrt (hav dphi + cos phi1 * cos phi2 * hav dlambda))], where
    [hav t] is the square of [sin (t / 2)]. *)
Definition hav (rt : Runtime) (t : num) : num :=
  square (Geo.Math_sin rt (div t (of_Z 2))).

Definition greatCircle (rt : Runtime) (R phi1 phi2 dphi dlambda : num) : num :=
  mul (mul (of_Z 2) R)
    (Geo.Math_asin rt
       (Geo.Math_sqrt rt
          (add (hav rt dphi)
               (mul (mul (Geo.Math_cos rt phi1) (Geo.Math_cos rt phi2)) (hav rt dlambda))))).

(** Degrees in radians. *)
Definition radians (degrees : num) : num := div (mul degrees Geo.Math_PI) (of_Z 180).

(** The cosine the runtime gives for an angle is a number between -1 and
    1. *)
Definition cosineInRange (rt : Runtime) (angle : num) : bool :=
  match Geo.Math_cos rt angle with
  | Fin c => Qle_bool (Qabs c) 1
  | _ => false
  end.

(** Ascending order of a key, as [<=] of the language sees it. *)
Definition ascending {A} (key : A -> num) (x y : A) : Prop := le (key x) (key y) = true.

(** Ascending order of [distanceKm]. *)
Definition byDistanceAscending : EnrichedLocation -> EnrichedLocation -> Prop :=
  ascending distanceKm.

(** The configured default radius: [numberOr(DEFAULT_RADIUS_KM, 100)]. *)
Definition defaultRadius (env : Env) : num :=
  Geo.numberOr (JStr (Config.DEFAULT_RADIUS_KM env)) (of_Z 100).

(** The errors of the class InvalidInput: a missing or malformed pincode. *)
Definition invalidInput (e : exn) : bool :=
  match e with
  | Thrown a =>
      String.eqb (Errors.code a) "pincode_required"
      || String.eqb (Errors.code a) "invalid_pincode"
  | _ => false
  end.

(** A computation that throws no InvalidInput error. *)
Definition valid_throws {A} (m : M.t A) : Prop :=
  forall s e s', m s = (Threw e, s') -> invalidInput e = false.

(** A computation that always returns. *)
Definition returns {A} (m : M.t A) : Prop :=
  forall s, exists a s', m s = (Returned a, s').




End Vocabulary.

(** The vocabulary of the further properties: requests, errors, routes
    and delivery options. *)
Module Behaviour.
Import Errors Effects JsString M Geocoding ShopifyApi Pickup Vocabulary.

Definition toGoogle (c : Call) : bool :=
  match c with ToGoogle _ => true | _ => false end.

Definition toNominatim (c : Call) : bool :=
  match c with ToNominatim _ => true | _ => false end.

Definition locationsQuery (c : Call) : bool :=
  match c with ToShopify (Shopify.LocationsQuery _ _) => true | _ => false end.

Definition inventoryQuery (c : Call) : bool :=
  match c with
  | ToShopify (Shopify.InvItemQuery _) | ToShopify (Shopify.LevelsQuery _) => true
  | _ => false
  end.

(** A computation all of whose requests are of one kind, however it ends. *)
Definition only {A} (kind : Call -> bool) (m : M.t A) : Prop :=
  forall s, exists calls,
    log (snd (m s)) = (log s ++ calls)%list /\ forallb kind calls = true.

(** The requests [geocode] makes for a query that is not cached when no
    strategy yields a result, in their order: the strategies the mode allows. *)
Definition plan (env : Env) (address : string) : list Call :=
  let original := trim address in
  let is6 := digits_exactly 6 original in
  let is4 := digits_exactly 4 original in
  ((if String.eqb (mode env) "osm" then []
    else [ToGoogle (googleParams env original is6 is4)]) ++
   (if String.eqb (mode env) "google" then []
    else (if is6 || is4 then [ToNominatim (osmStructuredParams original is6)] else []) ++
         [ToNominatim (osmFreeformParams original is6 is4)]))%list.

(** How a request for a page of locations fails: the client rejects it,
    or the body carries an array of errors. *)
Definition pageFailure (gql : Shopify.Client) (e : exn) : Prop :=
  exists cursor,
    match gql (Shopify.LocationsQuery 100 cursor) with
    | Rejected reason => e = AxiosError reason
    | Resolved body =>
        Shopify.errors body <> [] /\ e = Thrown (ShopifyGQLError (Shopify.errors body))
    end.

(** The id sent for a variant: [String(v).startsWith("gid://") ? v :
    `gid://shopify/ProductVariant/${v}`]. *)
Definition variantGid (rt : Runtime) (v : jsval) : string :=
  if startsWith "gid://" (Js.ToString rt v) then Js.ToString rt v
  else "gid://shopify/ProductVariant/" +:+ Js.ToString rt v.

(** The levels of an answer to the query of inventory levels. *)
Definition levelsOf (body : Shopify.Body) : list Shopify.Level :=
  match Shopify.data body with
  | Some d => default [] (Shopify.inventoryItem_inventoryLevels_edges d)
  | None => []
  end.

(** The last level reported for a location. *)
Definition lastLevel (id : string) (levels : list Shopify.Level) : option Shopify.Level :=
  last (List.filter (fun e => String.eqb (Shopify.location_id e) id) levels).

(** The requests a run of the resolver is entitled to: to the primary
    provider unless the mode is "osm", to the secondary provider unless the
    mode is "google", for the locations of the shop, and for the inventory
    when a variant was supplied. *)
Definition permitted (env : Env) (req : Request) (c : Call) : bool :=
  match c with
  | ToGoogle _ => negb (String.eqb (mode env) "osm")
  | ToNominatim _ => negb (String.eqb (mode env) "google")
  | ToShopify (Shopify.LocationsQuery _ _) => true
  | ToShopify _ => Js.truthy (variantId req)
  end.

(** The entries at one distance: [x.distanceKm === d]. *)
Definition atDistance (d : num) (x : EnrichedLocation) : bool :=
  JsNumber.eq (distanceKm x) d.

(** A point all of whose coordinates are finite numbers. *)
Definition finitePoint (p : Geo.LatLng) : bool :=
  JsNumber.isFinite (Geo.lat p) && JsNumber.isFinite (Geo.lng p).

(** A computation whose outcome does not depend on the state it runs in. *)
Definition oblivious {A} (m : M.t A) : Prop :=
  forall s1 s2, fst (m s1) = fst (m s2).

(** The coordinates [geocodeShopifyLocation] returns for a location when it
    is called in the state [called] and runs alone. *)
Definition coordinatesAt (env : Env) (w : World) (called : State)
    (loc : Shopify.Location) : GeoPoint :=
  match fst (geocodeShopifyLocation env w loc called) with
  | Returned g => g
  | _ => fail
  end.

(** A state reached from [called] by lookups: the geocode cache holds what
    it held then and, under the keys of queries that were absent, results
    of the lookup of these queries. *)
Definition grown (env : Env) (w : World) (called s : State) : Prop :=
  geocodeCache called ⊆ geocodeCache s /\
  forall address v,
    geocodeCache called !! keyOf address = None ->
    geocodeCache s !! keyOf address = Some v ->
    fst (geocodeFrom env w called address called) = Returned v.

End Behaviour.

Module Origin.
Import Errors Effects JsString M Geocoding ShopifyApi Pickup Vocabulary Behaviour.

(** The result [geocode] makes of a result of the primary provider. *)
Definition ofHit (hit : Google.Hit) : option GeoPoint :=
  match Google.geometry_location hit with
  | Some (la, ln) =>
      Some {| lat := la; lng := ln; formatted := Google.formatted_address hit |}
  | None => None
  end.

(** The result [geocode] makes of a record of the secondary provider. *)
Definition ofItem (it : Osm.Item) : GeoPoint :=
  {| lat := Js.Number (Osm.lat it);
     lng := Js.Number (Osm.lon it);
     formatted := Osm.display_name it |}.

(** Where a result of [geocode] comes from: the first result of the
    primary provider's answer, or the first record of an answer of the
    secondary provider to one of the two searches. *)
Definition provided (env : Env) (w : World) (address : string) (g : GeoPoint) : Prop :=
  let original := trim address in
  let is6 := digits_exactly 6 original in
  let is4 := digits_exactly 4 original in
  (mode env <> "osm" /\
   exists data hit,
     google w (googleParams env original is6 is4) = Resolved data /\
     firstResult data = Some hit /\ ofHit hit = Some g) \/
  (mode env <> "google" /\
   exists p it rest,
     (p = osmFreeformParams original is6 is4 \/
      (is6 || is4 = true /\ p = osmStructuredParams original is6)) /\
     nominatim w p = Resolved (Some (it :: rest)) /\ g = ofItem it).
End Origin.

Module Catalogue.
Import Errors Effects JsString M Geocoding ShopifyApi Pickup Vocabulary Behaviour.

(** A computation that throws errors of one kind only. *)
Definition throwsOnly {A} (kind : exn -> Prop) (m : M.t A) : Prop :=
  forall s e s', m s = (Threw e, s') -> kind e.

(** The errors of [geocode] for a query. *)
Definition geocodeFailure (env : Env) (query : string) (e : exn) : Prop :=
  e = Thrown (GeocodeNoResultError query) \/
  (mode env = "google" /\
   ((exists reason, e = AxiosError reason) \/ e = TypeError \/
    exists reason,
      e = Thrown (GeocodeProviderError "google" reason [("query", MetaVal (JStr query))]))).

(** The errors of a request to Shopify. *)
Definition shopifyFailure (e : exn) : Prop :=
  (exists reason, e = AxiosError reason) \/
  (exists messages, messages <> [] /\ e = Thrown (ShopifyGQLError messages)).

(** The errors a run of [buildPickupResponse] can end with. *)
Definition resolverFailure (rt : Runtime) (env : Env) (req : Request) (e : exn) : Prop :=
  e = Thrown PincodeRequired \/
  e = Thrown (InvalidPincodeError (pincode req)) \/
  geocodeFailure env (trim (Js.ToString rt (pincode req))) e \/
  shopifyFailure e \/
  e = Thrown InventoryItemMissing.

(** The status and the code of the [AppError]s of the module. *)
Definition catalogue : list (Z * string) :=
  [(400%Z, "pincode_required"); (400%Z, "invalid_pincode"); (422%Z, "pin_unavailable");
   (502%Z, "geocode_provider_error"); (502%Z, "shopify_graphql_error");
   (404%Z, "inventory_item_missing")].

End Catalogue.

Module Frontend.
Import Errors JsString Routes DeliveryOptions.

(** A request that passes the guards of the pickup route: a POST whose
    body names a well-formed shop domain for which the session table holds a
    session with an access token. *)
Definition authorised (rt : Runtime) (findFirst : jsval -> Attempt (option Session))
    (request : ApiPickup.Request) (body : ApiPickup.Body) (se : Session) : Prop :=
  ApiPickup.method request = "POST" /\
  ApiPickup.json request = Gives body /\
  Js.truthy (ApiPickup.myShopifyDomain body) = true /\
  JsRegExp.test JsRegExp.shopifyDomainRegex
    (Js.ToString rt (ApiPickup.myShopifyDomain body)) = true /\
  findFirst (ApiPickup.myShopifyDomain body) = Gives (Some se) /\
  accessToken se <> "".

(** The arguments the pickup route passes on to the resolver. *)
Definition argumentsOf (body : ApiPickup.Body) : Pickup.Request :=
  {| Pickup.pincode := ApiPickup.pincode body;
     Pickup.variantId := ApiPickup.variantId body;
     Pickup.radiusKm := ApiPickup.radiusKm body |}.

(** A request that passes the guards of the locations route. *)
Definition listed (findFirst : jsval -> Attempt (option Session))
    (request : ApiLocations.Request) (domain : string) (se : Session) : Prop :=
  ApiLocations.method request <> "OPTIONS" /\
  ApiLocations.shopDomain request = Some domain /\
  JsRegExp.test JsRegExp.shopifyDomainRegex domain = true /\
  findFirst (JStr domain) = Gives (Some se) /\
  accessToken se <> "".

(** All delivery options of a cart, group after group. *)
Definition optionsOf (cart : Cart) : list DeliveryOption :=
  flat_map deliveryOptions (deliveryGroups cart).

(** Whether an option is hidden by a list of operations: one of them names
    its handle. *)
Definition hidden (operations : list Operation) (option : DeliveryOption) : bool :=
  existsb
    (fun op => match op with deliveryOptionHide h => String.eqb h (handle option) end)
    operations.

End Frontend.

(* ===================================================================== *)
(** ** Facts about strings and numbers *)
(* ===================================================================== *)

Module StringFacts.
Import JsString.

Lemma digit_not_space (c : ascii) : isDigit c = true -> isWhiteSpace c = false.
Proof.
  destruct c as [b0 b1 b2 b3 b4 b5 b6 b7].
  destruct b0, b1, b2, b3, b4, b5, b6, b7; vm_compute; congruence.
Qed.

Lemma trimStart_digits (s : string) : allDigits s = true -> trimStart s = s.
Proof.
  destruct s as [|c s]; simpl; [reflexivity|].
  intros H. apply andb_prop in H as [Hc _].
  now rewrite (digit_not_space c Hc).
Qed.

Lemma trimEnd_digits (s : string) : allDigits s = true -> trimEnd s = s.
Proof.
  induction s as [|c s IH]; simpl; [reflexivity|].
  intros H. apply andb_prop in H as [Hc Hs].
  rewrite (IH Hs), (digit_not_space c Hc). now destruct s.
Qed.

(** A string of digits has no white space to trim. *)
Lemma trim_digits (n : nat) (s : string) : digits_exactly n s = true -> trim s = s.
Proof.
  unfold digits_exactly, trim. intros H. apply andb_prop in H as [_ H].
  now rewrite (trimStart_digits s H), (trimEnd_digits s H).
Qed.

Lemma digits_exactly_length (n : nat) (s : string) :
  digits_exactly n s = true -> String.length s = n.
Proof.
  unfold digits_exactly. intros H. apply andb_prop in H as [H _].
  now apply Nat.eqb_eq.
Qed.

(** The class [\d] is the range "0" to "9" of code units. *)
Lemma isDigit_spec (c : ascii) : isDigit c = true <-> (48 <= N_of_ascii c <= 57)%N.
Proof.
  unfold isDigit, code. rewrite andb_true_iff, !N.leb_le. reflexivity.
Qed.

Lemma allDigits_spec (s : string) :
  allDigits s = true <->
  Forall (fun c => (48 <= N_of_ascii c <= 57)%N) (list_ascii_of_string s).
Proof.
  induction s as [|c s IH]; simpl.
  - split; [constructor|reflexivity].
  - rewrite andb_true_iff, isDigit_spec, IH. split.
    + intros [Hc Hs]. now constructor.
    + intros H. inversion H; subst. now split.
Qed.

Lemma digits_exactly_spec (n : nat) (s : string) :
  digits_exactly n s = true <->
  String.length s = n /\
  Forall (fun c => (48 <= N_of_ascii c <= 57)%N) (list_ascii_of_string s).
Proof.
  unfold digits_exactly. now rewrite andb_true_iff, Nat.eqb_eq, allDigits_spec.
Qed.

End StringFacts.

Module NumberFacts.
Import JsNumber.
Local Open Scope Q_scope.

Lemma Qred_zero (q : Q) : q == 0 -> Qred q = 0%Q.
Proof. intros H. now rewrite (Qred_complete q 0 H). Qed.

Lemma threshold_positive : 0 < overflow_threshold.
Proof. reflexivity. Qed.

Lemma Qle_bool_false (x y : Q) : Qle_bool x y = false <-> y < x.
Proof.
  split; intros H.
  - apply Qnot_le_lt. intros Hle. apply Qle_bool_iff in Hle. congruence.
  - destruct (Qle_bool x y) eqn:E; [|reflexivity].
    apply Qle_bool_iff in E. exfalso. exact (Qlt_not_le _ _ H E).
Qed.

(** An exact result is kept when it is within the range, and becomes the
    infinity of its sign when it is beyond. *)
Lemma ofExact_cases (q : Q) :
  (Qabs q < overflow_threshold /\ ofExact q = Fin (Qred q)) \/
  (overflow_threshold <= Qabs q /\ ofExact q = Infinity (qneg q)).
Proof.
  unfold ofExact. destruct (Qle_bool overflow_threshold (Qabs q)) eqn:E.
  - right. split; [now apply Qle_bool_iff|reflexivity].
  - left. split; [now apply Qle_bool_false|reflexivity].
Qed.

Lemma ofExact_within (q : Q) : Qabs q < overflow_threshold -> ofExact q = Fin (Qred q).
Proof.
  intros H. destruct (ofExact_cases q) as [[_ E]|[Hle _]]; [exact E|].
  exfalso. exact (Qlt_not_le _ _ H Hle).
Qed.

Lemma ofExact_zero (q : Q) : q == 0 -> ofExact q = Fin 0.
Proof.
  intros H. rewrite ofExact_within.
  - f_equal. now apply Qred_zero.
  - rewrite H. exact threshold_positive.
Qed.

Lemma sub_same (x y : Q) : Qeq_bool x y = true -> sub (Fin y) (Fin x) = Fin 0.
Proof.
  intros H. apply Qeq_bool_iff in H. unfold sub, neg, add.
  apply ofExact_zero. rewrite Qred_correct, H. ring.
Qed.

(** The sign of an exact result survives. *)
Lemma ofExact_positive (q : Q) : lt (Fin 0) (ofExact q) = negb (Qle_bool q 0).
Proof.
  destruct (ofExact_cases q) as [[_ ->]|[Hle ->]]; simpl.
  - f_equal. destruct (Qle_bool q 0) eqn:E.
    + apply Qle_bool_iff in E. apply Qle_bool_iff. now rewrite Qred_correct.
    + apply Qle_bool_false in E. apply Qle_bool_false. now rewrite Qred_correct.
  - unfold qneg. rewrite negb_involutive.
    pose proof threshold_positive as Hp.
    destruct (Qle_bool 0 q) eqn:E0, (Qle_bool q 0) eqn:E1; try reflexivity.
    + apply Qle_bool_iff in E0, E1. exfalso.
      assert (Hq : q == 0) by now apply Qle_antisym.
      rewrite Hq in Hle. simpl in Hle. exact (Qlt_not_le _ _ Hp Hle).
    + apply Qle_bool_false in E0, E1. exfalso. exact (Qlt_irrefl _ (Qlt_trans _ _ _ E0 E1)).
Qed.

Lemma le_not_nan (a b : num) : le a b = true -> isNaN a = false /\ isNaN b = false.
Proof. destruct a, b; simpl; intros; split; congruence. Qed.

Lemma gt_not_nan (a b : num) : gt a b = true -> isNaN a = false /\ isNaN b = false.
Proof. destruct a, b; simpl; intros; split; congruence. Qed.

(** [<=] and [>] exclude each other, and one of them holds unless an
    operand is [NaN]. *)
Lemma le_gt_exclusive (a b : num) : le a b = true -> gt a b = false.
Proof.
  destruct a as [|s|x], b as [|t|y]; simpl; try congruence.
  - destruct s, t; simpl; congruence.
  - destruct s; simpl; congruence.
  - destruct t; simpl; congruence.
  - intros H. now rewrite H.
Qed.

Lemma le_or_gt (a b : num) :
  isNaN a = false -> isNaN b = false -> le a b = negb (gt a b).
Proof.
  destruct a as [|s|x], b as [|t|y]; simpl; try congruence; intros _ _;
    repeat match goal with s : bool |- _ => destruct s end;
    try reflexivity.
  now rewrite negb_involutive.
Qed.

Lemma le_trans (a b c : num) : le a b = true -> le b c = true -> le a c = true.
Proof.
  destruct a as [|s|x], b as [|t|y], c as [|u|z]; simpl; try congruence;
    repeat match goal with s : bool |- _ => destruct s end; simpl; try congruence.
  intros H1 H2. apply Qle_bool_iff in H1, H2. apply Qle_bool_iff.
  now apply Qle_trans with y.
Qed.

(** The sign of a difference: [a - b > 0] exactly when [a > b]. *)
Lemma sub_positive (a b : num) : gt (sub a b) (Fin 0) = gt a b.
Proof.
  destruct a as [|s|x], b as [|t|y]; try reflexivity;
    try (repeat match goal with s : bool |- _ => destruct s end; reflexivity).
  change (lt (Fin 0) (ofExact (x + Qred (- y))) = negb (Qle_bool x y)).
  rewrite ofExact_positive. f_equal.
  destruct (Qle_bool x y) eqn:E.
  - apply Qle_bool_iff in E. apply Qle_bool_iff.
    rewrite !Qred_correct. lra.
  - apply Qle_bool_false in E. apply Qle_bool_false.
    rewrite !Qred_correct. lra.
Qed.

Lemma mul_zero_r (x : Q) : mul (Fin x) (Fin 0) = Fin 0.
Proof. unfold mul. apply ofExact_zero. ring. Qed.

End NumberFacts.

Module DistanceFacts.
Import JsNumber NumberFacts Geo.
Local Open Scope Q_scope.

(** The conversion to radians of a finite number of degrees overflows
    exactly when the product with [Math.PI] does. *)
Lemma toRad_cases (x : Q) :
  (Qabs x * PI_exact < overflow_threshold /\ exists y, toRad (Fin x) = Fin y) \/
  (overflow_threshold <= Qabs x * PI_exact /\ exists s, toRad (Fin x) = Infinity s).
Proof.
  assert (Habs : Qabs (x * PI_exact) == Qabs x * PI_exact).
  { rewrite Qabs_Qmult. now replace (Qabs PI_exact) with PI_exact by reflexivity. }
  unfold toRad, Math_PI. cbn [mul].
  destruct (ofExact_cases (x * PI_exact)) as [[Hlt ->]|[Hle ->]].
  - left. rewrite Habs in Hlt. split; [exact Hlt|].
    unfold div, of_Z. replace (qzero (inject_Z 180)) with false by reflexivity.
    rewrite ofExact_within; [now eexists|].
    eapply Qle_lt_trans; [|exact Hlt]. rewrite <- Habs.
    unfold Qdiv. rewrite Qabs_Qmult, Qred_correct.
    replace (Qabs (/ inject_Z 180)) with (1 # 180) by reflexivity.
    pose proof (Qabs_nonneg (x * PI_exact)) as Hn.
    set (t := Qabs (x * PI_exact)) in *. lra.
  - right. rewrite Habs in Hle. split; [exact Hle|]. unfold div, of_Z. now eexists.
Qed.

(** Equal numbers of degrees are the same number of radians. *)
Lemma toRad_eq (x y : Q) : Qeq_bool x y = true -> toRad (Fin x) = toRad (Fin y).
Proof.
  intros H. apply Qeq_bool_iff in H. unfold toRad, Math_PI. cbn [mul]. f_equal.
  assert (Hq : x * PI_exact == y * PI_exact) by now rewrite H.
  unfold ofExact. rewrite (Qred_complete _ _ Hq).
  assert (Hs : qneg (x * PI_exact) = qneg (y * PI_exact)).
  { unfold qneg. f_equal. destruct (Qle_bool 0 (y * PI_exact)) eqn:E.
    - apply Qle_bool_iff. rewrite Hq. now apply Qle_bool_iff.
    - apply Qle_bool_false. rewrite Hq. now apply Qle_bool_false. }
  rewrite Hs. destruct (Qle_bool overflow_threshold (Qabs (y * PI_exact))) eqn:E.
  - replace (Qle_bool overflow_threshold (Qabs (x * PI_exact))) with true; [reflexivity|].
    symmetry. apply Qle_bool_iff. rewrite Hq. now apply Qle_bool_iff.
  - replace (Qle_bool overflow_threshold (Qabs (x * PI_exact))) with false; [reflexivity|].
    symmetry. apply Qle_bool_false. rewrite Hq. now apply Qle_bool_false.
Qed.

(** The square of a number of magnitude at most one does not overflow. *)
Lemma square_within (c : Q) : Qabs c <= 1 -> exists d, mul (Fin c) (Fin c) = Fin d.
Proof.
  intros H. unfold mul. rewrite ofExact_within; [now eexists|].
  eapply Qle_lt_trans; [|exact (eq_refl : 1 < overflow_threshold)].
  rewrite Qabs_Qmult. pose proof (Qabs_nonneg c) as Hn.
  set (t := Qabs c) in *. nra.
Qed.

(** The distance between two points with the same finite coordinates:
    zero, unless the latitude is so large that its conversion to radians
    overflows. *)
Lemma haversineKm_identical (rt : Runtime) (x1 x2 y1 y2 : Q) :
  Qeq_bool x1 y1 = true -> Qeq_bool x2 y2 = true ->
  (Vocabulary.cosineInRange rt (toRad (Fin x1)) = true ->
   haversineKm rt {| lat := Fin x1; lng := Fin x2 |} {| lat := Fin y1; lng := Fin y2 |}
   = Fin 0) /\
  (isFinite (toRad (Fin x1)) = false ->
   haversineKm rt {| lat := Fin x1; lng := Fin x2 |} {| lat := Fin y1; lng := Fin y2 |}
   = NaN).
Proof.
  intros H1 H2. unfold haversineKm; simpl lat; simpl lng.
  rewrite (sub_same _ _ H1), (sub_same _ _ H2), <- (toRad_eq x1 y1 H1).
  replace (div (toRad (Fin 0)) (of_Z 2)) with (Fin 0) by reflexivity.
  replace (square (Math_sin rt (Fin 0))) with (Fin 0) by reflexivity.
  split.
  - unfold Vocabulary.cosineInRange.
    destruct (Math_cos rt (toRad (Fin x1))) as [| |c]; try discriminate.
    intros Hc. apply Qle_bool_iff in Hc.
    destruct (square_within c Hc) as [d ->]. rewrite mul_zero_r. reflexivity.
  - destruct (toRad (Fin x1)) as [| |r]; try discriminate; reflexivity.
Qed.

(* ---------- distances of points that are not finite ---------- *)

Section NotFinite.
Variable rt : Runtime.

Lemma sub_not_finite (a b : num) :
  isFinite a && isFinite b = false -> isFinite (sub a b) = false.
Proof.
  destruct a as [|sa|qa], b as [|sb|qb]; simpl; try reflexivity; try discriminate.
  unfold sub, add, neg. now destruct (Bool.eqb sa (negb sb)).
Qed.

Lemma toRad_not_finite (x : num) : isFinite x = false -> isFinite (toRad x) = false.
Proof. destruct x as [|s|q]; simpl; try reflexivity; discriminate. Qed.

Lemma half_not_finite (x : num) : isFinite x = false -> isFinite (div x (of_Z 2)) = false.
Proof. destruct x as [|s|q]; simpl; try reflexivity; discriminate. Qed.

Lemma Math_sin_not_finite (x : num) : isFinite x = false -> Math_sin rt x = NaN.
Proof. destruct x as [|s|q]; simpl; try reflexivity; discriminate. Qed.

Lemma add_NaN_r (a : num) : add a NaN = NaN.
Proof. now destruct a. Qed.

Lemma mul_NaN_r (a : num) : mul a NaN = NaN.
Proof. now destruct a. Qed.

Lemma haversineKm_not_finite (a b : LatLng) :
  Behaviour.finitePoint a && Behaviour.finitePoint b = false -> haversineKm rt a b = NaN.
Proof.
  intros H. unfold haversineKm.
  assert (Hh : forall u v, u = NaN \/ v = NaN ->
                 forall c, mul (mul (of_Z 2) (of_Z 6371))
                             (Math_asin rt (Math_sqrt rt (add (square u) (mul c (square v)))))
                           = NaN).
  { intros u v [-> | ->] c.
    - reflexivity.
    - unfold square at 2. cbn [mul]. now rewrite mul_NaN_r, add_NaN_r. }
  apply Hh.
  destruct (isFinite (lat a) && isFinite (lat b)) eqn:Hlat.
  - right. apply Math_sin_not_finite, half_not_finite, toRad_not_finite, sub_not_finite.
    apply andb_true_iff in Hlat as [Ha Hb]. unfold Behaviour.finitePoint in H.
    rewrite Ha, Hb in H. simpl in H.
    destruct (isFinite (lng a)), (isFinite (lng b)); simpl in *; congruence.
  - left. apply Math_sin_not_finite, half_not_finite, toRad_not_finite, sub_not_finite.
    now rewrite andb_comm.
Qed.
End NotFinite.

End DistanceFacts.

(* ===================================================================== *)
(** ** Facts about the sort and the monad *)
(* ===================================================================== *)

Module SortFacts.
Import JsNumber NumberFacts Pickup Vocabulary.

Section Insertion.
Context {A : Type} (cmp : A -> A -> num).

Lemma insert_perm (x : A) (l : list A) : Permutation (insert cmp x l) (x :: l).
Proof.
  induction l as [|y l IH]; cbn [insert]; [reflexivity|].
  destruct (gt (cmp x y) (Fin 0)); [|reflexivity].
  rewrite IH. apply perm_swap.
Qed.

Lemma sort_perm (l : list A) : Permutation (sort cmp l) l.
Proof.
  induction l as [|x l IH]; cbn [sort]; [reflexivity|].
  rewrite insert_perm. now constructor.
Qed.

Lemma sort_In (x : A) (l : list A) : In x (sort cmp l) <-> In x l.
Proof.
  split; apply Permutation_in; [|symmetry]; apply sort_perm.
Qed.

End Insertion.

Section ByKey.
Context {A : Type} (key : A -> num) (cmp : A -> A -> num).
Hypothesis cmp_key : forall x y, cmp x y = sub (key x) (key y).

Lemma ascending_trans (x y z : A) :
  ascending key x y -> ascending key y z -> ascending key x z.
Proof. unfold ascending. apply le_trans. Qed.

Lemma insert_hd (y x : A) (l : list A) :
  ascending key y x -> HdRel (ascending key) y l ->
  HdRel (ascending key) y (insert cmp x l).
Proof.
  intros Hyx Hl. destruct l as [|z l]; cbn [insert]; [now constructor|].
  destruct (gt (cmp x z) (Fin 0)); constructor; [|assumption].
  now inversion Hl.
Qed.

Lemma insert_sorted (x : A) (l : list A) :
  isNaN (key x) = false ->
  Forall (fun y => isNaN (key y) = false) l ->
  Sorted (ascending key) l -> Sorted (ascending key) (insert cmp x l).
Proof.
  intros Hx Hl Hs. induction l as [|y l IH]; cbn [insert].
  - repeat constructor.
  - inversion Hl as [|? ? Hy Hl']; subst. inversion Hs as [|? ? Hs' Hhd]; subst.
    rewrite cmp_key, sub_positive.
    destruct (gt (key x) (key y)) eqn:E.
    + constructor; [now apply IH|].
      apply insert_hd; [|assumption].
      unfold ascending. rewrite (le_or_gt _ _ Hy Hx).
      unfold gt in *. destruct (key x), (key y); simpl in *; try congruence;
        repeat match goal with s : bool |- _ => destruct s end;
        simpl in *; try congruence.
      apply negb_true_iff in E. apply Qle_bool_false in E.
      apply negb_true_iff. apply negb_false_iff. apply Qle_bool_iff.
      now apply Qlt_le_weak.
    + constructor; [assumption|]. constructor.
      unfold ascending. now rewrite (le_or_gt _ _ Hx Hy), E.
Qed.

Lemma sort_sorted (l : list A) :
  Forall (fun y => isNaN (key y) = false) l -> Sorted (ascending key) (sort cmp l).
Proof.
  induction l as [|x l IH]; cbn [sort]; intros H; [constructor|].
  inversion H as [|? ? Hx Hl]; subst.
  apply insert_sorted; [assumption| |now apply IH].
  apply List.Forall_forall. intros y Hy. apply (proj1 (sort_In cmp y l)) in Hy.
  exact (proj1 (List.Forall_forall _ l) Hl y Hy).
Qed.

End ByKey.
End SortFacts.

Module MonadFacts.
Import M.

Lemma bind_returned {A B} (m : M.t A) (k : A -> M.t B) (s s' : State) (b : B) :
  bind m k s = (Returned b, s') ->
  exists a s1, m s = (Returned a, s1) /\ k a s1 = (Returned b, s').
Proof.
  unfold bind. destruct (m s) as [[a|e|] s1]; intros H; try discriminate.
  now exists a, s1.
Qed.

Lemma bind_threw {A B} (m : M.t A) (k : A -> M.t B) (s s' : State) (e : Errors.exn) :
  bind m k s = (Threw e, s') ->
  m s = (Threw e, s') \/
  exists a s1, m s = (Returned a, s1) /\ k a s1 = (Threw e, s').
Proof.
  unfold bind. destruct (m s) as [[a|e'|] s1]; intros H; try discriminate.
  - right. now exists a, s1.
  - left. congruence.
Qed.

(** Each result of [mapM] is what the function returned for the element
    at the same position, in some state the run went through. *)
Lemma mapM_returned {A B} (f : A -> M.t B) (l : list A) (s s' : State) (bs : list B) :
  mapM f l s = (Returned bs, s') ->
  Forall2 (fun a b => exists sa sb, f a sa = (Returned b, sb)) l bs.
Proof.
  revert s bs. induction l as [|a l IH]; intros s bs H.
  - inversion H. constructor.
  - cbn [mapM] in H.
    apply bind_returned in H as (b & s1 & Hb & H).
    apply bind_returned in H as (bs' & s2 & Hbs & H).
    inversion H; subst. constructor; eauto.
Qed.

(** A [mapM] whose function ends by building a value from its element and
    an intermediate result. *)
Lemma mapM_built {A B C} (f : A -> M.t B) (h : A -> B -> C) (l : list A)
    (s s' : State) (cs : list C) :
  mapM (fun a => bind (f a) (fun b => ret (h a b))) l s = (Returned cs, s') <->
  exists bs, mapM f l s = (Returned bs, s') /\ cs = zip_with h l bs.
Proof.
  revert s cs. induction l as [|a l IH]; intros s cs; cbn [mapM].
  - unfold ret. split.
    + intros [= <- <-]. now exists [].
    + intros (bs & [= <- <-] & ->). reflexivity.
  - split.
    + intros H. apply bind_returned in H as (c & s1 & Hc & H).
      apply bind_returned in Hc as (b & s0 & Hb & Hc). injection Hc as <- <-.
      apply bind_returned in H as (cs' & s2 & Hcs & H). injection H as <- <-.
      apply IH in Hcs as (bs & Hbs & ->). exists (b :: bs). split; [|reflexivity].
      unfold bind. rewrite Hb, Hbs. reflexivity.
    + intros (bs & H & ->).
      apply bind_returned in H as (b & s1 & Hb & H).
      apply bind_returned in H as (bs' & s2 & Hbs & H). injection H as <- <-.
      unfold bind at 1. unfold bind at 1. rewrite Hb. unfold ret at 1.
      unfold bind at 1. rewrite (proj2 (IH s1 _) (ex_intro _ bs' (conj Hbs eq_refl))).
      reflexivity.
Qed.

Lemma mapM_length {A B} (f : A -> M.t B) (l : list A) (s s' : State) (bs : list B) :
  mapM f l s = (Returned bs, s') -> length bs = length l.
Proof. intros H. apply mapM_returned in H. symmetry. exact (Forall2_length _ _ _ H). Qed.

End MonadFacts.

(* ===================================================================== *)
(** ** Facts about the geocoding chain *)
(* ===================================================================== *)

Module GeocodeFacts.
Import Errors Effects JsString Geocoding M Vocabulary.

Lemma record_logged (c : Call) (s : State) : record c s = logged [c] s.
Proof. reflexivity. Qed.

Lemma logged_logged (c1 c2 : list Call) (s : State) :
  logged c2 (logged c1 s) = logged (c1 ++ c2) s.
Proof. unfold logged; simpl. now rewrite app_assoc. Qed.

Lemma logged_nil (s : State) : logged [] s = s.
Proof. destruct s; unfold logged; simpl. now rewrite app_nil_r. Qed.

Ltac norm_log := repeat rewrite record_logged; repeat rewrite logged_logged.

Section Steps.
Variable env : Env.
Variable w : World.

(** What step 1 can do: nothing at all (mode "osm"), or one request to
    Google followed by a fall-through, a cached result, or a throw (the
    latter in mode "google" only). *)
Lemma googleStep_effect (key original : string) (is6 is4 : bool) (s : State) :
  let p := googleParams env original is6 is4 in
  match googleStep env w key original is6 is4 s with
  | (Returned None, s') =>
      (mode env = "osm" /\ s' = s) \/ (mode env <> "google" /\ s' = record (ToGoogle p) s)
  | (Returned (Some g), s') => s' = set_geocodeCache key g (record (ToGoogle p) s)
  | (Threw e, s') => mode env = "google" /\ s' = record (ToGoogle p) s
  | (Running, _) => False
  end.
Proof.
  intros p. unfold googleStep.
  destruct (String.eqb (mode env) "osm") eqn:Hosm; simpl.
  { left. split; [now apply String.eqb_eq|reflexivity]. }
  unfold try_catch, googleAttempt, bind, await, cacheOk, modify, ret, throw.
  fold p. destruct (google w p) as [r|data]; simpl.
  - destruct (String.eqb (mode env) "google") eqn:Hg; simpl.
    + split; [now apply String.eqb_eq|reflexivity].
    + right. split; [now apply String.eqb_neq|reflexivity].
  - destruct (firstResult data) as [hit|]; simpl.
    + destruct (Google.geometry_location hit) as [[la ln]|]; simpl; [reflexivity|].
      destruct (String.eqb (mode env) "google") eqn:Hg; simpl.
      * split; [now apply String.eqb_eq|reflexivity].
      * right. split; [now apply String.eqb_neq|reflexivity].
    + destruct (String.eqb (mode env) "google") eqn:Hg; simpl.
      * split; [now apply String.eqb_eq|reflexivity].
      * right. split; [now apply String.eqb_neq|reflexivity].
Qed.

(** What one OpenStreetMap attempt does: one request, then a cached
    result or a fall-through; it never throws. *)
Lemma osmAttempt_effect (key : string) (p : Osm.Params) (s : State) :
  match try_catch
          (bind (await (ToNominatim p) (nominatim w p)) (osmResult key))
          (fun _ => ret None) s with
  | (Returned None, s') => s' = record (ToNominatim p) s
  | (Returned (Some g), s') => s' = set_geocodeCache key g (record (ToNominatim p) s)
  | _ => False
  end.
Proof.
  unfold try_catch, bind, await, osmResult, cacheOk, modify, ret.
  destruct (nominatim w p) as [r|[[|it items]|]]; simpl; reflexivity.
Qed.

Lemma osmAttempt_noRecord (key : string) (p : Osm.Params) (s : State) :
  noRecord (nominatim w p) = true ->
  try_catch (bind (await (ToNominatim p) (nominatim w p)) (osmResult key))
    (fun _ => ret None) s = (Returned None, record (ToNominatim p) s).
Proof.
  unfold try_catch, bind, await, osmResult, ret.
  destruct (nominatim w p) as [r|[[|it items]|]]; simpl; intros H; congruence.
Qed.

End Steps.

(** What a call of [geocode] does to the state.  A result comes from the
    cache, with no effect at all, or from a live lookup, and is then stored
    under the key of the query; a throw leaves the three caches as they
    were; in both live cases at least one request was made. *)
Lemma geocodeFrom_effect (env : Env) (w : World) (called : State) (address : string)
    (s : State) :
  let key := keyOf address in
  match geocodeFrom env w called address s with
  | (Returned g, s') =>
      (geocodeCache called !! key = Some g /\ s' = s) \/
      (geocodeCache called !! key = None /\
       exists calls, calls <> [] /\ s' = set_geocodeCache key g (logged calls s))
  | (Threw e, s') =>
      geocodeCache called !! key = None /\ exists calls, calls <> [] /\ s' = logged calls s
  | (Running, _) => False
  end.
Proof.
  intros key. unfold geocodeFrom. fold (keyOf address). fold key.
  destruct (geocodeCache called !! key) as [cached|] eqn:Hc.
  { left. now split. }
  set (original := trim address).
  set (is6 := digits_exactly 6 original). set (is4 := digits_exactly 4 original).
  pose proof (googleStep_effect env w key original is6 is4 s) as H1.
  unfold bind at 1.
  destruct (googleStep env w key original is6 is4 s) as [[[g|]|e|] s1]; simpl in H1.
  - right. split; [reflexivity|]. subst s1. norm_log.
    eexists; split; [|reflexivity]. discriminate.
  - assert (Hs1 : exists c1, s1 = logged c1 s).
    { destruct H1 as [[_ ->]|[_ ->]]; [exists []; now rewrite logged_nil | now eexists]. }
    destruct Hs1 as [c1 ->]. clear H1.
    unfold bind at 1.
    assert (H2 : match osmStructuredStep w key original is6 (is6 || is4) (logged c1 s) with
                 | (Returned None, s') => exists c2, s' = logged c2 s
                 | (Returned (Some g), s') =>
                     exists c2, c2 <> [] /\ s' = set_geocodeCache key g (logged c2 s)
                 | _ => False
                 end).
    { unfold osmStructuredStep. destruct (is6 || is4).
      - pose proof (osmAttempt_effect w key (osmStructuredParams original is6)
                      (logged c1 s)) as H.
        match goal with
        | |- match ?x with _ => _ end =>
            change x with
              (try_catch
                 (bind (await (ToNominatim (osmStructuredParams original is6))
                          (nominatim w (osmStructuredParams original is6)))
                    (osmResult key))
                 (fun _ => ret None) (logged c1 s))
        end.
        destruct (try_catch _ _ _) as [[[g|]|e|] s2]; try contradiction;
          subst s2; norm_log.
        + eexists; split; [|reflexivity]. now destruct c1.
        + now eexists.
      - simpl. now eexists. }
    destruct (osmStructuredStep w key original is6 (is6 || is4) (logged c1 s))
      as [[[g|]|e|] s2]; try contradiction.
    + right. split; [reflexivity|]. destruct H2 as (c2 & ? & ->). eauto.
    + destruct H2 as (c2 & ->). unfold bind at 1.
      pose proof (osmAttempt_effect w key (osmFreeformParams original is6 is4)
                    (logged c2 s)) as H3.
      unfold osmFreeformStep.
      match goal with
      | |- match (match ?x with _ => _ end) with _ => _ end =>
          change x with
            (try_catch
               (bind (await (ToNominatim (osmFreeformParams original is6 is4))
                        (nominatim w (osmFreeformParams original is6 is4)))
                  (osmResult key))
               (fun _ => ret None) (logged c2 s))
      end.
      destruct (try_catch _ _ _) as [[[g|]|e|] s3]; try contradiction;
        subst s3; norm_log; simpl.
      * right. split; [reflexivity|]. eexists; split; [|reflexivity]. now destruct c2.
      * split; [reflexivity|]. eexists; split; [|reflexivity]. now destruct c2.
  - destruct H1 as [_ ->]. split; [reflexivity|]. norm_log.
    eexists; split; [|reflexivity]. discriminate.
  - contradiction.
Qed.

Lemma geocode_effect (env : Env) (w : World) (address : string) (s : State) :
  let key := keyOf address in
  match geocode env w address s with
  | (Returned g, s') =>
      (geocodeCache s !! key = Some g /\ s' = s) \/
      (geocodeCache s !! key = None /\
       exists calls, calls <> [] /\ s' = set_geocodeCache key g (logged calls s))
  | (Threw e, s') =>
      geocodeCache s !! key = None /\ exists calls, calls <> [] /\ s' = logged calls s
  | (Running, _) => False
  end.
Proof. exact (geocodeFrom_effect env w s address s). Qed.

(** A query that was absent from the cache at the call is looked up as by
    a call made now from a state that does not hold it: what the cache has
    come to hold in between is not read. *)
Lemma geocodeFrom_miss (env : Env) (w : World) (called called' : State)
    (address : string) (s : State) :
  geocodeCache called !! keyOf address = None ->
  geocodeCache called' !! keyOf address = None ->
  geocodeFrom env w called address s = geocodeFrom env w called' address s.
Proof. unfold geocodeFrom. fold (keyOf address). now intros -> ->. Qed.

Lemma geocodeFrom_hit (env : Env) (w : World) (called : State) (address : string)
    (s : State) (g : GeoPoint) :
  geocodeCache called !! keyOf address = Some g ->
  geocodeFrom env w called address s = (Returned g, s).
Proof. unfold geocodeFrom. fold (keyOf address). now intros ->. Qed.

Lemma geocode_threw_caches (env : Env) (w : World) (address : string)
    (s s' : State) (e : exn) :
  geocode env w address s = (Threw e, s') ->
  geocodeCache s !! keyOf address = None /\
  geocodeCache s' = geocodeCache s /\
  locationGeoCache s' = locationGeoCache s /\
  shopifyLocationsCache s' = shopifyLocationsCache s.
Proof.
  intros H. pose proof (geocode_effect env w address s) as E. rewrite H in E.
  destruct E as (Hmiss & calls & _ & ->). now repeat split.
Qed.

Lemma geocode_miss_live (env : Env) (w : World) (address : string) (s : State) :
  geocodeCache s !! keyOf address = None ->
  exists calls, calls <> [] /\
    log (snd (geocode env w address s)) = (log s ++ calls)%list.
Proof.
  intros Hmiss. pose proof (geocode_effect env w address s) as E.
  destruct (geocode env w address s) as [[g|e|] s']; simpl in *.
  - destruct E as [[E _]|(_ & calls & ? & ->)]; [congruence|]. now exists calls.
  - destruct E as (_ & calls & ? & ->). now exists calls.
  - contradiction.
Qed.

End GeocodeFacts.

(* ===================================================================== *)
(** ** Facts about the Shopify helpers and the resolver *)
(* ===================================================================== *)

Module LocationFacts.
Import Errors Effects JsString Geocoding M MonadFacts GeocodeFacts ShopifyApi Pickup Vocabulary.

Lemma geocodeShopifyLocationFrom_cached (env : Env) (w : World) (loc : Shopify.Location)
    (called s : State) (g : GeoPoint) :
  locationGeoCache called !! locKey loc = Some g ->
  geocodeShopifyLocationFrom env w called loc s = (Returned g, s).
Proof.
  intros H. unfold geocodeShopifyLocationFrom. fold (locKey loc). now rewrite H.
Qed.

Lemma geocodeShopifyLocation_cached (env : Env) (w : World) (loc : Shopify.Location)
    (s : State) (g : GeoPoint) :
  locationGeoCache s !! locKey loc = Some g ->
  geocodeShopifyLocation env w loc s = (Returned g, s).
Proof. apply geocodeShopifyLocationFrom_cached. Qed.

(** Called and resumed in one state, [geocodeShopifyLocation] is the body
    of the source function run from that state. *)
Lemma geocodeShopifyLocation_miss_eq (env : Env) (w : World) (loc : Shopify.Location)
    (s : State) :
  locationGeoCache s !! locKey loc = None ->
  geocodeShopifyLocation env w loc s =
    try_catch
      (bind (geocode env w (fullAddr loc)) (setLoc (locKey loc)))
      (fun _ =>
         bind
           match zipOf loc with
           | Some zip =>
               try_catch
                 (bind (geocode env w zip)
                    (fun g2 => bind (setLoc (locKey loc) g2)
                                 (fun g2 => ret (Some g2))))
                 (fun _ => ret None)
           | None => ret None
           end
           (fun r => match r with
                     | Some g2 => ret g2
                     | None => setLoc (locKey loc) fail
                     end)) s.
Proof.
  intros H. unfold geocodeShopifyLocation, geocodeShopifyLocationFrom.
  fold (locKey loc). unfold bind at 1, get. rewrite H. reflexivity.
Qed.

Lemma geocodeShopifyLocation_failed (env : Env) (w : World) (loc : Shopify.Location)
    (s s1 s2 : State) (e1 : exn) :
  locationGeoCache s !! locKey loc = None ->
  geocode env w (fullAddr loc) s = (Threw e1, s1) ->
  match zipOf loc with
  | Some zip => exists e2, geocode env w zip s1 = (Threw e2, s2)
  | None => s2 = s1
  end ->
  geocodeShopifyLocation env w loc s =
    (Returned fail, set_locationGeoCache (locKey loc) fail s2).
Proof.
  intros Hmiss H1 H2. rewrite (geocodeShopifyLocation_miss_eq env w loc s Hmiss).
  unfold try_catch at 1. unfold bind at 1. rewrite H1.
  unfold bind at 1. destruct (zipOf loc) as [zip|].
  - destruct H2 as [e2 H2]. unfold try_catch, bind at 1. rewrite H2.
    reflexivity.
  - subst s2. reflexivity.
Qed.

Lemma pushActive_filter (locations : list Shopify.Location) (edges : list Shopify.Edge) :
  pushActive locations edges
  = (locations ++ List.filter Shopify.isActive (map Shopify.node edges))%list.
Proof.
  unfold pushActive. revert locations.
  induction edges as [|e edges IH]; intros locations; simpl.
  - now rewrite app_nil_r.
  - rewrite IH. destruct (Shopify.isActive (Shopify.node e)); [|reflexivity].
    now rewrite <- app_assoc.
Qed.


End LocationFacts.

Module PickupFacts.
Import Errors Effects JsString JsNumber M MonadFacts Pickup Vocabulary.

Section Resolver.
Variable rt : Runtime.
Variable env : Env.
Variable w : World.


Lemma enrich_some (pin : GeoPoint) (qty : gmap string Z) (loc : Shopify.Location)
    (g : GeoPoint) (x : EnrichedLocation) :
  enrich rt pin qty loc g = Some x ->
  atOrigin (lat g) (lng g) = false /\
  locationId x = Shopify.id loc /\
  coordinates x = {| Geo.lat := lat g; Geo.lng := lng g |} /\
  distanceKm x =
    toFixed2 (Geo.haversineKm rt {| Geo.lat := lat pin; Geo.lng := lng pin |}
                (coordinates x)) /\
  available x = qty !! Shopify.id loc /\
  status x = statusOf (available x).
Proof.
  unfold enrich, atOrigin.
  destruct (JsNumber.eq (lat g) (Fin 0) && JsNumber.eq (lng g) (Fin 0)); [discriminate|].
  intros H. injection H as <-. simpl. now repeat split.
Qed.

Lemma visit_returned (called : State) (pin : GeoPoint) (qty : gmap string Z)
    (loc : Shopify.Location) (sa sb : State) (v : option EnrichedLocation) :
  visit rt env w called pin qty loc sa = (Returned v, sb) ->
  exists g, geocodeShopifyLocationFrom env w called loc sa = (Returned g, sb) /\
            v = enrich rt pin qty loc g.
Proof.
  unfold visit. intros H. apply bind_returned in H as (g & s1 & Hg & H).
  inversion H; subst. now exists g.
Qed.

(** What the callback returns is the entry for the coordinates, unless
    they are (0, 0). *)
Lemma enrich_entryOf (pin : GeoPoint) (qty : gmap string Z) (loc : Shopify.Location)
    (g : GeoPoint) :
  enrich rt pin qty loc g
  = if atOrigin (lat g) (lng g) then None else Some (entryOf rt pin qty loc g).
Proof. reflexivity. Qed.

(** The values of the callbacks, from the coordinates they obtained. *)
Lemma visitAll_returned (pin : GeoPoint) (qty : gmap string Z)
    (locations : list Shopify.Location) (s s' : State)
    (visited : list (option EnrichedLocation)) :
  visitAll rt env w pin qty locations s = (Returned visited, s') <->
  exists gs,
    mapM (geocodeShopifyLocationFrom env w s) locations s = (Returned gs, s') /\
    visited = zip_with (enrich rt pin qty) locations gs.
Proof. unfold visitAll, bind at 1, get, visit. apply mapM_built. Qed.

Lemma omap_enrich (pin : GeoPoint) (qty : gmap string Z)
    (locations : list Shopify.Location) (gs : list GeoPoint) :
  omap id (zip_with (enrich rt pin qty) locations gs)
  = map (fun p => entryOf rt pin qty (fst p) (snd p)) (awayFromOrigin locations gs).
Proof.
  unfold awayFromOrigin. revert gs.
  induction locations as [|loc l IH]; intros [|g gs]; try reflexivity.
  cbn [zip_with zip List.filter omap list_omap]. rewrite enrich_entryOf. cbn [snd].
  destruct (atOrigin (lat g) (lng g)); cbn [negb id map fst snd].
  - apply IH.
  - f_equal. apply IH.
Qed.

Lemma validate_returned (pincode : jsval) (s s' : State) :
  validate rt pincode s = (Returned tt, s') ->
  Js.truthy pincode = true /\ pincodeOk rt pincode = true /\ s' = s.
Proof.
  unfold validate. destruct (Js.truthy pincode); simpl; [|discriminate].
  destruct (pincodeOk rt pincode); simpl; [|discriminate].
  unfold ret. intros H. now inversion H.
Qed.

Lemma visited_survivors (pin : GeoPoint)
    (qty : gmap string Z) (locations : list Shopify.Location) (s s' : State)
    (visited : list (option EnrichedLocation)) :
  visitAll rt env w pin qty locations s = (Returned visited, s') ->
  survivors rt env w pin qty locations visited.
Proof.
  unfold visitAll, bind at 1, get. intros H. apply mapM_returned in H. unfold survivors.
  induction H as [|loc v l vs (sa & sb & Hv) _ IH]; constructor; [|assumption].
  apply visit_returned in Hv as (g & Hg & ->). now exists g, s, sa, sb.
Qed.

(** The stages a run of [buildPickupResponse] that returns went through. *)
Lemma buildPickupResponse_stages (fuel : nat) (req : Request) (gql : Shopify.Client)
    (shop : string) (s s' : State) (r : PickupResult) :
  buildPickupResponse rt env w fuel req gql shop s = (Returned r, s') ->
  exists pin gid qty locations visited,
    pincodeOk rt (pincode req) = true /\
    resolved rt env w fuel req gql shop s pin qty locations visited /\
    survivors rt env w pin qty locations visited /\
    r = result req (effectiveRadius env (radiusKm req)) pin gid (omap id visited).
Proof.
  unfold buildPickupResponse. intros H.
  apply bind_returned in H as ([] & s0 & Hv & H).
  apply validate_returned in Hv as (_ & Hok & ->).
  apply bind_returned in H as (pin & s1 & Hpin & H).
  apply bind_returned in H as (locations & s2 & Hloc & H).
  apply bind_returned in H as ([gid qty] & s3 & Hinv & H).
  apply bind_returned in H as (visited & s4 & Hvis & H).
  inversion H; subst. exists pin, gid, qty, locations, visited.
  split; [assumption|]. split; [now exists s1, s2, gid, s3, s'|].
  split; [now apply visited_survivors in Hvis|reflexivity].
Qed.

(** The same, with the coordinates the callbacks obtained. *)
Lemma buildPickupResponse_placed (fuel : nat) (req : Request) (gql : Shopify.Client)
    (shop : string) (s s' : State) (r : PickupResult) :
  buildPickupResponse rt env w fuel req gql shop s = (Returned r, s') ->
  exists pin gid qty locations gs,
    placed rt env w fuel req gql shop s pin qty locations gs /\
    length gs = length locations /\
    r = result req (effectiveRadius env (radiusKm req)) pin gid
          (map (fun p => entryOf rt pin qty (fst p) (snd p))
             (awayFromOrigin locations gs)).
Proof.
  intros H. apply buildPickupResponse_stages in H
    as (pin & gid & qty & locations & visited & _ & Hres & _ & ->).
  destruct Hres as (s1 & s2 & gid' & s3 & s4 & Hpin & Hloc & Hinv & Hvis).
  apply visitAll_returned in Hvis as (gs & Hgs & ->).
  exists pin, gid, qty, locations, gs.
  split; [now exists s1, s2, gid', s3, s4|].
  split; [exact (mapM_length _ _ _ _ _ Hgs)|]. now rewrite omap_enrich.
Qed.

Lemma inventory_without_variant (gql : Shopify.Client) (variantId : jsval)
    (s s' : State) (inv : option string * gmap string Z) :
  Js.truthy variantId = false ->
  inventory rt gql variantId s = (Returned inv, s') -> inv = (None, ∅).
Proof. unfold inventory. intros ->. unfold ret. now inversion 1. Qed.

Lemma numberOr_finite (a : jsval) (fb : num) :
  isFinite fb = true -> isFinite (Geo.numberOr a fb) = true.
Proof. unfold Geo.numberOr. now destruct (isFinite (Js.Number a)) eqn:E. Qed.

Lemma effectiveRadius_finite (radiusKm : jsval) :
  isFinite (effectiveRadius env radiusKm) = true.
Proof. unfold effectiveRadius. now repeat apply numberOr_finite. Qed.

(** The entries of the two lists are entries that survived. *)
Lemma In_omap_id {A} (x : A) (l : list (option A)) : In x (omap id l) <-> In (Some x) l.
Proof.
  induction l as [|[a|] l IH]; simpl; [tauto| |].
  - rewrite IH. split; intros [H|H]; auto; left; congruence.
  - rewrite IH. split; [auto|]. intros [H|H]; [discriminate|assumption].
Qed.

End Resolver.

Lemma In_inRadius (R : num) (enriched : list EnrichedLocation) (x : EnrichedLocation) :
  In x (inRadiusOf R enriched) <-> In x enriched /\ le (distanceKm x) R = true.
Proof. unfold inRadiusOf. rewrite SortFacts.sort_In. apply filter_In. Qed.

Lemma In_outOfRadius (R : num) (enriched : list EnrichedLocation) (x : EnrichedLocation) :
  In x (outOfRadiusOf R enriched) <-> In x enriched /\ gt (distanceKm x) R = true.
Proof. unfold outOfRadiusOf. rewrite SortFacts.sort_In. apply filter_In. Qed.

Lemma filter_le_gt_perm (R : num) (l : list EnrichedLocation) :
  isNaN R = false ->
  Permutation
    (List.filter (fun x => le (distanceKm x) R) l ++
     List.filter (fun x => gt (distanceKm x) R) l)
    (List.filter (fun x => negb (isNaN (distanceKm x))) l).
Proof.
  intros HR. induction l as [|x l IH]; cbn [List.filter]; [constructor|].
  destruct (isNaN (distanceKm x)) eqn:En; cbn [negb].
  - assert (le (distanceKm x) R = false /\ gt (distanceKm x) R = false) as [-> ->].
    { destruct (distanceKm x); try discriminate. now destruct R. }
    exact IH.
  - rewrite (NumberFacts.le_or_gt _ _ En HR).
    destruct (gt (distanceKm x) R); simpl.
    + rewrite <- Permutation_middle. now constructor.
    + now constructor.
Qed.

Lemma sorted_strongly (l : list EnrichedLocation) :
  Sorted byDistanceAscending l -> StronglySorted byDistanceAscending l.
Proof.
  apply Sorted_StronglySorted. intros x y z. apply SortFacts.ascending_trans.
Qed.

Lemma sort_byDistance_sorted (l : list EnrichedLocation) :
  Forall (fun x => isNaN (distanceKm x) = false) l ->
  StronglySorted byDistanceAscending (sort byDistance l).
Proof.
  intros H. apply sorted_strongly.
  apply SortFacts.sort_sorted; [reflexivity|assumption].
Qed.

Lemma statusOf_cases (qty : option Z) :
  (statusOf qty = "unknown" <-> qty = None) /\
  (statusOf qty = "instock" <-> exists q, qty = Some q /\ (0 < q)%Z) /\
  (statusOf qty = "outofstock" <-> exists q, qty = Some q /\ (q <= 0)%Z).
Proof.
  destruct qty as [q|]; simpl.
  - destruct (Z.ltb_spec 0 q); repeat split; try discriminate;
      try (intros _; exists q; split; [reflexivity|lia]);
      intros (q' & Hq & ?); injection Hq as <-; lia.
  - repeat split; try discriminate; intros (q' & Hq & _); discriminate.
Qed.

Lemma falsy_pincode_rejected (rt : Runtime) (pincode : jsval) :
  Js.truthy pincode = false -> pincodeOk rt pincode = false.
Proof.
  destruct pincode as [| |[|]|[|neg|q]|str]; simpl; try discriminate; try reflexivity.
  - intros Hq. apply negb_false_iff in Hq. unfold qzero in Hq.
    apply Qeq_bool_iff in Hq. unfold pincodeOk, Js.ToString, Js.numberToString.
    rewrite (NumberFacts.Qred_zero q Hq). reflexivity.
  - intros Hs. apply negb_false_iff in Hs. apply String.eqb_eq in Hs. now subst.
Qed.

(** The guard of the pincode, spelled out. *)
Lemma pincodeOk_spec (rt : Runtime) (pincode : jsval) :
  pincodeOk rt pincode = true <->
  (String.length (trim (Js.ToString rt pincode)) = 4 \/
   String.length (trim (Js.ToString rt pincode)) = 6) /\
  Forall (fun c => (48 <= N_of_ascii c <= 57)%N)
    (list_ascii_of_string (trim (Js.ToString rt pincode))).
Proof.
  unfold pincodeOk. rewrite orb_true_iff, !StringFacts.digits_exactly_spec. tauto.
Qed.

Lemma In_zip_lookup {A B} (l : list A) (k : list B) (a : A) (b : B) :
  In (a, b) (zip l k) <-> exists i, l !! i = Some a /\ k !! i = Some b.
Proof.
  revert k. induction l as [|x l IH]; intros [|y k]; simpl.
  - split; [contradiction|]. now intros (i & H & _).
  - split; [contradiction|]. now intros (i & H & _).
  - split; [contradiction|]. intros ([|i] & _ & H); discriminate.
  - rewrite IH. split.
    + intros [[= <- <-]|(i & H1 & H2)]; [now exists 0|now exists (S i)].
    + intros ([|i] & H1 & H2); simpl in *; [left; congruence|right; now exists i].
Qed.

(** The entries of a run: one for each location whose coordinates are not
    (0, 0). *)
Lemma In_entries (rt : Runtime) (pin : GeoPoint) (qty : gmap string Z)
    (locations : list Shopify.Location) (gs : list GeoPoint) (x : EnrichedLocation) :
  In x (map (fun p => entryOf rt pin qty (fst p) (snd p)) (awayFromOrigin locations gs)) <->
  exists i loc g,
    locations !! i = Some loc /\ gs !! i = Some g /\
    atOrigin (lat g) (lng g) = false /\ x = entryOf rt pin qty loc g.
Proof.
  unfold awayFromOrigin. rewrite in_map_iff. split.
  - intros ([loc g] & <- & Hin). apply filter_In in Hin as [Hin Ho].
    apply In_zip_lookup in Hin as (i & Hl & Hg). exists i, loc, g.
    simpl in *. apply negb_true_iff in Ho. now repeat split.
  - intros (i & loc & g & Hl & Hg & Ho & ->). exists (loc, g). split; [reflexivity|].
    apply filter_In. split; [apply In_zip_lookup; now exists i|].
    simpl. now rewrite Ho.
Qed.

End PickupFacts.

(* ===================================================================== *)
(** ** What the stages can throw *)
(* ===================================================================== *)

Module ThrowFacts.
Import Errors Effects JsString JsNumber M MonadFacts Pickup PickupFacts GeocodeFacts.
Import Geocoding ShopifyApi Vocabulary.

Lemma valid_ret {A} (a : A) : valid_throws (ret a).
Proof. intros s e s' H. discriminate. Qed.

Lemma valid_bind {A B} (m : M.t A) (k : A -> M.t B) :
  valid_throws m -> (forall a, valid_throws (k a)) -> valid_throws (bind m k).
Proof.
  intros Hm Hk s e s' H. apply bind_threw in H as [H|(a & s1 & _ & H)].
  - now apply Hm in H.
  - now apply Hk in H.
Qed.

Lemma valid_await {A} (c : Call) (answer : Http A) : valid_throws (await c answer).
Proof. intros s e s'. unfold await. destruct answer; intros [= <- _]; reflexivity. Qed.

Lemma valid_returns {A} (m : M.t A) : returns m -> valid_throws m.
Proof. intros Hm s e s' H. destruct (Hm s) as (a & s1 & E). congruence. Qed.

Lemma returns_try_catch {A} (m : M.t A) (h : exn -> M.t A) :
  (forall s, fst (m s) <> Running) -> (forall e, returns (h e)) -> returns (try_catch m h).
Proof.
  intros Hm Hh s. unfold try_catch. specialize (Hm s).
  destruct (m s) as [[a|e|] s1]; simpl in Hm; [now eauto|apply Hh|congruence].
Qed.

Section Stages.
Variable rt : Runtime.
Variable env : Env.
Variable w : World.

Lemma valid_googleStep (key original : string) (is6 is4 : bool) :
  valid_throws (googleStep env w key original is6 is4).
Proof.
  intros s e s'. unfold googleStep.
  destruct (negb (String.eqb (mode env) "osm")); [|discriminate].
  unfold try_catch, googleAttempt, bind, await, cacheOk, modify, ret, throw.
  destruct (google w _) as [r|data]; simpl.
  - destruct (String.eqb (mode env) "google"); intros [= <- _]; reflexivity.
  - destruct (firstResult data) as [hit|].
    + destruct (Google.geometry_location hit) as [[la ln]|]; simpl; [discriminate|].
      destruct (String.eqb (mode env) "google"); intros [= <- _]; reflexivity.
    + destruct (String.eqb (mode env) "google"); simpl; intros [= <- _]; reflexivity.
Qed.

Lemma returns_osmStructuredStep (key original : string) (is6 isPinLike : bool) :
  returns (osmStructuredStep w key original is6 isPinLike).
Proof.
  intros s. unfold osmStructuredStep. destruct isPinLike; [|now eexists; eexists].
  pose proof (osmAttempt_effect w key (osmStructuredParams original is6) s) as H.
  destruct (try_catch _ _ s) as [[[g|]|e|] s1]; try contradiction;
    now eexists; eexists.
Qed.

Lemma returns_osmFreeformStep (key original : string) (is6 is4 : bool) :
  returns (osmFreeformStep w key original is6 is4).
Proof.
  intros s. unfold osmFreeformStep.
  pose proof (osmAttempt_effect w key (osmFreeformParams original is6 is4) s) as H.
  destruct (try_catch _ _ s) as [[[g|]|e|] s1]; try contradiction;
    now eexists; eexists.
Qed.

Lemma valid_geocodeFrom (called : State) (address : string) :
  valid_throws (geocodeFrom env w called address).
Proof.
  unfold geocodeFrom. destruct (geocodeCache called !! _); [apply valid_ret|].
  apply valid_bind; [apply valid_googleStep|]. intros [g|]; [apply valid_ret|].
  apply valid_bind; [apply valid_returns, returns_osmStructuredStep|].
  intros [g|]; [apply valid_ret|].
  apply valid_bind; [apply valid_returns, returns_osmFreeformStep|].
  intros [g|]; [apply valid_ret|].
  intros s e s' [= <- _]. reflexivity.
Qed.

Lemma valid_geocode (address : string) : valid_throws (geocode env w address).
Proof. intros s. apply valid_geocodeFrom. Qed.

Lemma valid_assertNoGqlErrors (resp : Shopify.Body) : valid_throws (assertNoGqlErrors resp).
Proof.
  intros s e s'. unfold assertNoGqlErrors.
  destruct (Shopify.errors resp); [discriminate|]. intros [= <- _]. reflexivity.
Qed.

Lemma valid_pages (fuel : nat) (gql : Shopify.Client) (hasNext : bool)
    (cursor : option string) (locations : list Shopify.Location) :
  valid_throws (pages fuel gql hasNext cursor locations).
Proof.
  revert hasNext cursor locations.
  induction fuel as [|fuel IH]; intros [|] cursor locations; simpl;
    try apply valid_ret; try (intros s e s'; discriminate).
  apply valid_bind; [apply valid_await|]. intros resp.
  apply valid_bind; [apply valid_assertNoGqlErrors|]. intros _. apply IH.
Qed.

Lemma valid_fetchShopifyLocations (fuel : nat) (gql : Shopify.Client) (shop : string) :
  valid_throws (fetchShopifyLocations fuel gql shop).
Proof.
  unfold fetchShopifyLocations.
  apply valid_bind; [apply valid_returns; intros s; now eexists; eexists|].
  intros s0. destruct (shopifyLocationsCache s0 !! _); [apply valid_ret|].
  apply valid_bind; [apply valid_pages|]. intros locations.
  apply valid_bind; [apply valid_returns; intros s; now eexists; eexists|].
  intros _. apply valid_ret.
Qed.

Lemma valid_inventory (gql : Shopify.Client) (variantId : jsval) :
  valid_throws (inventory rt gql variantId).
Proof.
  unfold inventory. destruct (Js.truthy variantId); [|apply valid_ret].
  apply valid_bind.
  - unfold getInventoryItemIdForVariant.
    apply valid_bind; [apply valid_await|]. intros resp.
    apply valid_bind; [apply valid_assertNoGqlErrors|]. intros _.
    destruct (Shopify.data resp) as [d|]; [|intros s e s' [= <- _]; reflexivity].
    destruct (Shopify.productVariant_inventoryItem_id d) as [id|];
      [|intros s e s' [= <- _]; reflexivity].
    destruct (String.eqb id ""); [intros s e s' [= <- _]; reflexivity|apply valid_ret].
  - intros gid. apply valid_bind; [|intros; apply valid_ret].
    unfold getInventoryByLocation.
    apply valid_bind; [apply valid_await|]. intros resp.
    apply valid_bind; [apply valid_assertNoGqlErrors|]. intros _. apply valid_ret.
Qed.

Lemma geocodeFrom_not_running (called : State) (address : string) (s : State) :
  fst (geocodeFrom env w called address s) <> Running.
Proof.
  pose proof (geocodeFrom_effect env w called address s) as H.
  destruct (geocodeFrom env w called address s) as [[g|e|] s']; simpl in *;
    congruence || tauto.
Qed.

Lemma geocode_not_running (address : string) (s : State) :
  fst (geocode env w address s) <> Running.
Proof. apply geocodeFrom_not_running. Qed.

Lemma returns_setLoc (key : string) (g : GeoPoint) : returns (setLoc key g).
Proof. intros s. now eexists; eexists. Qed.

(** Geocoding a location never throws: failures end in the marker. *)
Lemma returns_geocodeShopifyLocationFrom (called : State) (loc : Shopify.Location) :
  returns (geocodeShopifyLocationFrom env w called loc).
Proof.
  unfold geocodeShopifyLocationFrom.
  destruct (locationGeoCache called !! _); [intros s; now eexists; eexists|].
  apply returns_try_catch.
  - intros s0. unfold bind.
    pose proof (geocodeFrom_not_running called (fullAddr loc) s0) as H.
    destruct (geocodeFrom env w called (fullAddr loc) s0) as [[g|e|] s1]; simpl in *;
      congruence.
  - intros _ s0. unfold bind at 1. destruct (zipOf loc) as [zip|].
    + assert (H : returns
                    (try_catch
                       (bind (geocode env w zip)
                          (fun g2 => bind (setLoc ("loc:" +:+ Shopify.id loc) g2)
                                       (fun g0 => ret (Some g0))))
                       (fun _ => ret None))).
      { apply returns_try_catch; [|intros _ s1; now eexists; eexists].
        intros s1. unfold bind. pose proof (geocode_not_running zip s1) as H.
        destruct (geocode env w zip s1) as [[g|e|] s2]; simpl in *; congruence. }
      destruct (H s0) as (r & s1 & ->). destruct r; now eexists; eexists.
    + now eexists; eexists.
Qed.

Lemma returns_geocodeShopifyLocation (loc : Shopify.Location) :
  returns (geocodeShopifyLocation env w loc).
Proof. intros s. apply returns_geocodeShopifyLocationFrom. Qed.

Lemma returns_mapM {A B} (f : A -> M.t B) (l : list A) :
  (forall a, returns (f a)) -> returns (mapM f l).
Proof.
  intros Hf. induction l as [|a l IH]; intros s; simpl; [now eexists; eexists|].
  unfold bind. destruct (Hf a s) as (b & s1 & ->). destruct (IH s1) as (bs & s2 & ->).
  now eexists; eexists.
Qed.

Lemma returns_visit (called : State) (pin : GeoPoint) (qty : gmap string Z)
    (loc : Shopify.Location) :
  returns (visit rt env w called pin qty loc).
Proof.
  intros s. unfold visit, bind.
  destruct (returns_geocodeShopifyLocationFrom called loc s) as (g & s1 & ->).
  now eexists; eexists.
Qed.

Lemma returns_visitAll (pin : GeoPoint) (qty : gmap string Z)
    (locations : list Shopify.Location) :
  returns (visitAll rt env w pin qty locations).
Proof.
  intros s. unfold visitAll, bind at 1, get.
  apply returns_mapM. intros loc. apply returns_visit.
Qed.

End Stages.
End ThrowFacts.
(* ===================================================================== *)
(** ** The claims of the specification *)
(* ===================================================================== *)

Section Claims.
Import Errors Effects JsString JsNumber M Geocoding ShopifyApi Pickup Vocabulary.
Import MonadFacts GeocodeFacts LocationFacts PickupFacts ThrowFacts.

(** C1, as amended.  In every result of [buildPickupResponse], each listed
    location whose final coordinates (what [geocodeShopifyLocation] returned
    for it in the run) are not (0, 0) has an entry, and that entry, when its
    [distanceKm] is a number, appears in exactly one of the two lists: in
    [inRadius] when its [distanceKm] is [<=] the effective radius, in
    [outOfRadius] when it is [>].  An entry whose [distanceKm] is [NaN]
    appears in neither list, and a location at (0, 0) has no entry, also
    when a provider placed it there.  Every entry of the two lists is the
    entry of such a location; the two lists together are a rearrangement of
    the entries with a numeric distance, and each list is in ascending
    order of [distanceKm]. *)
Theorem radius_partition (rt : Runtime) (env : Env) (w : World) (fuel : nat)
    (req : Request) (gql : Shopify.Client) (shop : string) (s s' : State)
    (r : PickupResult) :
  buildPickupResponse rt env w fuel req gql shop s = (Returned r, s') ->
  exists pin qty locations gs,
    placed rt env w fuel req gql shop s pin qty locations gs /\
    length gs = length locations /\
    let RADIUS := effectiveRadius env (radiusKm req) in
    (forall i loc g,
        locations !! i = Some loc -> gs !! i = Some g ->
        atOrigin (lat g) (lng g) = false ->
        let x := entryOf rt pin qty loc g in
        (isNaN (distanceKm x) = false ->
         (le (distanceKm x) RADIUS = true /\
          In x (inRadius r) /\ ~ In x (outOfRadius r)) \/
         (gt (distanceKm x) RADIUS = true /\
          In x (outOfRadius r) /\ ~ In x (inRadius r))) /\
        (isNaN (distanceKm x) = true ->
         ~ In x (inRadius r) /\ ~ In x (outOfRadius r))) /\
    (forall x,
        In x (inRadius r ++ outOfRadius r) ->
        exists i loc g,
          locations !! i = Some loc /\ gs !! i = Some g /\
          atOrigin (lat g) (lng g) = false /\ x = entryOf rt pin qty loc g) /\
    Permutation (inRadius r ++ outOfRadius r)
      (List.filter (fun x => negb (isNaN (distanceKm x)))
         (map (fun p => entryOf rt pin qty (fst p) (snd p))
            (awayFromOrigin locations gs))) /\
    StronglySorted byDistanceAscending (inRadius r) /\
    StronglySorted byDistanceAscending (outOfRadius r).
Proof.
  intros H.
  apply buildPickupResponse_placed in H
    as (pin & gid & qty & locations & gs & Hplaced & Hlen & ->).
  exists pin, qty, locations, gs.
  split; [assumption|]. split; [assumption|].
  intros RADIUS. cbn [inRadius outOfRadius result].
  assert (HR : isNaN RADIUS = false).
  { pose proof (effectiveRadius_finite env (radiusKm req)) as HF.
    fold RADIUS in HF. now destruct RADIUS. }
  subst RADIUS.
  set (entries := map (fun p => entryOf rt pin qty (fst p) (snd p))
                    (awayFromOrigin locations gs)).
  split; [|split; [|split; [|split]]].
  - intros i loc g Hl Hg Ho. set (x := entryOf rt pin qty loc g).
    assert (Hx : In x entries).
    { apply In_entries. now exists i, loc, g. }
    clearbody x. rewrite !In_inRadius, !In_outOfRadius. split.
    + intros Hn. pose proof (NumberFacts.le_or_gt _ _ Hn HR) as E.
      destruct (gt (distanceKm x) (effectiveRadius env (radiusKm req))) eqn:Eg;
        cbn [negb] in E.
      * right. repeat split; try assumption. intros [_ ?]. congruence.
      * left. repeat split; try assumption. intros [_ ?]. congruence.
    + intros Hn. split.
      * intros [_ Hle]. apply NumberFacts.le_not_nan in Hle as [? _]. congruence.
      * intros [_ Hgt]. apply NumberFacts.gt_not_nan in Hgt as [? _]. congruence.
  - intros x Hx. apply In_entries. fold entries.
    apply in_app_or in Hx as [Hx|Hx];
      [apply In_inRadius in Hx|apply In_outOfRadius in Hx]; tauto.
  - unfold inRadiusOf, outOfRadiusOf.
    rewrite !SortFacts.sort_perm. now apply filter_le_gt_perm.
  - apply sort_byDistance_sorted. apply List.Forall_forall. intros x Hx.
    apply filter_In in Hx as [_ Hle]. now apply NumberFacts.le_not_nan in Hle as [? _].
  - apply sort_byDistance_sorted. apply List.Forall_forall. intros x Hx.
    apply filter_In in Hx as [_ Hgt]. now apply NumberFacts.gt_not_nan in Hgt as [? _].
Qed.

Lemma radius_partition_witness :
  exists r s' pin qty locations gs,
    Sample.run Sample.india JUndefined (JNum (Fin 200)) = (Returned r, s') /\
    placed Sample.runtime (Sample.env_of_mode None) Sample.india 10
      (Sample.request "110001" JUndefined (JNum (Fin 200)))
      (Sample.shopify Sample.storePages Sample.levels) "demo.myshopify.com"
      emptyState pin qty locations gs /\
    length gs = length locations /\
    Permutation (inRadius r ++ outOfRadius r)
      (List.filter (fun x => negb (isNaN (distanceKm x)))
         (map (fun p => entryOf Sample.runtime pin qty (fst p) (snd p))
            (awayFromOrigin locations gs))) /\
    map locationId (inRadius r) = [Shopify.id Sample.delhi; Shopify.id Sample.agra] /\
    map locationId (outOfRadius r) = [Shopify.id Sample.jaipur].
Proof.
  assert (H : exists r s',
             Sample.run Sample.india JUndefined (JNum (Fin 200)) = (Returned r, s') /\
             map locationId (inRadius r)
               = [Shopify.id Sample.delhi; Shopify.id Sample.agra] /\
             map locationId (outOfRadius r) = [Shopify.id Sample.jaipur]).
  { eexists. eexists. split; [vm_compute; reflexivity|]. split; vm_compute; reflexivity. }
  destruct H as (r & s' & H & Hin & Hout).
  destruct (radius_partition _ _ _ _ _ _ _ _ _ _ H)
    as (pin & qty & locations & gs & Hplaced & Hlen & _ & _ & Hperm & _).
  exists r, s', pin, qty, locations, gs. now repeat split.
Defined.

(** C1 does not hold as stated.  The provider resolves the addresses of
    two active stores (no lookup fails, and what the location cache holds
    for them is the provider's answer, not the failure marker), one to
    latitude and longitude zero and one to a latitude that is not a number:
    neither store appears in [inRadius] or in [outOfRadius]. *)
Lemma located_but_in_neither_list :
  exists r s',
    Sample.run Sample.india_with_gaps JUndefined (JNum (Fin 200)) = (Returned r, s') /\
    locationGeoCache s' !! locKey Sample.agra
      = Some {| lat := Fin 0; lng := Fin 0; formatted := "Agra" |} /\
    locationGeoCache s' !! locKey Sample.jaipur
      = Some {| lat := NaN; lng := Fin (757873 # 10000); formatted := "Jaipur" |} /\
    map locationId (inRadius r) = [Shopify.id Sample.delhi] /\
    map locationId (outOfRadius r) = [].
Proof.
  eexists. eexists. split; [vm_compute; reflexivity|].
  repeat split; vm_compute; reflexivity.
Qed.



(** C3, as amended.  The raw geocode cache stores successful resolutions
    only: a call of [geocode] that fails writes to none of the caches, so
    that the next call for the same query, whatever the providers then
    answer, makes a live lookup; and a call that succeeds stores nothing but
    its result, under the key of the query.  The location cache is another
    matter: when the geocoding of a location ultimately fails (the composed
    address fails, and so does the postal code when there is one),
    [geocodeShopifyLocation] stores the (0, 0) "Geocode failed" marker under
    the key of the location, and the next call for that location returns
    the marker from the cache, without a lookup. *)
Theorem failures_and_the_caches (env : Env) (w : World) :
  (forall address s e s',
      geocode env w address s = (Threw e, s') ->
      (geocodeCache s' = geocodeCache s /\
       locationGeoCache s' = locationGeoCache s /\
       shopifyLocationsCache s' = shopifyLocationsCache s) /\
      (forall w2, exists calls, calls <> [] /\
         log (snd (geocode env w2 address s')) = (log s' ++ calls)%list)) /\
  (forall address s g s',
      geocode env w address s = (Returned g, s') ->
      geocodeCache s' = geocodeCache s \/
      geocodeCache s' = <[keyOf address := g]> (geocodeCache s)) /\
  (forall loc s s1 s2 e1,
      locationGeoCache s !! locKey loc = None ->
      geocode env w (fullAddr loc) s = (Threw e1, s1) ->
      match zipOf loc with
      | Some zip => exists e2, geocode env w zip s1 = (Threw e2, s2)
      | None => s2 = s1
      end ->
      exists s',
        geocodeShopifyLocation env w loc s = (Returned fail, s') /\
        locationGeoCache s' = <[locKey loc := fail]> (locationGeoCache s) /\
        geocodeCache s' = geocodeCache s /\
        forall w2, geocodeShopifyLocation env w2 loc s' = (Returned fail, s')).
Proof.
  repeat split.
  - now apply geocode_threw_caches in H.
  - now apply geocode_threw_caches in H.
  - now apply geocode_threw_caches in H.
  - intros w2. apply geocode_threw_caches in H as (Hmiss & Hc & _).
    apply geocode_miss_live. now rewrite Hc.
  - intros address s g s' H.
    pose proof (geocode_effect env w address s) as E. rewrite H in E.
    destruct E as [[_ ->]|(_ & calls & _ & ->)]; [now left|now right].
  - intros loc s s1 s2 e1 Hmiss H1 H2.
    exists (set_locationGeoCache (locKey loc) fail s2).
    split; [now apply geocodeShopifyLocation_failed with s1 e1|].
    apply geocode_threw_caches in H1 as (_ & Hg1 & Hl1 & _).
    assert (geocodeCache s2 = geocodeCache s1 /\ locationGeoCache s2 = locationGeoCache s1)
      as [Hg2 Hl2].
    { destruct (zipOf loc); [|now subst].
      destruct H2 as [e2 H2]. now apply geocode_threw_caches in H2 as (_ & ? & ? & _). }
    simpl. repeat split; [congruence|congruence|].
    intros w2. apply geocodeShopifyLocation_cached. simpl. apply lookup_insert_eq.
Qed.

Lemma failures_and_the_caches_witness :
  exists s',
    geocodeShopifyLocation (Sample.env_of_mode None) Sample.nothing_known Sample.delhi
      emptyState = (Returned fail, s') /\
    locationGeoCache s' = <[locKey Sample.delhi := fail]> (locationGeoCache emptyState) /\
    geocodeCache s' = geocodeCache emptyState /\
    forall w2, geocodeShopifyLocation (Sample.env_of_mode None) w2 Sample.delhi s'
               = (Returned fail, s').
Proof.
  refine (proj2 (proj2 (failures_and_the_caches (Sample.env_of_mode None)
                          Sample.nothing_known))
            Sample.delhi emptyState _ _ _ eq_refl eq_refl eq_refl).
Defined.

(** C3 does not hold as stated: when no provider has a record for a
    location, [geocodeShopifyLocation] writes the failure marker to the
    location cache, and a later call returns the marker from the cache even
    though the providers would by then resolve the address. *)
Lemma failed_location_is_cached :
  exists s',
    geocodeShopifyLocation (Sample.env_of_mode None) Sample.nothing_known Sample.delhi
      emptyState = (Returned fail, s') /\
    locationGeoCache s' !! "loc:gid://shopify/Location/1" = Some fail /\
    geocodeShopifyLocation (Sample.env_of_mode None) Sample.india Sample.delhi s'
      = (Returned fail, s') /\
    exists g s'',
      geocodeShopifyLocation (Sample.env_of_mode None) Sample.india Sample.delhi
        emptyState = (Returned g, s'') /\ g <> fail.
Proof.
  eexists. split; [vm_compute; reflexivity|].
  split; [vm_compute; reflexivity|].
  split; [vm_compute; reflexivity|].
  eexists. eexists. split; [vm_compute; reflexivity|]. discriminate.
Qed.

(** C4.  [buildPickupResponse] fails with an error of the class
    InvalidInput (code [pincode_required] or [invalid_pincode], status 400)
    exactly when [String(pincode).trim()] is not a text of exactly four or
    exactly six digits "0" to "9", which includes an absent, [null] or empty
    pincode: in that case it throws at once, before any request and without
    touching the caches.  When the trimmed pincode is four or six digits (as
    for "1234", for " 560001 " and for the number 110001), validation
    passes, no error the run may still throw is of the class InvalidInput,
    and resolution proceeds with the geocoding of the pincode. *)
Theorem pincode_validation (rt : Runtime) (env : Env) (w : World) (fuel : nat)
    (req : Request) (gql : Shopify.Client) (shop : string) (s : State) :
  let text := trim (Js.ToString rt (pincode req)) in
  let fourOrSixDigits :=
    (String.length text = 4 \/ String.length text = 6) /\
    Forall (fun c => (48 <= N_of_ascii c <= 57)%N) (list_ascii_of_string text) in
  (~ fourOrSixDigits ->
   exists a,
     buildPickupResponse rt env w fuel req gql shop s = (Threw (Thrown a), s) /\
     (a = PincodeRequired \/ a = InvalidPincodeError (pincode req)) /\
     (Errors.code a = "pincode_required" \/ Errors.code a = "invalid_pincode") /\
     invalidInput (Thrown a) = true /\ Errors.status a = 400%Z /\
     is4xx (Thrown a) = true) /\
  (fourOrSixDigits ->
   validate rt (pincode req) s = (Returned tt, s) /\
   (forall e s', buildPickupResponse rt env w fuel req gql shop s = (Threw e, s') ->
                 invalidInput e = false /\
                 forall a, e = Thrown a ->
                           Errors.code a <> "pincode_required" /\
                           Errors.code a <> "invalid_pincode") /\
   match Geocoding.geocode env w (Js.ToString rt (pincode req)) s with
   | (Threw e, s1) => buildPickupResponse rt env w fuel req gql shop s = (Threw e, s1)
   | (Returned pin, s1) =>
       forall r s', buildPickupResponse rt env w fuel req gql shop s = (Returned r, s') ->
                    input_geocoded (input r) =
                      {| geocoded_lat := lat pin; geocoded_lng := lng pin;
                         geocoded_address := formatted pin |}
   | (Running, _) => True
   end) /\
  (Js.truthy (pincode req) = false -> ~ fourOrSixDigits) /\
  (validate rt (JStr "1234") s = (Returned tt, s) /\
   validate rt (JStr " 560001 ") s = (Returned tt, s) /\
   validate rt (JNum (Fin 110001)) s = (Returned tt, s)) /\
  (validate rt (JStr "12345") s = (Threw (Thrown (InvalidPincodeError (JStr "12345"))), s) /\
   validate rt (JStr "12a4") s = (Threw (Thrown (InvalidPincodeError (JStr "12a4"))), s) /\
   validate rt (JStr "") s = (Threw (Thrown PincodeRequired), s) /\
   validate rt JNull s = (Threw (Thrown PincodeRequired), s) /\
   validate rt JUndefined s = (Threw (Thrown PincodeRequired), s)).
Proof.
  intros text fourOrSixDigits.
  assert (Hspec : pincodeOk rt (pincode req) = true <-> fourOrSixDigits).
  { apply pincodeOk_spec. }
  split; [|split; [|split; [|split]]].
  - intros Hbad.
    assert (Hno : pincodeOk rt (pincode req) = false).
    { destruct (pincodeOk rt (pincode req)); [|reflexivity]. exfalso. now apply Hbad, Hspec. }
    unfold buildPickupResponse, bind at 1, validate.
    destruct (Js.truthy (pincode req)) eqn:Ht; simpl.
    + rewrite Hno. simpl. exists (InvalidPincodeError (pincode req)).
      repeat split; now right.
    + exists PincodeRequired. repeat split; now left.
  - intros Hgood. apply Hspec in Hgood as Hok.
    assert (Ht : Js.truthy (pincode req) = true).
    { destruct (Js.truthy (pincode req)) eqn:E; [reflexivity|].
      apply (falsy_pincode_rejected rt) in E. congruence. }
    assert (Hv : validate rt (pincode req) s = (Returned tt, s)).
    { unfold validate. now rewrite Ht, Hok. }
    split; [assumption|]. split.
    + assert (Hvalid : valid_throws (buildPickupResponse rt env w fuel req gql shop)).
      { unfold buildPickupResponse.
        apply valid_bind.
        { intros s0 e s1. unfold validate. rewrite Ht, Hok. discriminate. }
        intros _. apply valid_bind; [apply valid_geocode|]. intros pin.
        apply valid_bind; [apply valid_fetchShopifyLocations|]. intros locations.
        apply valid_bind; [apply valid_inventory|]. intros inv.
        apply valid_bind; [|intros; apply valid_ret].
        apply valid_returns, returns_visitAll. }
      intros e s' H. pose proof (Hvalid s e s' H) as Hi. split; [exact Hi|].
      intros a ->. simpl in Hi. apply orb_false_iff in Hi as [H1 H2].
      apply String.eqb_neq in H1, H2. now split.
    + destruct (Geocoding.geocode env w (Js.ToString rt (pincode req)) s)
        as [[pin|e|] s1] eqn:Eg; [| |exact I].
      * intros r s' H.
        apply buildPickupResponse_stages in H
          as (pin' & gid & qty & locations & visited & _ & Hres & _ & ->).
        destruct Hres as (s1' & _ & _ & _ & _ & Hpin & _).
        rewrite Eg in Hpin. now injection Hpin as <- _.
      * unfold buildPickupResponse. unfold bind at 1. rewrite Hv.
        unfold bind at 1. now rewrite Eg.
  - intros Hf Hgood. apply Hspec in Hgood.
    apply (falsy_pincode_rejected rt) in Hf. congruence.
  - repeat split.
  - repeat split.
Qed.

Lemma pincode_validation_witness :
  validate Sample.runtime (JStr "110001") emptyState = (Returned tt, emptyState) /\
  forall e s',
    buildPickupResponse Sample.runtime (Sample.env_of_mode None) Sample.india 10
      (Sample.request "110001" JUndefined JUndefined)
      (Sample.shopify Sample.storePages Sample.levels) "demo.myshopify.com" emptyState
      = (Threw e, s') ->
    invalidInput e = false /\
    forall a, e = Thrown a ->
              Errors.code a <> "pincode_required" /\ Errors.code a <> "invalid_pincode".
Proof.
  assert (Hgood : (String.length "110001" = 4 \/ String.length "110001" = 6) /\
                  Forall (fun c => (48 <= N_of_ascii c <= 57)%N)
                    (list_ascii_of_string "110001")).
  { split; [right; reflexivity|]. repeat constructor; discriminate. }
  destruct (proj1 (proj2 (pincode_validation Sample.runtime (Sample.env_of_mode None)
                            Sample.india 10 (Sample.request "110001" JUndefined JUndefined)
                            (Sample.shopify Sample.storePages Sample.levels)
                            "demo.myshopify.com" emptyState))
              Hgood) as (Hv & Hthrows & _).
  split; [exact Hv|exact Hthrows].
Defined.

(** C5.  In secondary-only mode (GEOCODER_MODE "osm", in any letter case),
    a query of six digits that is not cached and for which neither search of
    the secondary provider yields a record makes [geocode] issue exactly two
    requests, the structured postal-code search and then the free-form
    search, both to the secondary provider and none to the primary one, and
    then throw a [GeocodeNoResultError]: the error with the code
    [pin_unavailable] and the status 422 whose metadata hold the query
    under [query] and nothing else.  The caches are left as they were. *)
Theorem geocode_osm_only_no_result (env : Env) (w : World) (address : string) (s : State) :
  mode env = "osm" ->
  digits_exactly 6 address = true ->
  geocodeCache s !! ("geo:" +:+ address) = None ->
  noRecord (nominatim w (Osm.Structured address "India")) = true ->
  noRecord (nominatim w (Osm.Freeform (address +:+ ", India") (Some "in"))) = true ->
  exists a,
    geocode env w address s =
      (Threw (Thrown a),
       logged [ToNominatim (Osm.Structured address "India");
               ToNominatim (Osm.Freeform (address +:+ ", India") (Some "in"))] s) /\
    a = GeocodeNoResultError address /\
    Errors.cls a = GeocodeNoResultErrorClass /\
    Errors.message a = "Pickup not available for this pincode." /\
    Errors.code a = "pin_unavailable" /\
    Errors.status a = 422%Z /\
    Errors.meta a = [("query", MetaVal (JStr address))].
Proof.
  intros Hmode H6 Hmiss Hs Hf. exists (GeocodeNoResultError address).
  split; [|now repeat split].
  unfold geocode, geocodeFrom. rewrite (StringFacts.trim_digits 6 address H6), H6.
  unfold bind at 1, get. rewrite Hmiss.
  unfold googleStep. rewrite Hmode. simpl negb. cbv iota.
  unfold bind at 1, ret at 1.
  unfold osmStructuredStep, osmStructuredParams. simpl orb. cbv iota.
  unfold bind at 1.
  rewrite (osmAttempt_noRecord w _ _ s Hs).
  unfold bind at 1. unfold osmFreeformStep, osmFreeformParams.
  rewrite (osmAttempt_noRecord w _ _ _ Hf).
  unfold throw. now norm_log.
Qed.

Lemma geocode_osm_only_no_result_witness :
  exists a,
    geocode (Sample.env_of_mode (Some "OSM")) Sample.nothing_known "500001" emptyState =
      (Threw (Thrown a),
       logged [ToNominatim (Osm.Structured "500001" "India");
               ToNominatim (Osm.Freeform "500001, India" (Some "in"))] emptyState) /\
    a = GeocodeNoResultError "500001" /\
    Errors.cls a = GeocodeNoResultErrorClass /\
    Errors.message a = "Pickup not available for this pincode." /\
    Errors.code a = "pin_unavailable" /\
    Errors.status a = 422%Z /\
    Errors.meta a = [("query", MetaVal (JStr "500001"))].
Proof. apply geocode_osm_only_no_result; reflexivity. Defined.

(** C6, as amended.  In primary-only mode (GEOCODER_MODE "google"), on a
    query that is not cached, every failure of the primary provider leaves
    [geocode] at once, after the single request to the primary provider and
    with no request to the secondary one.  An answer without a match (any
    status other than "OK", or no result) is thrown as a
    [GeocodeProviderError], the error with the code [geocode_provider_error]
    and the status 502 whose metadata hold the provider "google", the
    reason [status=<status>], followed by [ - <error message>] when the
    answer carries a non-empty one, and the query.  A rejected request is
    thrown as the HTTP client's own error, and a first result without
    geometry as the [TypeError] raised on reading it: these two are rethrown
    as they are, not wrapped. *)
Theorem geocode_google_only_failure (env : Env) (w : World) (address : string) (s : State) :
  mode env = "google" ->
  geocodeCache s !! keyOf address = None ->
  let original := trim address in
  let p := googleParams env original (digits_exactly 6 original) (digits_exactly 4 original) in
  (forall data,
      google w p = Resolved data -> firstResult data = None ->
      let reason :=
        "status=" +:+
        match Google.status data with Some st => st | None => "undefined" end +:+
        match Google.error_message data with
        | Some "" | None => ""
        | Some msg => " - " +:+ msg
        end in
      exists a,
        geocode env w address s = (Threw (Thrown a), record (ToGoogle p) s) /\
        a = GeocodeProviderError "google" reason [("query", MetaVal (JStr original))] /\
        Errors.cls a = GeocodeProviderErrorClass /\
        Errors.message a = "Geocoding provider error: google" /\
        Errors.code a = "geocode_provider_error" /\
        Errors.status a = 502%Z /\
        Errors.meta a = [("provider", MetaVal (JStr "google"));
                         ("reason", MetaVal (JStr reason));
                         ("query", MetaVal (JStr original))]) /\
  (forall reason,
      google w p = Rejected reason ->
      geocode env w address s = (Threw (AxiosError reason), record (ToGoogle p) s)) /\
  (forall data hit,
      google w p = Resolved data -> firstResult data = Some hit ->
      Google.geometry_location hit = None ->
      geocode env w address s = (Threw TypeError, record (ToGoogle p) s)) /\
  (forall e s', geocode env w address s = (Threw e, s') -> s' = record (ToGoogle p) s).
Proof.
  intros Hmode Hmiss original p.
  assert (Hosm : String.eqb (mode env) "osm" = false) by now rewrite Hmode.
  assert (Hg : String.eqb (mode env) "google" = true) by now rewrite Hmode.
  assert (Hgo : forall o s1,
             googleStep env w (keyOf address) original
               (digits_exactly 6 original) (digits_exactly 4 original) s = (o, s1) ->
             geocode env w address s =
               (match o with Returned (Some g) => Returned g | Threw e => Threw e
                        | _ => Running end, s1)).
  { intros o s1 E. unfold geocode, geocodeFrom. fold (keyOf address). fold original.
    unfold bind at 1, get. rewrite Hmiss. unfold bind at 1. rewrite E.
    pose proof (googleStep_effect env w (keyOf address) original
                  (digits_exactly 6 original) (digits_exactly 4 original) s) as H.
    rewrite E in H. destruct o as [[g|]|e|]; simpl in H; try reflexivity; try contradiction.
    destruct H as [[H _]|[H _]]; congruence. }
  assert (Hstep : googleStep env w (keyOf address) original
               (digits_exactly 6 original) (digits_exactly 4 original) s =
             try_catch (googleAttempt env w (keyOf address) original
               (digits_exactly 6 original) (digits_exactly 4 original))
               (fun err => throw err) s).
  { unfold googleStep. now rewrite Hosm, Hg. }
  split; [|split; [|split]].
  - intros data Hd Hnone reason.
    assert (Hr : googleReason data = reason).
    { unfold googleReason, reason.
      destruct (Google.status data) as [st|], (Google.error_message data) as [[|c m]|];
        reflexivity. }
    exists (GeocodeProviderError "google" reason [("query", MetaVal (JStr original))]).
    split; [|now repeat split].
    apply (Hgo (Threw _)). rewrite Hstep.
    unfold try_catch, googleAttempt, bind, await, throw. fold p.
    now rewrite Hd, Hnone, Hg, Hr.
  - intros reason Hd. apply (Hgo (Threw _)). rewrite Hstep.
    unfold try_catch, googleAttempt, bind, await, throw. fold p.
    now rewrite Hd.
  - intros data hit Hd Hhit Hloc. apply (Hgo (Threw _)). rewrite Hstep.
    unfold try_catch, googleAttempt, bind, await, throw. fold p.
    now rewrite Hd, Hhit, Hloc.
  - intros e s' H.
    destruct (googleStep env w (keyOf address) original
               (digits_exactly 6 original) (digits_exactly 4 original) s) as [o s1] eqn:E.
    rewrite (Hgo _ _ eq_refl) in H.
    pose proof (googleStep_effect env w (keyOf address) original
                  (digits_exactly 6 original) (digits_exactly 4 original) s) as H'.
    rewrite E in H'. destruct o as [[g|]|e'|]; simpl in H'; try discriminate.
    destruct H' as [_ ->]. injection H as _ <-. reflexivity.
Qed.

Lemma geocode_google_only_failure_witness :
  exists a,
    geocode (Sample.env_of_mode (Some "google")) Sample.denied "500001" emptyState =
      (Threw (Thrown a),
       record (ToGoogle (Google.Components (Some "test-key")
                           "postal_code:500001|country:IN")) emptyState) /\
    a = GeocodeProviderError "google"
          "status=REQUEST_DENIED - The provided API key is invalid."
          [("query", MetaVal (JStr "500001"))] /\
    Errors.cls a = GeocodeProviderErrorClass /\
    Errors.message a = "Geocoding provider error: google" /\
    Errors.code a = "geocode_provider_error" /\
    Errors.status a = 502%Z /\
    Errors.meta a = [("provider", MetaVal (JStr "google"));
                     ("reason",
                      MetaVal (JStr "status=REQUEST_DENIED - The provided API key is invalid."));
                     ("query", MetaVal (JStr "500001"))].
Proof.
  exact (proj1 (geocode_google_only_failure (Sample.env_of_mode (Some "google"))
                  Sample.denied "500001" emptyState eq_refl eq_refl)
           _ eq_refl eq_refl).
Defined.

(** C6 does not hold as stated: in primary-only mode a network failure
    leaves [geocode] as the HTTP client's error, which is no
    [GeocodeProviderError] and carries no provider metadata. *)
Lemma geocode_google_only_network_error_unwrapped :
  mode (Sample.env_of_mode (Some "google")) = "google" /\
  geocode (Sample.env_of_mode (Some "google")) Sample.offline "500001" emptyState =
    (Threw (AxiosError "ECONNREFUSED"),
     record (ToGoogle (Google.Components (Some "test-key") "postal_code:500001|country:IN"))
       emptyState) /\
  (forall provider reason more,
      AxiosError "ECONNREFUSED" <> Thrown (GeocodeProviderError provider reason more)).
Proof. repeat split. discriminate. Qed.

(** C7.  In every result of [buildPickupResponse], every entry of the two
    lists has as [available] what the inventory map of the run holds for
    its location ([null] when the map has no entry for it, and the map is
    empty when no variant was supplied), and its [status] is "unknown"
    exactly when [available] is [null], "instock" exactly when it is a
    quantity above zero, and "outofstock" exactly when it is a quantity of
    zero or less. *)
Theorem status_follows_availability (rt : Runtime) (env : Env) (w : World) (fuel : nat)
    (req : Request) (gql : Shopify.Client) (shop : string) (s s' : State)
    (r : PickupResult) :
  buildPickupResponse rt env w fuel req gql shop s = (Returned r, s') ->
  exists pin qtyByLoc locations visited,
    resolved rt env w fuel req gql shop s pin qtyByLoc locations visited /\
    (Js.truthy (variantId req) = false -> qtyByLoc = ∅) /\
    forall x, In x (inRadius r ++ outOfRadius r) ->
      available x = qtyByLoc !! locationId x /\
      (status x = "unknown" <-> available x = None) /\
      (status x = "instock" <-> exists q, available x = Some q /\ (0 < q)%Z) /\
      (status x = "outofstock" <-> exists q, available x = Some q /\ (q <= 0)%Z) /\
      (Js.truthy (variantId req) = false ->
       available x = None /\ status x = "unknown").
Proof.
  intros H.
  apply buildPickupResponse_stages in H
    as (pin & gid & qty & locations & visited & _ & Hres & Hsurv & ->).
  exists pin, qty, locations, visited. split; [assumption|].
  assert (Hempty : Js.truthy (variantId req) = false -> qty = ∅).
  { intros Hv. destruct Hres as (s1 & s2 & gid' & s3 & s4 & _ & _ & Hinv & _).
    now apply (inventory_without_variant rt gql _ _ _ _ Hv) in Hinv as [= _ ->]. }
  split; [assumption|]. intros x Hx. simpl in Hx.
  assert (Hin : In (Some x) visited).
  { apply In_omap_id.
    apply in_app_or in Hx as [Hx|Hx];
      [apply In_inRadius in Hx|apply In_outOfRadius in Hx]; tauto. }
  clear Hx Hres.
  assert (Hx : available x = qty !! locationId x /\ status x = statusOf (available x)).
  { induction Hsurv as [|loc v l vs (g & called & sa & sb & _ & Hv) _ IH]; [destruct Hin|].
    destruct Hin as [->|Hin]; [|now apply IH].
    symmetry in Hv. apply enrich_some in Hv as (_ & -> & _ & _ & -> & ->).
    now split. }
  destruct Hx as [Ha Hs]. rewrite Hs.
  destruct (statusOf_cases (available x)) as (H1 & H2 & H3).
  split; [exact Ha|]. split; [exact H1|]. split; [exact H2|]. split; [exact H3|].
  intros Hv. assert (Hnone : available x = None).
  { rewrite Ha, (Hempty Hv). apply lookup_empty. }
  split; [assumption|now apply H1].
Qed.

Lemma status_follows_availability_witness :
  exists r s',
    Sample.run Sample.india (JStr "42") (JNum (Fin 200)) = (Returned r, s') /\
    (exists pin qtyByLoc locations visited,
        resolved Sample.runtime (Sample.env_of_mode None) Sample.india 10
          (Sample.request "110001" (JStr "42") (JNum (Fin 200)))
          (Sample.shopify Sample.storePages Sample.levels) "demo.myshopify.com"
          emptyState pin qtyByLoc locations visited /\
        (Js.truthy (JStr "42") = false -> qtyByLoc = ∅) /\
        forall x, In x (inRadius r ++ outOfRadius r) ->
          available x = qtyByLoc !! locationId x /\
          (status x = "unknown" <-> available x = None) /\
          (status x = "instock" <-> exists q, available x = Some q /\ (0 < q)%Z) /\
          (status x = "outofstock" <-> exists q, available x = Some q /\ (q <= 0)%Z) /\
          (Js.truthy (JStr "42") = false ->
           available x = None /\ status x = "unknown")) /\
    map (fun x => (name x, available x, status x)) (inRadius r ++ outOfRadius r)
      = [("Delhi", Some 5%Z, "instock"); ("Agra", None, "unknown");
         ("Jaipur", Some 0%Z, "outofstock")].
Proof.
  eexists. eexists. split; [vm_compute; reflexivity|]. split.
  - eapply (status_follows_availability Sample.runtime (Sample.env_of_mode None)
              Sample.india 10 (Sample.request "110001" (JStr "42") (JNum (Fin 200)))
              (Sample.shopify Sample.storePages Sample.levels) "demo.myshopify.com"
              emptyState).
    vm_compute. reflexivity.
  - vm_compute. reflexivity.
Defined.



(** C9, as amended.  [Geo.haversineKm] is a function of its two arguments
    (and of the runtime's elementary functions) alone: the haversine formula
    for the great-circle distance on a sphere of radius 6371, applied to the
    latitudes and to the differences of the latitudes and of the longitudes,
    converted to radians.  On two points with the same finite latitude and
    the same finite longitude it returns exactly 0, whatever approximations
    the runtime uses (a cosine being at most 1 in magnitude), provided that
    the latitude in radians is still a finite number; that is so as long as
    the magnitude of the latitude times [Math.PI] is below the binary64
    range.  Beyond, the conversion overflows and the result is [NaN], as it
    is for two identical points with a coordinate that is infinite or
    [NaN]. *)
Theorem haversineKm_same_point (rt : Runtime) (a b : Geo.LatLng) :
  Geo.haversineKm rt a b
  = greatCircle rt (of_Z 6371)
      (radians (Geo.lat a)) (radians (Geo.lat b))
      (radians (sub (Geo.lat b) (Geo.lat a))) (radians (sub (Geo.lng b) (Geo.lng a))) /\
  (isFinite (Geo.lat a) = true -> isFinite (Geo.lng a) = true ->
   JsNumber.eq (Geo.lat a) (Geo.lat b) = true ->
   JsNumber.eq (Geo.lng a) (Geo.lng b) = true ->
   (cosineInRange rt (radians (Geo.lat a)) = true -> Geo.haversineKm rt a b = Fin 0) /\
   (isFinite (radians (Geo.lat a)) = false -> Geo.haversineKm rt a b = NaN)) /\
  (forall x : Q,
      isFinite (radians (Fin x)) = true <->
      (Qabs x * Geo.PI_exact < inject_Z (2 ^ 1024 - 2 ^ 970))%Q) /\
  (a = b -> isFinite (Geo.lat a) && isFinite (Geo.lng a) = false ->
   Geo.haversineKm rt a b = NaN).
Proof.
  split; [reflexivity|]. split; [|split].
  - destruct a as [[| |x1] [| |x2]], b as [[| |y1] [| |y2]]; simpl; try discriminate.
    intros _ _ H1 H2. exact (DistanceFacts.haversineKm_identical rt x1 x2 y1 y2 H1 H2).
  - intros x. change (radians (Fin x)) with (Geo.toRad (Fin x)).
    change (inject_Z (2 ^ 1024 - 2 ^ 970)) with overflow_threshold.
    destruct (DistanceFacts.toRad_cases x) as [[Hlt [y ->]]|[Hle [t ->]]]; simpl.
    + tauto.
    + split; [discriminate|]. intros Hlt. exfalso. exact (Qlt_not_le _ _ Hlt Hle).
  - intros <- Hn. apply DistanceFacts.haversineKm_not_finite.
    unfold Behaviour.finitePoint. now rewrite Hn.
Qed.

Lemma haversineKm_same_point_witness :
  Geo.haversineKm Sample.runtime
    {| Geo.lat := Fin (286328 # 10000); Geo.lng := Fin (772197 # 10000) |}
    {| Geo.lat := Fin (143164 # 5000); Geo.lng := Fin (772197 # 10000) |} = Fin 0 /\
  toFixed2
    (Geo.haversineKm Sample.runtime
       {| Geo.lat := Fin 0; Geo.lng := Fin 0 |} {| Geo.lat := Fin 0; Geo.lng := Fin 1 |})
  = Fin (11119 # 100).
Proof.
  split; [|vm_compute; reflexivity].
  apply (proj1 (proj1 (proj2 (haversineKm_same_point Sample.runtime
                                {| Geo.lat := Fin (286328 # 10000);
                                   Geo.lng := Fin (772197 # 10000) |}
                                {| Geo.lat := Fin (143164 # 5000);
                                   Geo.lng := Fin (772197 # 10000) |}))
                 eq_refl eq_refl eq_refl eq_refl)).
  vm_compute. reflexivity.
Defined.

(** C9 does not hold as stated: two identical points whose latitude is
    [Number("1e308")], a finite number, or [Number("Infinity")], are at the
    distance [NaN] from one another. *)
Lemma identical_points_not_at_zero :
  Js.Number (JStr "1e308") = Fin (inject_Z (10 ^ 308)) /\
  isFinite (Js.Number (JStr "1e308")) = true /\
  Geo.haversineKm Sample.runtime
    {| Geo.lat := Js.Number (JStr "1e308"); Geo.lng := Fin 0 |}
    {| Geo.lat := Js.Number (JStr "1e308"); Geo.lng := Fin 0 |} = NaN /\
  Geo.haversineKm Sample.runtime
    {| Geo.lat := Js.Number (JStr "Infinity"); Geo.lng := Fin 0 |}
    {| Geo.lat := Js.Number (JStr "Infinity"); Geo.lng := Fin 0 |} = NaN.
Proof. repeat split; vm_compute; reflexivity. Qed.

(** C10.  [numberOr(a, fb)] is [Number(a)] when that is a finite number and
    [fb] otherwise.  Hence the effective radius of [buildPickupResponse] is
    [Number(radiusKm)] whenever that is finite: 0 for [null], for the empty
    string and for [false], 1 for [true]; the configured default is used
    only when [Number(radiusKm)] is [NaN] or infinite, as for an absent
    [radiusKm] or a string that is not numeric.  The configured default is
    itself [numberOr(DEFAULT_RADIUS_KM, 100)]: 100 when the variable is
    unset or not numeric.  The result reports the effective radius and the
    two lists are cut at it. *)
Theorem numberOr_and_the_effective_radius :
  (forall a fb,
      (isFinite (Js.Number a) = true -> Geo.numberOr a fb = Js.Number a) /\
      (isFinite (Js.Number a) = false -> Geo.numberOr a fb = fb)) /\
  (forall env radiusKm,
      (isFinite (Js.Number radiusKm) = true ->
       effectiveRadius env radiusKm = Js.Number radiusKm) /\
      (isFinite (Js.Number radiusKm) = false ->
       effectiveRadius env radiusKm = defaultRadius env)) /\
  (forall env,
      effectiveRadius env JNull = Fin 0 /\
      effectiveRadius env (JStr "") = Fin 0 /\
      effectiveRadius env (JBool false) = Fin 0 /\
      effectiveRadius env (JBool true) = Fin 1 /\
      effectiveRadius env JUndefined = defaultRadius env /\
      effectiveRadius env (JStr "ten") = defaultRadius env /\
      effectiveRadius env (JNum NaN) = defaultRadius env /\
      effectiveRadius env (JStr "Infinity") = defaultRadius env) /\
  (forall key version mode,
      defaultRadius {| env_GOOGLE_MAPS_KEY := key; env_SHOPIFY_API_VERSION := version;
                       env_DEFAULT_RADIUS_KM := None; env_GEOCODER_MODE := mode |}
        = Fin 100 /\
      defaultRadius {| env_GOOGLE_MAPS_KEY := key; env_SHOPIFY_API_VERSION := version;
                       env_DEFAULT_RADIUS_KM := Some "far"; env_GEOCODER_MODE := mode |}
        = Fin 100 /\
      defaultRadius {| env_GOOGLE_MAPS_KEY := key; env_SHOPIFY_API_VERSION := version;
                       env_DEFAULT_RADIUS_KM := Some "25"; env_GEOCODER_MODE := mode |}
        = Fin 25) /\
  (forall rt env w fuel req gql shop s r s',
      buildPickupResponse rt env w fuel req gql shop s = (Returned r, s') ->
      input_radiusKm (input r) = effectiveRadius env (radiusKm req) /\
      (forall x, In x (inRadius r) ->
                 le (distanceKm x) (effectiveRadius env (radiusKm req)) = true) /\
      (forall x, In x (outOfRadius r) ->
                 gt (distanceKm x) (effectiveRadius env (radiusKm req)) = true)).
Proof.
  split; [|split; [|split; [|split]]].
  - intros a fb. unfold Geo.numberOr. split; now intros ->.
  - intros env radiusKm. unfold effectiveRadius, defaultRadius, Geo.numberOr at 1 3.
    split; now intros ->.
  - intros env. repeat split; reflexivity.
  - intros key version mode. repeat split; reflexivity.
  - intros rt env w fuel req gql shop s r s' H.
    apply buildPickupResponse_stages in H
      as (pin & gid & qty & locations & visited & _ & _ & _ & ->).
    simpl. repeat split.
    + intros x Hx. now apply In_inRadius in Hx.
    + intros x Hx. now apply In_outOfRadius in Hx.
Qed.

End Claims.

(* ===================================================================== *)
(** ** Facts about requests, caches and errors *)
(* ===================================================================== *)

Module BehaviourFacts.
Import Errors Effects JsString M Geocoding ShopifyApi Pickup Vocabulary Behaviour.
Import MonadFacts GeocodeFacts LocationFacts PickupFacts ThrowFacts.

Lemma only_ret {A} (kind : Call -> bool) (a : A) : only kind (ret a).
Proof. intros s. exists []. simpl. now rewrite app_nil_r. Qed.

Lemma only_throw {A} (kind : Call -> bool) (e : exn) : only kind (@throw A e).
Proof. intros s. exists []. simpl. now rewrite app_nil_r. Qed.

Lemma only_get (kind : Call -> bool) : only kind get.
Proof. intros s. exists []. simpl. now rewrite app_nil_r. Qed.

Lemma only_modify (kind : Call -> bool) (f : State -> State) :
  (forall s, log (f s) = log s) -> only kind (modify f).
Proof. intros Hf s. exists []. simpl. now rewrite Hf, app_nil_r. Qed.

Lemma only_await {A} (kind : Call -> bool) (c : Call) (answer : Http A) :
  kind c = true -> only kind (await c answer).
Proof.
  intros Hc s. exists [c]. unfold await. simpl. rewrite Hc.
  now destruct answer.
Qed.

Lemma only_bind {A B} (kind : Call -> bool) (m : M.t A) (k : A -> M.t B) :
  only kind m -> (forall a, only kind (k a)) -> only kind (bind m k).
Proof.
  intros Hm Hk s. unfold bind. destruct (Hm s) as (c1 & E1 & F1).
  destruct (m s) as [[a|e|] s1]; simpl in E1.
  - destruct (Hk a s1) as (c2 & E2 & F2). exists (c1 ++ c2)%list.
    rewrite E2, E1, app_assoc, forallb_app, F1, F2. now split.
  - now exists c1.
  - now exists c1.
Qed.

Lemma only_try_catch {A} (kind : Call -> bool) (m : M.t A) (h : exn -> M.t A) :
  only kind m -> (forall e, only kind (h e)) -> only kind (try_catch m h).
Proof.
  intros Hm Hh s. unfold try_catch. destruct (Hm s) as (c1 & E1 & F1).
  destruct (m s) as [[a|e|] s1]; simpl in E1.
  - now exists c1.
  - destruct (Hh e s1) as (c2 & E2 & F2). exists (c1 ++ c2)%list.
    rewrite E2, E1, app_assoc, forallb_app, F1, F2. now split.
  - now exists c1.
Qed.

Lemma only_mapM {A B} (kind : Call -> bool) (f : A -> M.t B) (l : list A) :
  (forall a, only kind (f a)) -> only kind (mapM f l).
Proof.
  intros Hf. induction l as [|a l IH]; simpl; [apply only_ret|].
  apply only_bind; [apply Hf|]. intros b.
  apply only_bind; [apply IH|]. intros bs. apply only_ret.
Qed.

Section Trace.
Variable env : Env.
Variable w : World.

Lemma googleStep_trace (key original : string) (is6 is4 : bool) (s : State) :
  let p := googleParams env original is6 is4 in
  let c1 := if String.eqb (mode env) "osm" then [] else [ToGoogle p] in
  match googleStep env w key original is6 is4 s with
  | (Returned None, s') => String.eqb (mode env) "google" = false /\ s' = logged c1 s
  | (Returned (Some g), s') =>
      c1 = [ToGoogle p] /\ s' = set_geocodeCache key g (logged c1 s)
  | (Threw e, s') =>
      String.eqb (mode env) "google" = true /\ c1 = [ToGoogle p] /\ s' = logged c1 s
  | (Running, _) => False
  end.
Proof.
  intros p c1. subst c1. unfold googleStep.
  destruct (String.eqb (mode env) "osm") eqn:Hosm; simpl.
  { apply String.eqb_eq in Hosm. rewrite Hosm. split; [reflexivity|].
    now rewrite logged_nil. }
  unfold try_catch, googleAttempt, bind, await, cacheOk, modify, ret, throw.
  fold p. destruct (google w p) as [r|data]; simpl.
  - destruct (String.eqb (mode env) "google") eqn:Hg; simpl; now repeat split.
  - destruct (firstResult data) as [hit|]; simpl.
    + destruct (Google.geometry_location hit) as [[la ln]|]; simpl; [now split|].
      destruct (String.eqb (mode env) "google") eqn:Hg; simpl; now repeat split.
    + destruct (String.eqb (mode env) "google") eqn:Hg; simpl; now repeat split.
Qed.

Lemma osmStructuredStep_trace (key original : string) (is6 isPinLike : bool) (s : State) :
  let c2 := if isPinLike then [ToNominatim (osmStructuredParams original is6)] else [] in
  match osmStructuredStep w key original is6 isPinLike s with
  | (Returned None, s') => s' = logged c2 s
  | (Returned (Some g), s') =>
      isPinLike = true /\ s' = set_geocodeCache key g (logged c2 s)
  | _ => False
  end.
Proof.
  unfold osmStructuredStep. destruct isPinLike; simpl; [|now rewrite logged_nil].
  pose proof (osmAttempt_effect w key (osmStructuredParams original is6) s) as H.
  destruct (try_catch _ _ s) as [[[g|]|e|] s1]; try contradiction; now subst.
Qed.

Lemma osmFreeformStep_trace (key original : string) (is6 is4 : bool) (s : State) :
  let c3 := [ToNominatim (osmFreeformParams original is6 is4)] in
  match osmFreeformStep w key original is6 is4 s with
  | (Returned None, s') => s' = logged c3 s
  | (Returned (Some g), s') => s' = set_geocodeCache key g (logged c3 s)
  | _ => False
  end.
Proof.
  unfold osmFreeformStep.
  pose proof (osmAttempt_effect w key (osmFreeformParams original is6 is4) s) as H.
  destruct (try_catch _ _ s) as [[[g|]|e|] s1]; try contradiction; now subst.
Qed.

(** The run of [geocode], request by request. *)
Lemma geocodeFrom_trace (called : State) (address : string) (s : State) :
  let key := keyOf address in
  match geocodeFrom env w called address s with
  | (Returned g, s') =>
      (geocodeCache called !! key = Some g /\ s' = s) \/
      (geocodeCache called !! key = None /\
       exists calls, calls <> [] /\ calls `prefix_of` plan env address /\
                     s' = set_geocodeCache key g (logged calls s))
  | (Threw e, s') =>
      geocodeCache called !! key = None /\ s' = logged (plan env address) s /\
      (mode env <> "google" -> e = Thrown (GeocodeNoResultError (trim address)))
  | (Running, _) => False
  end.
Proof.
  intros key. unfold geocodeFrom, plan. fold (keyOf address). fold key.
  destruct (geocodeCache called !! key) as [cached|] eqn:Hc.
  { left. now split. }
  set (original := trim address).
  set (is6 := digits_exactly 6 original). set (is4 := digits_exactly 4 original).
  pose proof (googleStep_trace key original is6 is4 s) as H1. cbv zeta in H1.
  set (c1 := if String.eqb (mode env) "osm" then []
             else [ToGoogle (googleParams env original is6 is4)]) in *.
  set (c2 := if is6 || is4 then [ToNominatim (osmStructuredParams original is6)] else []).
  set (c3 := [ToNominatim (osmFreeformParams original is6 is4)]).
  unfold bind at 1.
  destruct (googleStep env w key original is6 is4 s) as [[[g|]|e|] s1].
  - destruct H1 as [E1 ->]. right. split; [reflexivity|]. exists c1.
    split; [rewrite E1; discriminate|]. split; [|reflexivity]. now eexists.
  - destruct H1 as [Hg ->]. rewrite Hg. unfold bind at 1.
    pose proof (osmStructuredStep_trace key original is6 (is6 || is4) (logged c1 s)) as H2.
    cbv zeta in H2. fold c2 in H2.
    destruct (osmStructuredStep w key original is6 (is6 || is4) (logged c1 s))
      as [[[g|]|e|] s2]; try contradiction.
    + destruct H2 as [Hpin ->]. right. split; [reflexivity|]. rewrite logged_logged.
      exists (c1 ++ c2)%list. split; [|split; [|reflexivity]].
      * subst c2. rewrite Hpin. now destruct c1.
      * exists c3. now rewrite <- app_assoc.
    + subst s2. rewrite logged_logged. unfold bind at 1.
      pose proof (osmFreeformStep_trace key original is6 is4 (logged (c1 ++ c2) s)) as H3.
      cbv zeta in H3. fold c3 in H3.
      destruct (osmFreeformStep w key original is6 is4 (logged (c1 ++ c2) s))
        as [[[g|]|e|] s3]; try contradiction; subst s3; rewrite logged_logged;
        rewrite <- app_assoc.
      * right. split; [reflexivity|]. exists (c1 ++ c2 ++ c3)%list.
        split; [|split; [|reflexivity]].
        -- subst c3. destruct c1; [destruct c2|]; discriminate.
        -- reflexivity.
      * unfold throw. now repeat split.
  - destruct H1 as (Hg & E1 & ->). rewrite Hg, app_nil_r. split; [reflexivity|].
    split; [reflexivity|]. apply String.eqb_eq in Hg. intros Hn. contradiction.
  - contradiction.
Qed.

Lemma geocode_trace (address : string) (s : State) :
  let key := keyOf address in
  match geocode env w address s with
  | (Returned g, s') =>
      (geocodeCache s !! key = Some g /\ s' = s) \/
      (geocodeCache s !! key = None /\
       exists calls, calls <> [] /\ calls `prefix_of` plan env address /\
                     s' = set_geocodeCache key g (logged calls s))
  | (Threw e, s') =>
      geocodeCache s !! key = None /\ s' = logged (plan env address) s /\
      (mode env <> "google" -> e = Thrown (GeocodeNoResultError (trim address)))
  | (Running, _) => False
  end.
Proof. exact (geocodeFrom_trace s address s). Qed.

Lemma geocode_hit (address : string) (s : State) (g : GeoPoint) :
  geocodeCache s !! keyOf address = Some g -> geocode env w address s = (Returned g, s).
Proof. apply geocodeFrom_hit. Qed.

Lemma geocode_remembered (address : string) (s s' : State) (g : GeoPoint) :
  geocode env w address s = (Returned g, s') ->
  geocodeCache s' !! keyOf address = Some g.
Proof.
  intros H. pose proof (geocode_trace address s) as T. rewrite H in T.
  destruct T as [[Hhit ->]|(_ & calls & _ & _ & ->)]; [assumption|].
  simpl. apply lookup_insert_eq.
Qed.

(** [geocode] writes to its own cache at most, and only under a key that
    was absent when it was called: what the cache held then and still
    holds, it goes on holding. *)
Lemma geocodeFrom_keeps (called : State) (address : string) (s : State)
    (base : gmap string GeoPoint) :
  let s' := snd (geocodeFrom env w called address s) in
  (base ⊆ geocodeCache called -> base ⊆ geocodeCache s -> base ⊆ geocodeCache s') /\
  locationGeoCache s' = locationGeoCache s /\
  shopifyLocationsCache s' = shopifyLocationsCache s.
Proof.
  pose proof (geocodeFrom_trace called address s) as T.
  destruct (geocodeFrom env w called address s) as [[g|e|] s']; simpl in *.
  - destruct T as [[_ ->]|(Hmiss & calls & _ & _ & ->)]; [easy|].
    simpl. split; [|easy]. intros Hb Hs. apply insert_subseteq_r; [|exact Hs].
    destruct (base !! keyOf address) as [v|] eqn:E; [|reflexivity].
    apply (lookup_weaken _ _ _ _ E) in Hb. congruence.
  - destruct T as (_ & -> & _). easy.
  - contradiction.
Qed.

Lemma geocode_keeps (address : string) (s : State) :
  let s' := snd (geocode env w address s) in
  geocodeCache s ⊆ geocodeCache s' /\
  locationGeoCache s' = locationGeoCache s /\
  shopifyLocationsCache s' = shopifyLocationsCache s.
Proof.
  destruct (geocodeFrom_keeps s address s (geocodeCache s)) as (A & B & C).
  split; [now apply A|]. now split.
Qed.

Lemma only_geocodeFrom (kind : Call -> bool) (called : State) (address : string) :
  forallb kind (plan env address) = true -> only kind (geocodeFrom env w called address).
Proof.
  intros Hk s. pose proof (geocodeFrom_trace called address s) as T.
  destruct (geocodeFrom env w called address s) as [[g|e|] s']; simpl in *.
  - destruct T as [[_ ->]|(_ & calls & _ & [rest Hp] & ->)].
    + exists []. now rewrite app_nil_r.
    + exists calls. split; [reflexivity|]. rewrite Hp, forallb_app in Hk.
      now apply andb_true_iff in Hk.
  - destruct T as (_ & -> & _). now exists (plan env address).
  - contradiction.
Qed.

Lemma only_geocode (kind : Call -> bool) (address : string) :
  forallb kind (plan env address) = true -> only kind (geocode env w address).
Proof. intros Hk s. now apply only_geocodeFrom. Qed.

(** Where the coordinates of a location that is not cached come from: the
    lookup of its composed address; failing that, the lookup of its postal
    code; failing that too, the marker. *)
Lemma geocodeShopifyLocationFrom_miss (called : State) (loc : Shopify.Location)
    (s : State) :
  locationGeoCache called !! locKey loc = None ->
  exists g s1,
    geocodeShopifyLocationFrom env w called loc s
      = (Returned g, set_locationGeoCache (locKey loc) g s1) /\
    (geocodeFrom env w called (fullAddr loc) s = (Returned g, s1) \/
     (exists e sa zip,
         geocodeFrom env w called (fullAddr loc) s = (Threw e, sa) /\
         zipOf loc = Some zip /\
         geocode env w zip sa = (Returned g, s1)) \/
     (g = fail /\
      exists e sa,
        geocodeFrom env w called (fullAddr loc) s = (Threw e, sa) /\
        match zipOf loc with
        | Some zip => exists e2, geocode env w zip sa = (Threw e2, s1)
        | None => s1 = sa
        end)).
Proof.
  intros Hmiss. unfold geocodeShopifyLocationFrom. fold (locKey loc). rewrite Hmiss.
  unfold try_catch at 1. unfold bind at 1.
  pose proof (geocodeFrom_not_running env w called (fullAddr loc) s) as N1.
  destruct (geocodeFrom env w called (fullAddr loc) s) as [[g|e|] sa] eqn:E1;
    simpl in N1; [|clear N1|congruence].
  { exists g, sa. split; [reflexivity|]. now left. }
  unfold bind at 1. destruct (zipOf loc) as [zip|] eqn:Ez.
  - unfold try_catch, bind at 1.
    pose proof (geocode_not_running env w zip sa) as N2.
    destruct (geocode env w zip sa) as [[g2|e2|] sb] eqn:E2; simpl in N2;
      [| |congruence].
    + exists g2, sb. split; [reflexivity|]. right; left. now exists e, sa, zip.
    + exists fail, sb. split; [reflexivity|]. right; right. split; [reflexivity|].
      exists e, sa. split; [reflexivity|]. now exists e2.
  - exists fail, sa. split; [reflexivity|]. right; right. split; [reflexivity|].
    now exists e, sa.
Qed.

Lemma geocodeShopifyLocation_miss (loc : Shopify.Location) (s : State) :
  locationGeoCache s !! locKey loc = None ->
  exists g s1,
    geocodeShopifyLocation env w loc s
      = (Returned g, set_locationGeoCache (locKey loc) g s1) /\
    (geocode env w (fullAddr loc) s = (Returned g, s1) \/
     (exists e sa zip,
         geocode env w (fullAddr loc) s = (Threw e, sa) /\ zipOf loc = Some zip /\
         geocode env w zip sa = (Returned g, s1)) \/
     (g = fail /\
      exists e sa,
        geocode env w (fullAddr loc) s = (Threw e, sa) /\
        match zipOf loc with
        | Some zip => exists e2, geocode env w zip sa = (Threw e2, s1)
        | None => s1 = sa
        end)).
Proof. exact (geocodeShopifyLocationFrom_miss s loc s). Qed.

(** What a call of [geocodeShopifyLocation] does to the state: nothing on
    a hit; on a miss, lookups that write to the geocode cache at most, under
    keys that were absent at the call, and one entry in the location
    cache. *)
Lemma geocodeShopifyLocationFrom_effect (called : State) (loc : Shopify.Location)
    (s : State) :
  exists g s',
    geocodeShopifyLocationFrom env w called loc s = (Returned g, s') /\
    ((locationGeoCache called !! locKey loc = Some g /\ s' = s) \/
     (locationGeoCache called !! locKey loc = None /\
      locationGeoCache s' = <[locKey loc := g]> (locationGeoCache s))) /\
    (forall base, base ⊆ geocodeCache called -> base ⊆ geocodeCache s ->
                  base ⊆ geocodeCache s') /\
    shopifyLocationsCache s' = shopifyLocationsCache s.
Proof.
  destruct (locationGeoCache called !! locKey loc) as [g|] eqn:Hc.
  { exists g, s. split; [now apply geocodeShopifyLocationFrom_cached|].
    split; [now left|]. split; [auto|reflexivity]. }
  destruct (geocodeShopifyLocationFrom_miss called loc s Hc) as (g & s1 & -> & Hfrom).
  exists g. eexists. split; [reflexivity|]. simpl.
  assert (K : (forall base, base ⊆ geocodeCache called -> base ⊆ geocodeCache s ->
                            base ⊆ geocodeCache s1) /\
              locationGeoCache s1 = locationGeoCache s /\
              shopifyLocationsCache s1 = shopifyLocationsCache s).
  { assert (Z : forall zip sa o sb,
               geocode env w zip sa = (o, sb) ->
               (forall base, base ⊆ geocodeCache sa -> base ⊆ geocodeCache sb) /\
               locationGeoCache sb = locationGeoCache sa /\
               shopifyLocationsCache sb = shopifyLocationsCache sa).
    { intros zip sa o sb E. pose proof (geocode_keeps zip sa) as K. rewrite E in K.
      simpl in K. destruct K as (A & B & C). split; [|now split].
      intros base Hb. etrans; eassumption. }
    assert (F : forall o sa,
               geocodeFrom env w called (fullAddr loc) s = (o, sa) ->
               (forall base, base ⊆ geocodeCache called -> base ⊆ geocodeCache s ->
                             base ⊆ geocodeCache sa) /\
               locationGeoCache sa = locationGeoCache s /\
               shopifyLocationsCache sa = shopifyLocationsCache s).
    { intros o sa E. split.
      - intros base Hb Hs.
        pose proof (geocodeFrom_keeps called (fullAddr loc) s base) as K.
        rewrite E in K. simpl in K. now apply K.
      - pose proof (geocodeFrom_keeps called (fullAddr loc) s ∅) as K.
        rewrite E in K. simpl in K. tauto. }
    destruct Hfrom as [E|[(e & sa & zip & E1 & _ & E2)|(_ & e & sa & E1 & E2)]].
    - exact (F _ _ E).
    - destruct (F _ _ E1) as (A1 & B1 & C1), (Z _ _ _ _ E2) as (A2 & B2 & C2).
      split; [|split; congruence]. intros base Hb Hs. apply A2. now apply A1.
    - destruct (F _ _ E1) as (A1 & B1 & C1). destruct (zipOf loc) as [zip|].
      + destruct E2 as [e2 E2]. destruct (Z _ _ _ _ E2) as (A2 & B2 & C2).
        split; [|split; congruence]. intros base Hb Hs. apply A2. now apply A1.
      + now subst. }
  destruct K as (K1 & K2 & K3). split; [right; split; [reflexivity|now rewrite K2]|].
  now split.
Qed.

Lemma geocodeShopifyLocation_effect (loc : Shopify.Location) (s : State) :
  exists g s',
    geocodeShopifyLocation env w loc s = (Returned g, s') /\
    ((locationGeoCache s !! locKey loc = Some g /\ s' = s) \/
     (locationGeoCache s !! locKey loc = None /\
      locationGeoCache s' = <[locKey loc := g]> (locationGeoCache s))) /\
    geocodeCache s ⊆ geocodeCache s' /\
    shopifyLocationsCache s' = shopifyLocationsCache s.
Proof.
  destruct (geocodeShopifyLocationFrom_effect s loc s) as (g & s' & E & Hc & Hg & Hs).
  exists g, s'. split; [exact E|]. split; [exact Hc|]. split; [now apply Hg|exact Hs].
Qed.

End Trace.

(* ---------- Shopify helpers ---------- *)

Lemma pages_effect (fuel : nat) (gql : Shopify.Client) (hasNext : bool)
    (cursor : option string) (locations : list Shopify.Location) (s : State) :
  match pages fuel gql hasNext cursor locations s with
  | (o, s') =>
      exists calls,
        s' = logged calls s /\ forallb locationsQuery calls = true /\
        match o with
        | Returned l =>
            (hasNext = true -> calls <> []) /\
            exists more, l = (locations ++ more)%list /\
                         forallb Shopify.isActive more = true
        | Threw e => pageFailure gql e
        | Running => length calls = fuel
        end
  end.
Proof.
  revert hasNext cursor locations s.
  induction fuel as [|fuel IH]; intros [|] cursor locations s; cbn [pages].
  - exists []. rewrite logged_nil. now repeat split.
  - exists []. rewrite logged_nil. repeat split; [discriminate|].
    exists []. now rewrite app_nil_r.
  - unfold bind at 1, await.
    destruct (gql (Shopify.LocationsQuery 100 cursor)) as [reason|body] eqn:Hq.
    + exists [ToShopify (Shopify.LocationsQuery 100 cursor)]. repeat split.
      exists cursor. now rewrite Hq.
    + unfold bind at 1, assertNoGqlErrors.
      destruct (Shopify.errors body) as [|m ms] eqn:He.
      * unfold ret at 1.
        pose proof (IH (hasNextOf body) (lastCursor (edgesOf body))
                      (pushActive locations (edgesOf body))
                      (record (ToShopify (Shopify.LocationsQuery 100 cursor)) s)) as H.
        destruct (pages fuel gql _ _ _ _) as [o s1].
        destruct H as (calls & -> & F & H).
        exists (ToShopify (Shopify.LocationsQuery 100 cursor) :: calls).
        rewrite record_logged, logged_logged. split; [reflexivity|].
        split; [exact F|].
        destruct o as [l|e|].
        -- destruct H as (_ & more & -> & Hact). split; [intros _; discriminate|].
           rewrite pushActive_filter, <- app_assoc. eexists. split; [reflexivity|].
           rewrite forallb_app, Hact, andb_true_r.
           apply forallb_forall. intros x Hx. now apply filter_In in Hx.
        -- exact H.
        -- simpl. now rewrite H.
      * exists [ToShopify (Shopify.LocationsQuery 100 cursor)]. repeat split.
        exists cursor. rewrite Hq, He. now split.
  - exists []. rewrite logged_nil. repeat split; [discriminate|].
    exists []. now rewrite app_nil_r.
Qed.

(** What a call of [fetchShopifyLocations] does. *)
Lemma fetchShopifyLocations_effect (fuel : nat) (gql : Shopify.Client) (shop : string)
    (s : State) :
  let key := "locations:" +:+ shop in
  match fetchShopifyLocations fuel gql shop s with
  | (Returned l, s') =>
      (shopifyLocationsCache s !! key = Some l /\ s' = s) \/
      (shopifyLocationsCache s !! key = None /\
       forallb Shopify.isActive l = true /\
       exists calls, calls <> [] /\ forallb locationsQuery calls = true /\
                     s' = set_shopifyLocationsCache key l (logged calls s))
  | (Threw e, s') =>
      shopifyLocationsCache s !! key = None /\ pageFailure gql e /\
      exists calls, forallb locationsQuery calls = true /\ s' = logged calls s
  | (Running, s') =>
      shopifyLocationsCache s !! key = None /\
      exists calls, length calls = fuel /\ forallb locationsQuery calls = true /\
                    s' = logged calls s
  end.
Proof.
  intros key. unfold fetchShopifyLocations. fold key. unfold bind at 1, get.
  destruct (shopifyLocationsCache s !! key) as [cached|] eqn:Hc; [left; now split|].
  pose proof (pages_effect fuel gql true None [] s) as H.
  unfold bind at 1.
  destruct (pages fuel gql true None [] s) as [[l|e|] s1];
    destruct H as (calls & -> & F & H).
  - destruct H as (Hne & more & -> & Hact). right. split; [reflexivity|].
    split; [exact Hact|]. exists calls. split; [auto|]. now split.
  - split; [reflexivity|]. split; [exact H|]. now exists calls.
  - split; [reflexivity|]. now exists calls.
Qed.

Lemma only_pages (kind : Call -> bool) (fuel : nat) (gql : Shopify.Client)
    (hasNext : bool) (cursor : option string) (locations : list Shopify.Location) :
  (forall c, locationsQuery c = true -> kind c = true) ->
  only kind (pages fuel gql hasNext cursor locations).
Proof.
  intros Hk s. pose proof (pages_effect fuel gql hasNext cursor locations s) as H.
  destruct (pages fuel gql hasNext cursor locations s) as [o s1].
  destruct H as (calls & -> & F & _).
  exists calls. split; [reflexivity|].
  rewrite forallb_forall in *. auto.
Qed.

Lemma only_fetchShopifyLocations (kind : Call -> bool) (fuel : nat)
    (gql : Shopify.Client) (shop : string) :
  (forall c, locationsQuery c = true -> kind c = true) ->
  only kind (fetchShopifyLocations fuel gql shop).
Proof.
  intros Hk. unfold fetchShopifyLocations. apply only_bind; [apply only_get|].
  intros s0. destruct (shopifyLocationsCache s0 !! _); [apply only_ret|].
  apply only_bind; [now apply only_pages|]. intros l.
  apply only_bind; [now apply only_modify|]. intros _. apply only_ret.
Qed.

Lemma only_assertNoGqlErrors (kind : Call -> bool) (resp : Shopify.Body) :
  only kind (assertNoGqlErrors resp).
Proof.
  unfold assertNoGqlErrors. destruct (Shopify.errors resp); [apply only_ret|apply only_throw].
Qed.

Lemma only_inventory (kind : Call -> bool) (rt : Runtime) (gql : Shopify.Client)
    (variantId : jsval) :
  (forall c, inventoryQuery c = true -> kind c = true) ->
  only kind (inventory rt gql variantId).
Proof.
  intros Hk. unfold inventory. destruct (Js.truthy variantId); [|apply only_ret].
  apply only_bind.
  - unfold getInventoryItemIdForVariant.
    apply only_bind; [now apply only_await, Hk|]. intros resp.
    apply only_bind; [apply only_assertNoGqlErrors|]. intros _.
    destruct (Shopify.data resp) as [d|]; [|apply only_throw].
    destruct (Shopify.productVariant_inventoryItem_id d) as [id|]; [|apply only_throw].
    destruct (String.eqb id ""); [apply only_throw|apply only_ret].
  - intros gid. apply only_bind; [|intros; apply only_ret].
    unfold getInventoryByLocation.
    apply only_bind; [now apply only_await, Hk|]. intros resp.
    apply only_bind; [apply only_assertNoGqlErrors|]. intros _. apply only_ret.
Qed.

Lemma inventory_falsy (kind : Call -> bool) (rt : Runtime) (gql : Shopify.Client)
    (variantId : jsval) :
  Js.truthy variantId = false -> only kind (inventory rt gql variantId).
Proof. intros H. unfold inventory. rewrite H. apply only_ret. Qed.

Lemma pages_endless (gql : Shopify.Client) :
  (forall cursor, exists body,
      gql (Shopify.LocationsQuery 100 cursor) = Resolved body /\
      Shopify.errors body = [] /\ hasNextOf body = true) ->
  forall fuel cursor locations s,
    exists calls,
      pages fuel gql true cursor locations s = (Running, logged calls s) /\
      length calls = fuel.
Proof.
  intros Hgql. induction fuel as [|fuel IH]; intros cursor locations s; cbn [pages].
  - exists []. now rewrite logged_nil.
  - destruct (Hgql cursor) as (body & Hq & He & Hn).
    unfold bind at 1, await. rewrite Hq.
    unfold bind at 1, assertNoGqlErrors. rewrite He. unfold ret at 1. rewrite Hn.
    destruct (IH (lastCursor (edgesOf body)) (pushActive locations (edgesOf body))
                (record (ToShopify (Shopify.LocationsQuery 100 cursor)) s))
      as (calls & -> & Hlen).
    exists (ToShopify (Shopify.LocationsQuery 100 cursor) :: calls).
    rewrite record_logged, logged_logged. split; [reflexivity|]. simpl. now rewrite Hlen.
Qed.

(** The inventory part reads no cache: its outcome and its requests are
    the same from every state. *)
Lemma inventory_stateless (rt : Runtime) (gql : Shopify.Client) (variantId : jsval) :
  exists o calls,
    forallb inventoryQuery calls = true /\
    forall s, inventory rt gql variantId s = (o, logged calls s).
Proof.
  unfold inventory. destruct (Js.truthy variantId).
  2:{ exists (Returned (None, ∅)), []. split; [reflexivity|].
      intros s. now rewrite logged_nil. }
  unfold getInventoryItemIdForVariant, getInventoryByLocation, bind, await,
    assertNoGqlErrors, ret, throw.
  destruct (gql (Shopify.InvItemQuery _)) as [r|resp].
  { eexists; eexists. split; [|intros s; rewrite record_logged; reflexivity]. reflexivity. }
  destruct (Shopify.errors resp) as [|m ms].
  2:{ eexists; eexists. split; [|intros s; rewrite record_logged; reflexivity]. reflexivity. }
  destruct (Shopify.data resp) as [d|].
  2:{ eexists; eexists. split; [|intros s; rewrite record_logged; reflexivity]. reflexivity. }
  destruct (Shopify.productVariant_inventoryItem_id d) as [id|].
  2:{ eexists; eexists. split; [|intros s; rewrite record_logged; reflexivity]. reflexivity. }
  destruct (String.eqb id "").
  { eexists; eexists. split; [|intros s; rewrite record_logged; reflexivity]. reflexivity. }
  destruct (gql (Shopify.LevelsQuery id)) as [r2|resp2].
  { eexists; eexists. split; [|intros s; norm_log; reflexivity]. reflexivity. }
  destruct (Shopify.errors resp2) as [|m ms].
  - eexists; eexists. split; [|intros s; norm_log; reflexivity]. reflexivity.
  - eexists; eexists. split; [|intros s; norm_log; reflexivity]. reflexivity.
Qed.

(** The map of quantities holds, for each location, the quantity of the
    last level reported for it. *)
Lemma levels_lookup (levels : list Shopify.Level) (m0 : gmap string Z) (id : string) :
  fold_left (fun m e => <[Shopify.location_id e := availableOf e]> m) levels m0 !! id
  = match lastLevel id levels with
    | Some e => Some (availableOf e)
    | None => m0 !! id
    end.
Proof.
  unfold lastLevel. revert m0.
  induction levels as [|e levels IH]; intros m0; cbn [fold_left List.filter]; [reflexivity|].
  rewrite IH. destruct (String.eqb_spec (Shopify.location_id e) id) as [Heq|Hne].
  - rewrite last_cons.
    destruct (last (List.filter _ levels)); [reflexivity|].
    rewrite Heq. now rewrite lookup_insert_eq.
  - destruct (last (List.filter _ levels)); [reflexivity|].
    now rewrite lookup_insert_ne.
Qed.

(* ---------- the resolver ---------- *)

Section Resolver.
Variable rt : Runtime.
Variable env : Env.
Variable w : World.

Lemma only_geocodeShopifyLocationFrom (kind : Call -> bool) (called : State)
    (loc : Shopify.Location) :
  (forall address, forallb kind (plan env address) = true) ->
  only kind (geocodeShopifyLocationFrom env w called loc).
Proof.
  intros Hk. unfold geocodeShopifyLocationFrom.
  destruct (locationGeoCache called !! _); [apply only_ret|].
  assert (Hset : forall key g, only kind (setLoc key g)).
  { intros key g. unfold setLoc. apply only_bind; [now apply only_modify|].
    intros _. apply only_ret. }
  apply only_try_catch.
  - apply only_bind; [now apply only_geocodeFrom|]. intros g. apply Hset.
  - intros _. apply only_bind.
    + destruct (zipOf loc) as [zip|]; [|apply only_ret].
      apply only_try_catch; [|intros _; apply only_ret].
      apply only_bind; [now apply only_geocode|]. intros g2.
      apply only_bind; [apply Hset|]. intros g3. apply only_ret.
    + intros [g2|]; [apply only_ret|apply Hset].
Qed.

Lemma only_geocodeShopifyLocation (kind : Call -> bool) (loc : Shopify.Location) :
  (forall address, forallb kind (plan env address) = true) ->
  only kind (geocodeShopifyLocation env w loc).
Proof. intros Hk s. now apply only_geocodeShopifyLocationFrom. Qed.

Lemma only_buildPickupResponse (kind : Call -> bool) (fuel : nat) (req : Request)
    (gql : Shopify.Client) (shop : string) :
  (forall address, forallb kind (plan env address) = true) ->
  (forall c, locationsQuery c = true -> kind c = true) ->
  only kind (inventory rt gql (variantId req)) ->
  only kind (buildPickupResponse rt env w fuel req gql shop).
Proof.
  intros Hplan Hloc Hinv. unfold buildPickupResponse.
  apply only_bind.
  { unfold validate. destruct (negb (Js.truthy (pincode req))); [apply only_throw|].
    destruct (negb (pincodeOk rt (pincode req))); [apply only_throw|apply only_ret]. }
  intros _. apply only_bind; [now apply only_geocode|]. intros pin.
  apply only_bind; [now apply only_fetchShopifyLocations|]. intros locations.
  apply only_bind; [exact Hinv|]. intros inv.
  apply only_bind; [|intros; apply only_ret].
  unfold visitAll. apply only_bind; [apply only_get|]. intros called.
  apply only_mapM. intros loc. unfold visit.
  apply only_bind; [now apply only_geocodeShopifyLocationFrom|]. intros g. apply only_ret.
Qed.

(** The callbacks leave in the caches what these held when [map] was
    called, and each of them writes to the location cache under the key of
    its own location at most. *)
Lemma visits_keep (called : State) (pin : GeoPoint) (qty : gmap string Z)
    (locations : list Shopify.Location) :
  forall s s' visited,
    mapM (visit rt env w called pin qty) locations s = (Returned visited, s') ->
    (geocodeCache called ⊆ geocodeCache s -> geocodeCache called ⊆ geocodeCache s') /\
    (forall k, (forall loc, In loc locations -> k <> locKey loc) ->
               locationGeoCache s' !! k = locationGeoCache s !! k) /\
    shopifyLocationsCache s' = shopifyLocationsCache s.
Proof.
  induction locations as [|loc l IH]; intros s s' visited H.
  - inversion H; subst. now repeat split.
  - cbn [mapM] in H. apply bind_returned in H as (v & s1 & Hv & H).
    apply bind_returned in H as (vs & s2 & Hvs & H). inversion H; subst. clear H.
    apply visit_returned in Hv as (g & Hg & ->).
    destruct (geocodeShopifyLocationFrom_effect env w called loc s)
      as (g' & s1' & E & Hc & Hgeo & Hshop).
    rewrite Hg in E. inversion E; subst g' s1'. clear E.
    apply IH in Hvs as (A & B & C). split; [|split].
    + intros Hs. apply A. now apply Hgeo.
    + intros k Hk. rewrite B by (intros loc' Hin; apply Hk; now right).
      destruct Hc as [[_ ->]|[_ ->]]; [reflexivity|].
      apply lookup_insert_ne. intros E. exact (Hk loc (or_introl eq_refl) (eq_sym E)).
    + congruence.
Qed.

(** After the callbacks have run, the location cache holds for each
    location the coordinates its callback used, when no two locations have
    the same id. *)
Lemma visits_cached (called : State) (pin : GeoPoint) (qty : gmap string Z)
    (locations : list Shopify.Location) :
  List.NoDup (map Shopify.id locations) ->
  forall s s' visited,
    locationGeoCache called ⊆ locationGeoCache s ->
    mapM (visit rt env w called pin qty) locations s = (Returned visited, s') ->
    locationGeoCache called ⊆ locationGeoCache s' /\
    Forall2
      (fun loc v => exists g, locationGeoCache s' !! locKey loc = Some g /\
                              v = enrich rt pin qty loc g)
      locations visited.
Proof.
  induction locations as [|loc l IH]; intros Hnd s s' visited Hbase H.
  - inversion H; subst. split; [assumption|constructor].
  - cbn [mapM] in H. apply bind_returned in H as (v & s1 & Hv & H).
    apply bind_returned in H as (vs & s2 & Hvs & H). inversion H; subst. clear H.
    apply visit_returned in Hv as (g & Hg & ->).
    destruct (geocodeShopifyLocationFrom_effect env w called loc s)
      as (g' & s1' & E & Hc & _ & _).
    rewrite Hg in E. inversion E; subst g' s1'. clear E.
    cbn [map] in Hnd. apply List.NoDup_cons_iff in Hnd as [Hnew Hnd].
    assert (K : locationGeoCache called ⊆ locationGeoCache s1 /\
                locationGeoCache s1 !! locKey loc = Some g).
    { destruct Hc as [[Hh ->]|[Hm Hi]].
      - split; [assumption|]. eapply lookup_weaken; eassumption.
      - rewrite Hi. split; [now apply insert_subseteq_r|apply lookup_insert_eq]. }
    destruct K as [K1 K2].
    pose proof (visits_keep called pin qty l s1 s' vs Hvs) as (_ & Keep & _).
    destruct (IH Hnd s1 s' vs K1 Hvs) as (A & B).
    split; [assumption|]. constructor; [|assumption].
    exists g. split; [|reflexivity]. rewrite Keep; [assumption|].
    intros loc' Hin E. apply Hnew. apply in_map_iff. exists loc'. split; [|assumption].
    unfold locKey in E. cbv [String.append] in E. now injection E.
Qed.

(** Locations that are cached are visited without any effect. *)
Lemma visits_replayed (called : State) (pin : GeoPoint) (qty : gmap string Z)
    (locations : list Shopify.Location) (visited : list (option EnrichedLocation))
    (s : State) :
  Forall2
    (fun loc v => exists g, locationGeoCache called !! locKey loc = Some g /\
                            v = enrich rt pin qty loc g)
    locations visited ->
  mapM (visit rt env w called pin qty) locations s = (Returned visited, s).
Proof.
  induction 1 as [|loc v l vs (g & Hg & ->) _ IH]; cbn [mapM]; [reflexivity|].
  unfold bind at 1. unfold visit at 1. unfold bind at 1.
  rewrite (geocodeShopifyLocationFrom_cached env w loc called s g Hg). unfold ret at 1.
  unfold bind at 1. rewrite IH. reflexivity.
Qed.

Lemma plan_permitted (req : Request) (address : string) :
  forallb (permitted env req) (plan env address) = true.
Proof.
  unfold plan. destruct (String.eqb (mode env) "osm") eqn:Ho,
    (String.eqb (mode env) "google") eqn:Hg; simpl; rewrite ?Ho, ?Hg; simpl;
    try reflexivity; destruct (_ || _); simpl; rewrite ?Hg; reflexivity.
Qed.

Lemma only_permitted (fuel : nat) (req : Request) (gql : Shopify.Client) (shop : string) :
  only (permitted env req) (buildPickupResponse rt env w fuel req gql shop).
Proof.
  apply only_buildPickupResponse.
  - apply plan_permitted.
  - intros [p|p|[first after|id|id]]; simpl; congruence.
  - destruct (Js.truthy (variantId req)) eqn:Hv.
    + apply only_inventory. intros [p|p|[first after|id|id]]; simpl; congruence.
    + now apply inventory_falsy.
Qed.

(** Every entry of the result describes one of the locations. *)
Lemma survivors_from (pin : GeoPoint) (qty : gmap string Z)
    (locations : list Shopify.Location) (visited : list (option EnrichedLocation))
    (x : EnrichedLocation) :
  survivors rt env w pin qty locations visited ->
  In (Some x) visited ->
  exists loc, In loc locations /\ locationId x = Shopify.id loc /\
              Pickup.name x = Shopify.name loc /\
              fields (Pickup.address x) = Shopify.address loc.
Proof.
  unfold survivors. induction 1 as [|loc v l vs (g & called & sa & sb & _ & Hv) _ IH]; simpl;
    [contradiction|].
  intros [Hx|Hx].
  - exists loc. split; [now left|]. subst v. unfold enrich in Hx.
    destruct (_ && _); [discriminate|]. injection Hx as <-. now repeat split.
  - destruct (IH Hx) as (loc' & Hin & H). exists loc'. split; [now right|exact H].
Qed.

Lemma omap_id_length {A} (l : list (option A)) : length (omap id l) <= length l.
Proof. unfold omap. induction l as [|[a|] l IH]; simpl; lia. Qed.

End Resolver.

(* ---------- the order of the result ---------- *)

Lemma equal_keys_not_after (a b d : num) :
  JsNumber.eq a d = true -> JsNumber.eq b d = true ->
  JsNumber.gt (JsNumber.sub a b) (Fin 0) = false.
Proof.
  rewrite NumberFacts.sub_positive.
  destruct a as [|sa|qa], b as [|sb|qb], d as [|sd|qd]; simpl; try discriminate;
    try reflexivity.
  - intros Ha Hb. apply Bool.eqb_prop in Ha, Hb. subst. now destruct sd.
  - intros Ha Hb. apply Qeq_bool_iff in Ha, Hb.
    apply negb_false_iff, Qle_bool_iff. rewrite Ha, Hb. apply Qle_refl.
Qed.

Section Stable.
Context {A : Type} (key : A -> num) (d : num).

Let cmp (a b : A) : num := JsNumber.sub (key a) (key b).
Let here (x : A) : bool := JsNumber.eq (key x) d.

Lemma insert_stable (x : A) (l : list A) :
  List.filter here (insert cmp x l) = List.filter here (x :: l).
Proof.
  induction l as [|y l IH]; [reflexivity|]. cbn [insert].
  destruct (JsNumber.gt (cmp x y) (Fin 0)) eqn:Hgt; [|reflexivity].
  cbn [List.filter] in *. rewrite IH.
  destruct (here x) eqn:Hx, (here y) eqn:Hy; try reflexivity.
  unfold cmp in Hgt. now rewrite (equal_keys_not_after _ _ d Hx Hy) in Hgt.
Qed.

Lemma sort_stable (l : list A) :
  List.filter here (sort cmp l) = List.filter here l.
Proof.
  induction l as [|x l IH]; [reflexivity|]. cbn [sort]. rewrite insert_stable.
  cbn [List.filter]. now rewrite IH.
Qed.
End Stable.


End BehaviourFacts.

(** The callbacks of [locations.map] and what they leave to one another. *)
Module CallbackFacts.
Import Errors Effects JsString M Geocoding ShopifyApi Pickup Vocabulary Behaviour.
Import MonadFacts GeocodeFacts LocationFacts PickupFacts ThrowFacts BehaviourFacts.

Lemma oblivious_ret {A} (a : A) : oblivious (ret a).
Proof. intros s1 s2. reflexivity. Qed.

Lemma oblivious_throw {A} (e : exn) : oblivious (@throw A e).
Proof. intros s1 s2. reflexivity. Qed.

Lemma oblivious_modify (f : State -> State) : oblivious (modify f).
Proof. intros s1 s2. reflexivity. Qed.

Lemma oblivious_await {A} (c : Call) (answer : Http A) : oblivious (await c answer).
Proof. intros s1 s2. unfold await. now destruct answer. Qed.

Lemma oblivious_bind {A B} (m : M.t A) (k : A -> M.t B) :
  oblivious m -> (forall a, oblivious (k a)) -> oblivious (bind m k).
Proof.
  intros Hm Hk s1 s2. unfold bind. specialize (Hm s1 s2).
  destruct (m s1) as [[a1|e1|] t1], (m s2) as [[a2|e2|] t2]; simpl in Hm;
    try discriminate; try reflexivity.
  - injection Hm as <-. apply Hk.
  - injection Hm as <-. reflexivity.
Qed.

Lemma oblivious_try_catch {A} (m : M.t A) (h : exn -> M.t A) :
  oblivious m -> (forall e, oblivious (h e)) -> oblivious (try_catch m h).
Proof.
  intros Hm Hh s1 s2. unfold try_catch. specialize (Hm s1 s2).
  destruct (m s1) as [[a1|e1|] t1], (m s2) as [[a2|e2|] t2]; simpl in Hm;
    try discriminate; try reflexivity.
  - exact Hm.
  - injection Hm as <-. apply Hh.
Qed.

Section Lookups.
Variable env : Env.
Variable w : World.

Lemma oblivious_cacheOk (key : string) (g : GeoPoint) : oblivious (cacheOk key g).
Proof.
  unfold cacheOk. apply oblivious_bind; [apply oblivious_modify|].
  intros _. apply oblivious_ret.
Qed.

Lemma oblivious_osmResult (key : string) (data : Osm.Data) : oblivious (osmResult key data).
Proof.
  unfold osmResult. destruct data as [[|it items]|].
  - apply oblivious_ret.
  - apply oblivious_bind; [apply oblivious_cacheOk|]. intros g. apply oblivious_ret.
  - apply oblivious_ret.
Qed.

(** The outcome of [geocode] depends on the state it was called in and on
    the providers, not on what the caches have come to hold since. *)
Lemma oblivious_geocodeFrom (called : State) (address : string) :
  oblivious (geocodeFrom env w called address).
Proof.
  unfold geocodeFrom. destruct (geocodeCache called !! _); [apply oblivious_ret|].
  apply oblivious_bind.
  { unfold googleStep. destruct (negb _); [|apply oblivious_ret].
    apply oblivious_try_catch.
    - unfold googleAttempt. apply oblivious_bind; [apply oblivious_await|].
      intros data. destruct (firstResult data) as [hit|].
      + destruct (Google.geometry_location hit) as [[la ln]|]; [|apply oblivious_throw].
        apply oblivious_bind; [apply oblivious_cacheOk|]. intros g. apply oblivious_ret.
      + destruct (String.eqb _ _); [apply oblivious_throw|apply oblivious_ret].
    - intros e. destruct (String.eqb _ _); [apply oblivious_throw|apply oblivious_ret]. }
  intros [g|]; [apply oblivious_ret|].
  apply oblivious_bind.
  { unfold osmStructuredStep. destruct (_ || _); [|apply oblivious_ret].
    apply oblivious_try_catch; [|intros _; apply oblivious_ret].
    apply oblivious_bind; [apply oblivious_await|]. apply oblivious_osmResult. }
  intros [g|]; [apply oblivious_ret|].
  apply oblivious_bind.
  { unfold osmFreeformStep.
    apply oblivious_try_catch; [|intros _; apply oblivious_ret].
    apply oblivious_bind; [apply oblivious_await|]. apply oblivious_osmResult. }
  intros [g|]; [apply oblivious_ret|apply oblivious_throw].
Qed.

(** Queries with the same key are the same lookup. *)
Lemma geocodeFrom_key (called : State) (address address' : string) :
  keyOf address' = keyOf address ->
  geocodeFrom env w called address' = geocodeFrom env w called address.
Proof.
  intros H. assert (Ht : trim address' = trim address).
  { unfold keyOf in H. cbv [String.append] in H. now injection H. }
  unfold geocodeFrom. now rewrite Ht.
Qed.

Lemma grown_refl (called : State) : grown env w called called.
Proof. split; [reflexivity|]. intros address v H1 H2. congruence. Qed.

(** A lookup made now, in a state grown from [called], has the outcome
    of the lookup made in a state that holds what [called] held. *)
Lemma geocode_grown (called s s0 : State) (address : string) :
  grown env w called s -> geocodeCache s0 = geocodeCache called ->
  fst (geocode env w address s) = fst (geocode env w address s0).
Proof.
  intros [Hsub Hnew] H0.
  change (fst (geocodeFrom env w s address s) = fst (geocodeFrom env w s0 address s0)).
  destruct (geocodeCache called !! keyOf address) as [v|] eqn:Hc.
  - rewrite (geocodeFrom_hit env w s address s v);
      [|eapply lookup_weaken; eassumption].
    rewrite (geocodeFrom_hit env w s0 address s0 v); [reflexivity|now rewrite H0].
  - rewrite (geocodeFrom_miss env w s0 called address s0) by (rewrite ?H0; assumption).
    rewrite (oblivious_geocodeFrom called address s0 called).
    destruct (geocodeCache s !! keyOf address) as [v|] eqn:Hs.
    + rewrite (geocodeFrom_hit env w s address s v Hs). simpl.
      symmetry. now apply Hnew.
    + rewrite (geocodeFrom_miss env w s called address s Hs Hc).
      apply oblivious_geocodeFrom.
Qed.

(** What a lookup leaves behind in a grown state is a grown state. *)
Lemma geocodeFrom_grows (called s : State) (address : string) :
  grown env w called s ->
  grown env w called (snd (geocodeFrom env w called address s)).
Proof.
  intros [Hsub Hnew].
  pose proof (geocodeFrom_effect env w called address s) as E. cbv zeta in E.
  pose proof (oblivious_geocodeFrom called address s called) as O.
  destruct (geocodeFrom env w called address s) as [[g|e|] s'] eqn:Eg; simpl in *.
  - destruct E as [[_ ->]|(Hmiss & calls & _ & ->)]; [now split|]. split.
    + simpl. now apply insert_subseteq_r.
    + intros a v Ha Hv. simpl in Hv.
      destruct (decide (keyOf a = keyOf address)) as [Hk|Hk].
      * rewrite Hk, lookup_insert_eq in Hv. injection Hv as <-.
        now rewrite (geocodeFrom_key called address a Hk).
      * rewrite lookup_insert_ne in Hv by congruence. now apply Hnew.
  - destruct E as (_ & calls & _ & ->). now split.
  - contradiction.
Qed.

Lemma geocode_grows (called s : State) (address : string) :
  grown env w called s -> grown env w called (snd (geocode env w address s)).
Proof.
  intros [Hsub Hnew].
  pose proof (geocode_effect env w address s) as E. cbv zeta in E.
  pose proof (geocode_grown called s called address (conj Hsub Hnew) eq_refl) as O.
  destruct (geocode env w address s) as [[g|e|] s'] eqn:Eg; simpl in *.
  - destruct E as [[_ ->]|(Hmiss & calls & _ & ->)]; [now split|].
    assert (Hc : geocodeCache called !! keyOf address = None).
    { destruct (geocodeCache called !! keyOf address) as [v|] eqn:Hc; [|reflexivity].
      apply (lookup_weaken _ _ _ _ Hc) in Hsub. congruence. }
    split.
    + simpl. now apply insert_subseteq_r.
    + intros a v Ha Hv. simpl in Hv.
      destruct (decide (keyOf a = keyOf address)) as [Hk|Hk].
      * rewrite Hk, lookup_insert_eq in Hv. injection Hv as <-.
        rewrite (geocodeFrom_key called address a Hk).
        change (geocode env w address called) with
          (geocodeFrom env w called address called) in O. now rewrite <- O.
      * rewrite lookup_insert_ne in Hv by congruence. now apply Hnew.
  - destruct E as (_ & calls & _ & ->). now split.
  - contradiction.
Qed.

Lemma grown_cache (called s1 s2 : State) :
  geocodeCache s2 = geocodeCache s1 -> grown env w called s1 -> grown env w called s2.
Proof. unfold grown. now intros ->. Qed.

(** A callback that resumes in a grown state obtains the coordinates it
    would obtain alone, and leaves a grown state. *)
Lemma geocodeShopifyLocationFrom_alone (called s : State) (loc : Shopify.Location) :
  grown env w called s ->
  fst (geocodeShopifyLocationFrom env w called loc s)
  = fst (geocodeShopifyLocation env w loc called) /\
  grown env w called (snd (geocodeShopifyLocationFrom env w called loc s)).
Proof.
  intros Hg.
  change (geocodeShopifyLocation env w loc called)
    with (geocodeShopifyLocationFrom env w called loc called).
  destruct (locationGeoCache called !! locKey loc) as [cached|] eqn:Hc.
  { rewrite !(geocodeShopifyLocationFrom_cached env w loc called _ cached Hc).
    now split. }
  destruct (geocodeShopifyLocationFrom_miss env w called loc s Hc)
    as (g & s1 & -> & Hfrom).
  destruct (geocodeShopifyLocationFrom_miss env w called loc called Hc)
    as (g' & s1' & -> & Hfrom').
  cbn [fst snd].
  pose proof (oblivious_geocodeFrom called (fullAddr loc) s called) as O1.
  pose proof (geocodeFrom_grows called s (fullAddr loc) Hg) as G1.
  pose proof (geocodeFrom_effect env w called (fullAddr loc) called) as E1. cbv zeta in E1.
  assert (Hzip : forall zip sa sa',
             snd (geocodeFrom env w called (fullAddr loc) s) = sa ->
             geocodeFrom env w called (fullAddr loc) called = (Threw (Thrown PincodeRequired), sa')
             \/ (exists e, geocodeFrom env w called (fullAddr loc) called = (Threw e, sa')) ->
             fst (geocode env w zip sa) = fst (geocode env w zip sa') /\
             grown env w called (snd (geocode env w zip sa))).
  { intros zip sa sa' <- Hthrew.
    assert (C1 : geocodeCache sa' = geocodeCache called).
    { destruct Hthrew as [H|[e H]]; rewrite H in E1;
        now destruct E1 as (_ & calls & _ & ->). }
    split; [now apply (geocode_grown called)|now apply geocode_grows]. }
  assert (Keep : forall s2, grown env w called s2 ->
                            grown env w called (set_locationGeoCache (locKey loc) g s2)).
  { intros s2. now apply grown_cache. }
  destruct Hfrom as [A|[(e & sa & zip & A & Z & B)|(-> & e & sa & A & B)]];
    destruct Hfrom' as [A'|[(e' & sa' & zip' & A' & Z' & B')|(-> & e' & sa' & A' & B')]];
    rewrite A, A' in O1; simpl in O1; try discriminate; rewrite A in G1; simpl in G1.
  - injection O1 as <-. split; [reflexivity|now apply Keep].
  - rewrite Z in Z'. injection Z' as <-.
    destruct (Hzip zip sa sa') as [O2 G2];
      [now rewrite A|right; now exists e'|].
    rewrite B, B' in O2. simpl in O2. injection O2 as <-.
    rewrite B in G2. split; [reflexivity|now apply Keep].
  - rewrite Z in B'. destruct B' as [e2 B'].
    destruct (Hzip zip sa sa') as [O2 _];
      [now rewrite A|right; now exists e'|].
    rewrite B, B' in O2. discriminate.
  - rewrite Z' in B. destruct B as [e2 B].
    destruct (Hzip zip' sa sa') as [O2 _];
      [now rewrite A|right; now exists e'|].
    rewrite B, B' in O2. discriminate.
  - split; [reflexivity|]. apply Keep.
    destruct (zipOf loc) as [zip|]; [|now subst].
    destruct B as [e2 B].
    destruct (Hzip zip sa sa') as [_ G2];
      [now rewrite A|right; now exists e'|].
    now rewrite B in G2.
Qed.

(** The callbacks of the run obtain, each for its location, the
    coordinates [geocodeShopifyLocation] returns when it is called alone
    in the state [map] was called in. *)
Lemma callbacks_alone (called : State) (locations : list Shopify.Location) :
  forall s, grown env w called s ->
    fst (mapM (geocodeShopifyLocationFrom env w called) locations s)
    = Returned (map (coordinatesAt env w called) locations).
Proof.
  induction locations as [|loc l IH]; intros s Hg; [reflexivity|].
  destruct (geocodeShopifyLocationFrom_alone called s loc Hg) as [O G].
  destruct (returns_geocodeShopifyLocationFrom env w called loc s) as (g & s1 & E).
  rewrite E in O, G. cbn [fst snd] in O, G.
  cbn [mapM map]. unfold bind at 1. rewrite E. unfold bind at 1.
  specialize (IH s1 G).
  destruct (mapM (geocodeShopifyLocationFrom env w called) l s1) as [[gs|e|] s2];
    cbn [fst] in IH; try discriminate.
  injection IH as ->. unfold ret. cbn [fst]. do 2 f_equal.
  unfold coordinatesAt. now rewrite <- O.
Qed.

End Lookups.
Lemma zip_with_map_r {A B C} (h : A -> B -> C) (f : A -> B) (l : list A) :
  zip_with h l (map f l) = map (fun a => h a (f a)) l.
Proof. induction l as [|a l IH]; simpl; [reflexivity|now rewrite IH]. Qed.

End CallbackFacts.

Module OriginFacts.
Import Errors Effects JsString M Geocoding ShopifyApi Pickup Vocabulary Behaviour Origin.
Import MonadFacts GeocodeFacts LocationFacts PickupFacts ThrowFacts BehaviourFacts.

Section Steps.
Variable env : Env.
Variable w : World.

Lemma googleStep_origin (key original : string) (is6 is4 : bool) (s s' : State)
    (g : GeoPoint) :
  googleStep env w key original is6 is4 s = (Returned (Some g), s') ->
  mode env <> "osm" /\
  exists data hit,
    google w (googleParams env original is6 is4) = Resolved data /\
    firstResult data = Some hit /\ ofHit hit = Some g.
Proof.
  unfold googleStep. destruct (String.eqb_spec (mode env) "osm") as [Ho|Ho]; simpl;
    [discriminate|].
  unfold try_catch, googleAttempt, bind, await, cacheOk, modify, ret, throw.
  destruct (google w _) as [r|data]; simpl.
  - destruct (String.eqb (mode env) "google"); discriminate.
  - destruct (firstResult data) as [hit|] eqn:Hf.
    + destruct (Google.geometry_location hit) as [[la ln]|] eqn:Hgeo; simpl.
      * intros [= <- _]. split; [exact Ho|]. exists data, hit.
        unfold ofHit. rewrite Hgeo. now repeat split.
      * destruct (String.eqb (mode env) "google"); discriminate.
    + destruct (String.eqb (mode env) "google"); discriminate.
Qed.

Lemma osmAttempt_origin (key : string) (p : Osm.Params) (s s' : State) (g : GeoPoint) :
  try_catch (bind (await (ToNominatim p) (nominatim w p)) (osmResult key))
    (fun _ => ret None) s = (Returned (Some g), s') ->
  exists it rest, nominatim w p = Resolved (Some (it :: rest)) /\ g = ofItem it.
Proof.
  unfold try_catch, bind, await, osmResult, cacheOk, modify, ret.
  destruct (nominatim w p) as [r|[[|it items]|]]; simpl; try discriminate.
  intros [= <- _]. now exists it, items.
Qed.

Lemma geocode_origin (address : string) (s s' : State) (g : GeoPoint) :
  geocodeCache s !! keyOf address = None ->
  geocode env w address s = (Returned g, s') ->
  provided env w address g.
Proof.
  intros Hmiss. unfold geocode, geocodeFrom, provided. fold (keyOf address).
  unfold bind at 1, get. rewrite Hmiss.
  set (original := trim address).
  set (is6 := digits_exactly 6 original). set (is4 := digits_exactly 4 original).
  unfold bind at 1.
  pose proof (googleStep_trace env w (keyOf address) original is6 is4 s) as T1.
  destruct (googleStep env w (keyOf address) original is6 is4 s) as [[[g1|]|e|] s1] eqn:E1.
  - intros [= <- _]. left. now apply googleStep_origin in E1.
  - destruct T1 as [Hg _]. apply String.eqb_neq in Hg.
    unfold bind at 1. unfold osmStructuredStep.
    destruct (is6 || is4) eqn:Hpin.
    + destruct (try_catch _ _ s1) as [[[g2|]|e|] s2] eqn:E2.
      * intros [= <- _]. right. split; [exact Hg|].
        apply osmAttempt_origin in E2 as (it & rest & Hn & ->).
        exists (osmStructuredParams original is6), it, rest. split; [now right|now split].
      * unfold bind at 1. unfold osmFreeformStep.
        destruct (try_catch _ _ s2) as [[[g3|]|e|] s3] eqn:E3; try discriminate.
        intros [= <- _]. right. split; [exact Hg|].
        apply osmAttempt_origin in E3 as (it & rest & Hn & ->).
        exists (osmFreeformParams original is6 is4), it, rest. split; [now left|now split].
      * discriminate.
      * discriminate.
    + unfold ret at 1. unfold bind at 1. unfold osmFreeformStep.
      destruct (try_catch _ _ s1) as [[[g3|]|e|] s3] eqn:E3; try discriminate.
      intros [= <- _]. right. split; [exact Hg|].
      apply osmAttempt_origin in E3 as (it & rest & Hn & ->).
      exists (osmFreeformParams original is6 is4), it, rest. split; [now left|now split].
  - discriminate.
  - discriminate.
Qed.

End Steps.

Section Echo.
Variable rt : Runtime.
Variable env : Env.
Variable w : World.


End Echo.
End OriginFacts.

Module CatalogueFacts.
Import Errors Effects JsString M Geocoding ShopifyApi Pickup Vocabulary Behaviour Catalogue.
Import MonadFacts GeocodeFacts LocationFacts PickupFacts ThrowFacts BehaviourFacts.

Lemma throwsOnly_ret {A} (kind : exn -> Prop) (a : A) : throwsOnly kind (ret a).
Proof. intros s e s' H. discriminate. Qed.

Lemma throwsOnly_bind {A B} (kind : exn -> Prop) (m : M.t A) (k : A -> M.t B) :
  throwsOnly kind m -> (forall a, throwsOnly kind (k a)) -> throwsOnly kind (bind m k).
Proof.
  intros Hm Hk s e s' H. apply bind_threw in H as [H|(a & s1 & _ & H)].
  - now apply Hm in H.
  - now apply Hk in H.
Qed.

Lemma throwsOnly_returns {A} (kind : exn -> Prop) (m : M.t A) :
  returns m -> throwsOnly kind m.
Proof. intros Hm s e s' H. destruct (Hm s) as (a & s1 & E). congruence. Qed.

Lemma throwsOnly_weaken {A} (kind kind' : exn -> Prop) (m : M.t A) :
  (forall e, kind e -> kind' e) -> throwsOnly kind m -> throwsOnly kind' m.
Proof. intros Hk Hm s e s' H. apply Hk. now apply Hm in H. Qed.

Lemma throwsOnly_await {A} (c : Call) (answer : Http A) :
  throwsOnly shopifyFailure (await c answer).
Proof.
  intros s e s'. unfold await. destruct answer as [reason|d]; intros [= <- _].
  left. now exists reason.
Qed.

Lemma throwsOnly_assertNoGqlErrors (resp : Shopify.Body) :
  throwsOnly shopifyFailure (assertNoGqlErrors resp).
Proof.
  intros s e s'. unfold assertNoGqlErrors.
  destruct (Shopify.errors resp) as [|m ms]; [discriminate|]. intros [= <- _].
  right. now exists (m :: ms).
Qed.

Section Stages.
Variable rt : Runtime.
Variable env : Env.
Variable w : World.

Lemma googleStep_throws (key original : string) (is6 is4 : bool) :
  throwsOnly (geocodeFailure env original) (googleStep env w key original is6 is4).
Proof.
  intros s e s'. unfold googleStep.
  destruct (negb (String.eqb (mode env) "osm")); [|discriminate].
  unfold try_catch, googleAttempt, bind, await, cacheOk, modify, ret, throw.
  destruct (google w _) as [r|data]; simpl.
  - destruct (String.eqb_spec (mode env) "google") as [Hg|Hg]; intros [= <- _].
    right. split; [exact Hg|]. left. now exists r.
  - destruct (firstResult data) as [hit|].
    + destruct (Google.geometry_location hit) as [[la ln]|]; simpl; [discriminate|].
      destruct (String.eqb_spec (mode env) "google") as [Hg|Hg]; intros [= <- _].
      right. split; [exact Hg|]. right. now left.
    + destruct (String.eqb_spec (mode env) "google") as [Hg|Hg]; simpl; intros [= <- _].
      right. split; [exact Hg|]. right. right. now eexists.
Qed.

Lemma geocode_throws (address : string) :
  throwsOnly (geocodeFailure env (trim address)) (geocode env w address).
Proof.
  unfold geocode, geocodeFrom.
  apply throwsOnly_bind; [apply throwsOnly_returns; intros s; now eexists; eexists|].
  intros s0. destruct (geocodeCache s0 !! _); [apply throwsOnly_ret|].
  apply throwsOnly_bind; [apply googleStep_throws|]. intros [g|]; [apply throwsOnly_ret|].
  apply throwsOnly_bind; [apply throwsOnly_returns, returns_osmStructuredStep|].
  intros [g|]; [apply throwsOnly_ret|].
  apply throwsOnly_bind; [apply throwsOnly_returns, returns_osmFreeformStep|].
  intros [g|]; [apply throwsOnly_ret|].
  intros s e s' [= <- _]. now left.
Qed.

Lemma fetchShopifyLocations_throws (fuel : nat) (gql : Shopify.Client) (shop : string) :
  throwsOnly shopifyFailure (fetchShopifyLocations fuel gql shop).
Proof.
  intros s e s' H. pose proof (fetchShopifyLocations_effect fuel gql shop s) as E.
  rewrite H in E. destruct E as (_ & (cursor & F) & _).
  destruct (gql (Shopify.LocationsQuery 100 cursor)) as [reason|body].
  - left. now exists reason.
  - right. destruct F as [Hne ->]. now eexists.
Qed.

Lemma inventory_throws (gql : Shopify.Client) (variantId : jsval) :
  throwsOnly (fun e => shopifyFailure e \/ e = Thrown InventoryItemMissing)
    (inventory rt gql variantId).
Proof.
  assert (Hmissing : throwsOnly (fun e => shopifyFailure e \/ e = Thrown InventoryItemMissing)
                       (@throw string (Thrown InventoryItemMissing))).
  { intros s e s' [= <- _]. now right. }
  unfold inventory. destruct (Js.truthy variantId); [|apply throwsOnly_ret].
  apply throwsOnly_bind.
  - unfold getInventoryItemIdForVariant.
    apply throwsOnly_bind.
    { eapply throwsOnly_weaken; [|apply throwsOnly_await]. now left. }
    intros resp. apply throwsOnly_bind.
    { eapply throwsOnly_weaken; [|apply throwsOnly_assertNoGqlErrors]. now left. }
    intros _. destruct (Shopify.data resp) as [d|]; [|exact Hmissing].
    destruct (Shopify.productVariant_inventoryItem_id d) as [id|]; [|exact Hmissing].
    destruct (String.eqb id ""); [exact Hmissing|apply throwsOnly_ret].
  - intros gid. apply throwsOnly_bind; [|intros; apply throwsOnly_ret].
    unfold getInventoryByLocation.
    apply throwsOnly_bind.
    { eapply throwsOnly_weaken; [|apply throwsOnly_await]. now left. }
    intros resp. apply throwsOnly_bind.
    { eapply throwsOnly_weaken; [|apply throwsOnly_assertNoGqlErrors]. now left. }
    intros _. apply throwsOnly_ret.
Qed.

Lemma buildPickupResponse_throws (fuel : nat) (req : Request) (gql : Shopify.Client)
    (shop : string) :
  throwsOnly (resolverFailure rt env req) (buildPickupResponse rt env w fuel req gql shop).
Proof.
  unfold buildPickupResponse. apply throwsOnly_bind.
  { intros s e s'. unfold validate.
    destruct (negb (Js.truthy (pincode req))); [intros [= <- _]; now left|].
    destruct (negb (pincodeOk rt (pincode req))); [intros [= <- _]; right; now left|].
    discriminate. }
  intros _. apply throwsOnly_bind.
  { eapply throwsOnly_weaken; [|apply geocode_throws].
    intros e H. right; right; left. exact H. }
  intros pin. apply throwsOnly_bind.
  { eapply throwsOnly_weaken; [|apply fetchShopifyLocations_throws].
    intros e H. right; right; right. now left. }
  intros locations. apply throwsOnly_bind.
  { eapply throwsOnly_weaken; [|apply inventory_throws].
    intros e [H| ->]; right; right; right; [now left|now right]. }
  intros inv. apply throwsOnly_bind; [|intros; apply throwsOnly_ret].
  apply throwsOnly_returns, returns_visitAll.
Qed.

Lemma resolverFailure_catalogued (req : Request) (a : AppError) :
  resolverFailure rt env req (Thrown a) ->
  In (Errors.status a, Errors.code a) catalogue.
Proof.
  unfold catalogue.
  intros [H|[H|[[H|(_ & [(r & H)|[H|(r & H)]])]|[[(r & H)|(ms & _ & H)]|H]]]];
    try discriminate; injection H as ->; simpl; tauto.
Qed.

End Stages.
End CatalogueFacts.

(* ===================================================================== *)
(** ** Facts about regular expressions, the routes and the cart *)
(* ===================================================================== *)

Module RegExpFacts.
Import JsString JsRegExp.

Local Arguments String.append : simpl nomatch.

Lemma append_nil_inv (s1 s2 : string) : s1 +:+ s2 = "" -> s1 = "" /\ s2 = "".
Proof. destruct s1; simpl; [now split|discriminate]. Qed.

Lemma nullable_spec (r : re) : nullable r = true <-> Matches r "".
Proof.
  induction r as [| |p|r1 IH1 r2 IH2|r1 IH1 r2 IH2|r IH]; simpl.
  - split; [discriminate|inversion 1].
  - split; [constructor|reflexivity].
  - split; [discriminate|inversion 1].
  - rewrite andb_true_iff, IH1, IH2. split.
    + intros [H1 H2]. exact (MSeq r1 r2 "" "" H1 H2).
    + inversion 1 as [| |? ? s1 s2 H1 H2 E1 E2| | | |]; subst.
      apply append_nil_inv in E2 as [-> ->]. now split.
  - rewrite orb_true_iff, IH1, IH2. split.
    + intros [H|H]; [now apply MAltL|now apply MAltR].
    + inversion 1; subst; [now left|now right].
  - split; [constructor|reflexivity].
Qed.

(** A non-empty word of [r*] starts with a non-empty word of [r]. *)
Lemma star_cons (r : re) (c : ascii) (s : string) :
  Matches (Star r) (String c s) ->
  exists s1 s2, s = s1 +:+ s2 /\ Matches r (String c s1) /\ Matches (Star r) s2.
Proof.
  intros H. remember (Star r) as r' eqn:Er. remember (String c s) as t eqn:Et.
  revert s Et. induction H as [| | | | | |r0 s1 s2 H1 _ H2 IH2]; intros u Eu;
    try discriminate.
  injection Er as ->. destruct s1 as [|c1 s1]; simpl in Eu.
  - now apply IH2.
  - injection Eu as -> <-. now exists s1, s2.
Qed.

Lemma deriv_spec (c : ascii) (r : re) (s : string) :
  Matches (deriv c r) s <-> Matches r (String c s).
Proof.
  revert s. induction r as [| |p|r1 IH1 r2 IH2|r1 IH1 r2 IH2|r IH]; intros s; simpl.
  - split; inversion 1.
  - split; inversion 1.
  - destruct (p c) eqn:Hp.
    + split.
      * inversion 1; subst. now constructor.
      * inversion 1; subst. constructor.
    + split; [inversion 1|]. inversion 1; subst. congruence.
  - assert (Hseq : Matches (Seq (deriv c r1) r2) s ->
                   Matches (Seq r1 r2) (String c s)).
    { inversion 1 as [| |? ? s1 s2 H1 H2 E1 E2| | | |]; subst.
      apply IH1 in H1. exact (MSeq r1 r2 (String c s1) s2 H1 H2). }
    assert (Hback : Matches (Seq r1 r2) (String c s) ->
                    Matches (Seq (deriv c r1) r2) s \/
                    (Matches r1 "" /\ Matches (deriv c r2) s)).
    { inversion 1 as [| |? ? s1 s2 H1 H2 E1 E2| | | |]; subst.
      destruct s1 as [|c1 s1]; simpl in E2.
      - right. subst s2. split; [assumption|now apply IH2].
      - injection E2 as -> <-. left. apply MSeq; [now apply IH1|assumption]. }
    destruct (nullable r1) eqn:Hn.
    + split.
      * inversion 1; subst; [now apply Hseq|].
        apply nullable_spec in Hn.
        match goal with H : Matches (deriv c r2) s |- _ => apply IH2 in H;
          exact (MSeq r1 r2 "" (String c s) Hn H) end.
      * intros H. apply Hback in H as [H|[_ H]]; [now apply MAltL|now apply MAltR].
    + split; [exact Hseq|]. intros H. apply Hback in H as [H|[H _]]; [assumption|].
      apply nullable_spec in H. congruence.
  - split.
    + inversion 1; subst; [apply MAltL|apply MAltR]; [now apply IH1|now apply IH2].
    + inversion 1; subst; [apply MAltL|apply MAltR]; [now apply IH1|now apply IH2].
  - split.
    + inversion 1 as [| |? ? s1 s2 H1 H2 E1 E2| | | |]; subst.
      apply IH in H1. exact (MStarMore r (String c s1) s2 H1 H2).
    + intros H. apply star_cons in H as (s1 & s2 & -> & H1 & H2).
      apply MSeq; [now apply IH|assumption].
Qed.

(** The test decides the language. *)
Lemma test_spec (r : re) (s : string) : test r s = true <-> Matches r s.
Proof.
  revert r. induction s as [|c s IH]; intros r; simpl.
  - apply nullable_spec.
  - rewrite IH. apply deriv_spec.
Qed.

Lemma lit_spec (text s : string) : Matches (lit text) s <-> s = text.
Proof.
  revert s. induction text as [|c text IH]; intros s; simpl.
  - split; [now inversion 1|intros ->; constructor].
  - split.
    + inversion 1 as [| |? ? s1 s2 H1 H2 E1 E2| | | |]; subst.
      inversion H1; subst. apply IH in H2. subst.
      match goal with H : Ascii.eqb c _ = true |- _ => apply Ascii.eqb_eq in H; now subst end.
    + intros ->. apply (MSeq _ _ (String c "") text).
      * constructor. apply Ascii.eqb_refl.
      * now apply IH.
Qed.

Lemma star_class_spec (p : ascii -> bool) (s : string) :
  Matches (Star (Class p)) s <-> allChars p s = true.
Proof.
  split.
  - intros H. remember (Star (Class p)) as r eqn:Er.
    induction H as [| | | | | |r0 s1 s2 H1 _ H2 IH2]; try discriminate; [reflexivity|].
    injection Er as ->. inversion H1; subst. simpl.
    apply andb_true_iff. split; [assumption|now apply IH2].
  - induction s as [|c s IH]; simpl; [constructor|].
    intros H. apply andb_true_iff in H as [Hc Hs].
    apply (MStarMore _ (String c "") s); [now constructor|now apply IH].
Qed.

Lemma times_class_spec (p : ascii -> bool) (n : nat) (s : string) :
  Matches (times n (Class p)) s <-> String.length s = n /\ allChars p s = true.
Proof.
  revert s. induction n as [|n IH]; intros s; simpl.
  - split.
    + inversion 1. now split.
    + intros [H _]. destruct s; [constructor|discriminate].
  - split.
    + inversion 1 as [| |? ? s1 s2 H1 H2 E1 E2| | | |]; subst.
      inversion H1; subst. apply IH in H2 as [<- H2]. simpl.
      split; [reflexivity|]. now apply andb_true_iff.
    + intros [Hlen H]. destruct s as [|c s]; [discriminate|].
      simpl in *. apply andb_true_iff in H as [Hc Hs].
      apply (MSeq _ _ (String c "") s); [now constructor|].
      apply IH. split; [lia|assumption].
Qed.

(** The words of [[p][q]*text]. *)
Lemma class_star_lit_spec (p q : ascii -> bool) (text s : string) :
  Matches (Seq (Class p) (Seq (Star (Class q)) (lit text))) s <->
  exists c label, s = String c label +:+ text /\ p c = true /\ allChars q label = true.
Proof.
  split.
  - intros M. inversion M as [| |? ? s1 s2 M1 M2 E1 E2| | | |]; subst. clear M.
    inversion M1 as [|? c Hc| | | | |]; subst. clear M1.
    inversion M2 as [| |? ? s3 s4 M3 M4 E3 E4| | | |]; subst. clear M2.
    apply star_class_spec in M3. apply lit_spec in M4. subst s4.
    now exists c, s3.
  - intros (c & label & -> & Hc & Hl).
    apply (MSeq _ _ (String c "") (label +:+ text)); [now constructor|].
    apply MSeq; [now apply star_class_spec|now apply lit_spec].
Qed.

Lemma allChars_app (p : ascii -> bool) (s1 s2 : string) :
  allChars p (s1 +:+ s2) = allChars p s1 && allChars p s2.
Proof.
  induction s1 as [|c s1 IH]; simpl; [reflexivity|]. now rewrite IH, andb_assoc.
Qed.

Lemma allChars_weaken (p q : ascii -> bool) (s : string) :
  (forall c, p c = true -> q c = true) -> allChars p s = true -> allChars q s = true.
Proof.
  intros Hpq. induction s as [|c s IH]; simpl; [reflexivity|].
  intros H. apply andb_true_iff in H as [Hc Hs]. now rewrite (Hpq c Hc), IH.
Qed.

Lemma allDigits_allChars (s : string) : allDigits s = allChars isDigit s.
Proof. induction s as [|c s IH]; simpl; [reflexivity|now rewrite IH]. Qed.

End RegExpFacts.

Module RouteFacts.
Import Errors Effects JsString M Pickup Vocabulary Routes Frontend.
Import MonadFacts.

Lemma makeShopifyGqlClient_cases (rt : Runtime) (env : Env) (se : Session) (s : State) :
  accessToken se <> "" ->
  (shop se = "" /\
   Client.makeShopifyGqlClient rt env (JStr (shop se)) (JStr (accessToken se)) s
     = (Threw (Thrown Client.ShopifyAuthMissing), s)) \/
  (shop se <> "" /\
   exists cfg,
     Client.makeShopifyGqlClient rt env (JStr (shop se)) (JStr (accessToken se)) s
       = (Returned cfg, s) /\
     Client.baseURL cfg
       = "https://" +:+ shop se +:+ "/admin/api/" +:+ Config.SHOPIFY_API_VERSION env
           +:+ "/graphql.json").
Proof.
  intros Ht. unfold Client.makeShopifyGqlClient. simpl.
  apply String.eqb_neq in Ht. rewrite Ht. simpl.
  destruct (String.eqb_spec (shop se) "") as [E|E]; simpl.
  - left. now split.
  - right. split; [exact E|]. eexists. split; reflexivity.
Qed.

Lemma authenticated_some (session : option Session) (se : Session) :
  authenticated session = Some se <-> session = Some se /\ accessToken se <> "".
Proof.
  unfold authenticated. destruct session as [se'|].
  - destruct (String.eqb_spec (accessToken se') "") as [E|E].
    + split; [discriminate|]. intros [[= ->] H]. contradiction.
    + split; [intros [= ->]; now split|]. now intros [[= ->] _].
  - split; [discriminate|]. now intros [? _].
Qed.

End RouteFacts.

Module CartFacts.
Import JsString DeliveryOptions Frontend.

Local Arguments String.append : simpl nomatch.

Lemma prefix_spec (p s : string) :
  String.prefix p s = true <-> exists post, s = p +:+ post.
Proof.
  revert s. induction p as [|c p IH]; intros [|c' s]; simpl.
  - split; [now exists ""|reflexivity].
  - split; [now eexists|reflexivity].
  - split; [discriminate|intros [post H]; discriminate].
  - destruct (Ascii.ascii_dec c c') as [->|Hc].
    + rewrite IH. split; intros [post H]; exists post; congruence.
    + split; [discriminate|]. intros [post H]. congruence.
Qed.

Lemma includes_spec (needle s : string) :
  includes needle s = true <-> exists pre post, s = pre +:+ needle +:+ post.
Proof.
  induction s as [|c s IH].
  - cbn [includes]. rewrite orb_false_r, prefix_spec. split.
    + intros [post H]. now exists "", post.
    + intros (pre & post & H). destruct pre; [now exists post|discriminate].
  - cbn [includes]. rewrite orb_true_iff, prefix_spec, IH. split.
    + intros [[post H]|(pre & post & H)].
      * now exists "", post.
      * exists (String c pre), post. simpl. now rewrite H.
    + intros (pre & post & H). destruct pre as [|c' pre]; simpl in H.
      * left. now exists post.
      * right. exists pre, post. congruence.
Qed.

Lemma toLowerCase_idempotent (s : string) : toLowerCase (toLowerCase s) = toLowerCase s.
Proof.
  induction s as [|c s IH]; simpl; [reflexivity|]. rewrite IH. f_equal.
  unfold lowerChar.
  destruct c as [[|] [|] [|] [|] [|] [|] [|] [|]]; reflexivity.
Qed.

(** The operations, read off the list of all options. *)
Lemma operations_of_options (cart : Cart) :
  cartDeliveryOptionsTransformRun cart
  = map hide
      (List.filter (fun o => xorb (isClickAndCollect o) (hasClickAndCollectProduct cart))
         (optionsOf cart)).
Proof.
  unfold cartDeliveryOptionsTransformRun, optionsOf.
  destruct (hasClickAndCollectProduct cart);
    induction (deliveryGroups cart) as [|g gs IH]; simpl; try reflexivity;
    rewrite IH, List.filter_app, map_app; f_equal; f_equal;
    apply List.filter_ext; intros o; now destruct (isClickAndCollect o).
Qed.

Lemma hidden_map_hide (l : list DeliveryOption) (o : DeliveryOption) :
  hidden (map hide l) o = existsb (fun o' => String.eqb (handle o') (handle o)) l.
Proof. unfold hidden. induction l as [|x l IH]; simpl; [reflexivity|now rewrite IH]. Qed.

End CartFacts.

(* ===================================================================== *)
(** ** Further properties of the resolver *)
(* ===================================================================== *)

Section Further.
Import Errors Effects JsString JsNumber M Geocoding ShopifyApi Pickup Vocabulary Behaviour.
Import Origin.
Import MonadFacts GeocodeFacts LocationFacts PickupFacts ThrowFacts BehaviourFacts.
Import OriginFacts DistanceFacts CallbackFacts.

(** X1.  A result of [geocode] is remembered: once a call has returned,
    every later call for a query with the same trimmed text returns the
    same result from the cache, with no request and no change of state,
    whatever the providers would answer by then.  (The cache is the finite
    map of the model: the entry has neither expired nor been evicted.) *)
Theorem geocode_result_is_remembered (env : Env) (w : World) (address : string)
    (s s' : State) (g : GeoPoint) :
  geocode env w address s = (Returned g, s') ->
  forall w2 address2,
    trim address2 = trim address ->
    geocode env w2 address2 s' = (Returned g, s').
Proof.
  intros H w2 address2 Ht. apply geocode_hit. unfold keyOf. rewrite Ht.
  exact (geocode_remembered env w address s s' g H).
Qed.

Lemma geocode_result_is_remembered_witness :
  exists g s',
    geocode (Sample.env_of_mode None) Sample.india "110001" emptyState = (Returned g, s') /\
    geocode (Sample.env_of_mode None) Sample.offline " 110001 " s' = (Returned g, s').
Proof.
  eexists. eexists. split; [vm_compute; reflexivity|].
  eapply (geocode_result_is_remembered (Sample.env_of_mode None) Sample.india "110001"
            emptyState).
  - vm_compute. reflexivity.
  - reflexivity.
Defined.

(** X2.  The run of [geocode], request by request.  A cached query is
    answered with no request.  Otherwise the strategies the mode allows are
    tried in a fixed order (the primary provider unless the mode is "osm";
    then, unless the mode is "google", the structured search of the
    secondary provider for a query of four or six digits, and its free-form
    search): a result is returned after a non-empty initial part of these
    requests and stored under the key of the query, and an error is thrown
    only after all of them, with the caches untouched.  Outside the mode
    "google" the only error is [GeocodeNoResultError] with the trimmed
    query: what the providers' requests fail with is never passed on. *)
Theorem geocode_tries_the_allowed_strategies (env : Env) (w : World) (address : string)
    (s : State) :
  match geocode env w address s with
  | (Returned g, s') =>
      (geocodeCache s !! keyOf address = Some g /\ s' = s) \/
      (geocodeCache s !! keyOf address = None /\
       exists calls, calls <> [] /\ calls `prefix_of` plan env address /\
                     s' = set_geocodeCache (keyOf address) g (logged calls s))
  | (Threw e, s') =>
      geocodeCache s !! keyOf address = None /\ s' = logged (plan env address) s /\
      (mode env <> "google" -> e = Thrown (GeocodeNoResultError (trim address)))
  | (Running, _) => False
  end.
Proof. exact (geocode_trace env w address s). Qed.

(** X3.  [geocode] makes up no coordinates: a result that does not come
    from the cache is the first result of the primary provider's answer
    (status "OK", outside the mode "osm"), with its location and its
    formatted address, or the first record of an answer of the secondary
    provider (outside the mode "google") to the free-form search or, for a
    query of four or six digits, to the structured search, with [Number]
    applied to its [lat] and [lon]. *)
Theorem geocode_results_come_from_a_provider (env : Env) (w : World) (address : string)
    (s s' : State) (g : GeoPoint) :
  geocodeCache s !! keyOf address = None ->
  geocode env w address s = (Returned g, s') ->
  provided env w address g.
Proof. intros Hmiss H. exact (geocode_origin env w address s s' g Hmiss H). Qed.

Lemma geocode_results_come_from_a_provider_witness :
  provided (Sample.env_of_mode None) Sample.india "110001"
    {| lat := Fin (35791 # 1250); lng := Fin (772197 # 10000); formatted := "110001" |}.
Proof.
  apply (geocode_results_come_from_a_provider (Sample.env_of_mode None) Sample.india
           "110001" emptyState
           (set_geocodeCache "geo:110001"
              {| lat := Fin (35791 # 1250); lng := Fin (772197 # 10000);
                 formatted := "110001" |}
              (logged [ToGoogle (Google.Components (Some "test-key")
                                   "postal_code:110001|country:IN");
                       ToNominatim (Osm.Structured "110001" "India")] emptyState))).
  - reflexivity.
  - vm_compute. reflexivity.
Defined.

(** X4.  [geocodeShopifyLocation] always returns, whatever the providers
    do; the coordinates it returns are then in the location cache under the
    key of the location, no other entry of that cache and nothing of the
    cache of location lists has changed, and every later call for the
    location returns the same coordinates with no request (as long as the
    entry has neither expired nor been evicted, which the model leaves
    out). *)
Theorem geocodeShopifyLocation_always_answers (env : Env) (w : World)
    (loc : Shopify.Location) (s : State) :
  exists g s',
    geocodeShopifyLocation env w loc s = (Returned g, s') /\
    locationGeoCache s' !! locKey loc = Some g /\
    (forall k, k <> locKey loc -> locationGeoCache s' !! k = locationGeoCache s !! k) /\
    shopifyLocationsCache s' = shopifyLocationsCache s /\
    forall w2, geocodeShopifyLocation env w2 loc s' = (Returned g, s').
Proof.
  destruct (geocodeShopifyLocation_effect env w loc s) as (g & s' & E & Hc & _ & Hshop).
  exists g, s'. split; [exact E|].
  assert (Hg : locationGeoCache s' !! locKey loc = Some g).
  { destruct Hc as [[Hh ->]|[_ ->]]; [assumption|apply lookup_insert_eq]. }
  split; [exact Hg|]. split.
  - intros k Hk. destruct Hc as [[_ ->]|[_ ->]]; [reflexivity|now apply lookup_insert_ne].
  - split; [exact Hshop|]. intros w2. now apply geocodeShopifyLocation_cached.
Qed.

(** X5.  Where the coordinates of a location that is not cached come
    from: the lookup of its composed address when that succeeds; otherwise
    the lookup of its postal code, when it has one and that succeeds;
    otherwise the (0, 0) marker.  Whichever it is, it is stored in the
    location cache. *)
Theorem geocodeShopifyLocation_falls_back_to_the_postal_code (env : Env) (w : World)
    (loc : Shopify.Location) (s : State) :
  locationGeoCache s !! locKey loc = None ->
  exists g s1,
    geocodeShopifyLocation env w loc s
      = (Returned g, set_locationGeoCache (locKey loc) g s1) /\
    (geocode env w (fullAddr loc) s = (Returned g, s1) \/
     (exists e sa zip,
         geocode env w (fullAddr loc) s = (Threw e, sa) /\ zipOf loc = Some zip /\
         geocode env w zip sa = (Returned g, s1)) \/
     (g = fail /\
      exists e sa,
        geocode env w (fullAddr loc) s = (Threw e, sa) /\
        match zipOf loc with
        | Some zip => exists e2, geocode env w zip sa = (Threw e2, s1)
        | None => s1 = sa
        end)).
Proof. exact (geocodeShopifyLocation_miss env w loc s). Qed.

Lemma geocodeShopifyLocation_falls_back_to_the_postal_code_witness :
  exists g s1,
    geocodeShopifyLocation (Sample.env_of_mode None) Sample.india Storefront.depot
      emptyState
      = (Returned g, set_locationGeoCache (locKey Storefront.depot) g s1) /\
    (geocode (Sample.env_of_mode None) Sample.india (fullAddr Storefront.depot) emptyState
       = (Returned g, s1) \/
     (exists e sa zip,
         geocode (Sample.env_of_mode None) Sample.india (fullAddr Storefront.depot)
           emptyState = (Threw e, sa) /\
         zipOf Storefront.depot = Some zip /\
         geocode (Sample.env_of_mode None) Sample.india zip sa = (Returned g, s1)) \/
     (g = fail /\
      exists e sa,
        geocode (Sample.env_of_mode None) Sample.india (fullAddr Storefront.depot)
          emptyState = (Threw e, sa) /\
        exists e2, geocode (Sample.env_of_mode None) Sample.india "110001" sa
                   = (Threw e2, s1))).
Proof.
  exact (geocodeShopifyLocation_falls_back_to_the_postal_code
           (Sample.env_of_mode None) Sample.india Storefront.depot emptyState eq_refl).
Defined.

(** X6.  What a call of [fetchShopifyLocations] does.  A cached list is
    returned with no request.  Otherwise a list is returned only after at
    least one request, all its locations are active, and it is stored under
    the shop; a call that throws fails with the rejection of a page request
    or with a [ShopifyGQLError] carrying the messages of a page's error
    array, and neither it nor a call still in its loop has written to a
    cache: the locations of the pages read so far are not kept. *)
Theorem fetchShopifyLocations_caches_complete_lists_only (fuel : nat)
    (gql : Shopify.Client) (shop : string) (s : State) :
  let key := "locations:" +:+ shop in
  match fetchShopifyLocations fuel gql shop s with
  | (Returned l, s') =>
      (shopifyLocationsCache s !! key = Some l /\ s' = s) \/
      (shopifyLocationsCache s !! key = None /\
       forallb Shopify.isActive l = true /\
       exists calls, calls <> [] /\ forallb locationsQuery calls = true /\
                     s' = set_shopifyLocationsCache key l (logged calls s))
  | (Threw e, s') =>
      shopifyLocationsCache s !! key = None /\ pageFailure gql e /\
      exists calls, forallb locationsQuery calls = true /\ s' = logged calls s
  | (Running, s') =>
      shopifyLocationsCache s !! key = None /\
      exists calls, length calls = fuel /\ forallb locationsQuery calls = true /\
                    s' = logged calls s
  end.
Proof. exact (fetchShopifyLocations_effect fuel gql shop s). Qed.

(** X7.  A list of locations is remembered: once [fetchShopifyLocations]
    has returned for a shop, every later call for that shop returns the
    same list with no request, whatever client it is given (as long as the
    entry has neither expired nor been evicted, which the model leaves
    out). *)
Theorem fetchShopifyLocations_result_is_remembered (fuel : nat) (gql : Shopify.Client)
    (shop : string) (s s' : State) (l : list Shopify.Location) :
  fetchShopifyLocations fuel gql shop s = (Returned l, s') ->
  forall fuel2 gql2, fetchShopifyLocations fuel2 gql2 shop s' = (Returned l, s').
Proof.
  intros H fuel2 gql2. pose proof (fetchShopifyLocations_effect fuel gql shop s) as E.
  rewrite H in E. cbv zeta in E.
  assert (Hc : shopifyLocationsCache s' !! ("locations:" +:+ shop) = Some l).
  { destruct E as [[Hh ->]|(_ & _ & calls & _ & _ & ->)]; [assumption|].
    simpl. apply lookup_insert_eq. }
  unfold fetchShopifyLocations, bind, get. now rewrite Hc.
Qed.

Lemma fetchShopifyLocations_result_is_remembered_witness :
  exists l s',
    fetchShopifyLocations 10 (Sample.shopify Sample.storePages Sample.levels)
      "demo.myshopify.com" emptyState = (Returned l, s') /\
    fetchShopifyLocations 0 (fun _ => Rejected "ECONNREFUSED") "demo.myshopify.com" s'
      = (Returned l, s').
Proof.
  eexists. eexists. split; [vm_compute; reflexivity|].
  eapply (fetchShopifyLocations_result_is_remembered 10
            (Sample.shopify Sample.storePages Sample.levels) "demo.myshopify.com"
            emptyState).
  vm_compute. reflexivity.
Defined.

(** X8.  The loop of [fetchShopifyLocations] has no bound of its own: it
    ends when a page reports no further page.  Against a server that
    answers every page request without errors and reports a further page
    each time, a call for a shop that is not cached is still in its loop
    after any number of requests, and has cached nothing. *)
Theorem fetchShopifyLocations_needs_a_last_page (gql : Shopify.Client) (shop : string)
    (s : State) :
  shopifyLocationsCache s !! ("locations:" +:+ shop) = None ->
  (forall cursor, exists body,
      gql (Shopify.LocationsQuery 100 cursor) = Resolved body /\
      Shopify.errors body = [] /\ hasNextOf body = true) ->
  forall fuel, exists calls,
    fetchShopifyLocations fuel gql shop s = (Running, logged calls s) /\
    length calls = fuel.
Proof.
  intros Hc Hgql fuel. unfold fetchShopifyLocations. unfold bind at 1, get. rewrite Hc.
  destruct (pages_endless gql Hgql fuel None [] s) as (calls & E & Hlen).
  exists calls. unfold bind at 1. rewrite E. now split.
Qed.

Lemma fetchShopifyLocations_needs_a_last_page_witness :
  exists calls,
    fetchShopifyLocations 7 (fun _ => Resolved (Sample.pageBody [] true))
      "demo.myshopify.com" emptyState = (Running, logged calls emptyState) /\
    length calls = 7.
Proof.
  apply (fetchShopifyLocations_needs_a_last_page
           (fun _ => Resolved (Sample.pageBody [] true)) "demo.myshopify.com" emptyState).
  - reflexivity.
  - intros cursor. exists (Sample.pageBody [] true). now repeat split.
Defined.

(** X9.  [getInventoryItemIdForVariant] makes exactly one request, for
    an id that starts with "gid://": the argument itself when it already
    does (so that normalising twice changes nothing), and the argument
    behind the prefix of product variants otherwise.  It returns the id of
    the inventory item in the answer only when that id is not empty; it
    throws the rejection of the request, a [ShopifyGQLError] with the
    messages of the answer, or the 404 error [inventory_item_missing] when
    the answer names no inventory item. *)
Theorem inventory_item_of_a_variant (rt : Runtime) (gql : Shopify.Client) (v : jsval)
    (s : State) :
  let gid := variantGid rt v in
  startsWith "gid://" gid = true /\
  variantGid rt (JStr gid) = gid /\
  match getInventoryItemIdForVariant rt gql v s with
  | (o, s') =>
      s' = record (ToShopify (Shopify.InvItemQuery gid)) s /\
      match o with
      | Returned id =>
          id <> "" /\
          exists body d,
            gql (Shopify.InvItemQuery gid) = Resolved body /\
            Shopify.errors body = [] /\ Shopify.data body = Some d /\
            Shopify.productVariant_inventoryItem_id d = Some id
      | Threw e =>
          (exists reason,
              gql (Shopify.InvItemQuery gid) = Rejected reason /\ e = AxiosError reason) \/
          (exists body,
              gql (Shopify.InvItemQuery gid) = Resolved body /\
              Shopify.errors body <> [] /\
              e = Thrown (ShopifyGQLError (Shopify.errors body))) \/
          (e = Thrown InventoryItemMissing /\ Errors.status InventoryItemMissing = 404%Z)
      | Running => False
      end
  end.
Proof.
  intros gid.
  assert (Hgid : startsWith "gid://" gid = true).
  { subst gid. unfold variantGid.
    destruct (startsWith "gid://" (Js.ToString rt v)) eqn:E; [exact E|reflexivity]. }
  split; [exact Hgid|]. split.
  { unfold variantGid at 1. simpl. now rewrite Hgid. }
  unfold getInventoryItemIdForVariant. fold (variantGid rt v). fold gid.
  unfold bind at 1, await.
  destruct (gql (Shopify.InvItemQuery gid)) as [reason|body] eqn:Hq.
  { split; [reflexivity|]. left. now exists reason. }
  unfold bind at 1, assertNoGqlErrors.
  destruct (Shopify.errors body) as [|m ms] eqn:He.
  2:{ split; [reflexivity|]. right; left. exists body. rewrite He. now repeat split. }
  unfold ret at 1.
  destruct (Shopify.data body) as [d|] eqn:Hd;
    [|split; [reflexivity|]; right; right; now split].
  destruct (Shopify.productVariant_inventoryItem_id d) as [id|] eqn:Hid;
    [|split; [reflexivity|]; right; right; now split].
  destruct (String.eqb_spec id "") as [->|Hne];
    [split; [reflexivity|]; right; right; now split|].
  split; [reflexivity|]. split; [exact Hne|]. now exists body, d.
Qed.

(** X10.  [getInventoryByLocation] makes exactly one request and, unless
    the request is rejected or the answer carries errors, returns a map that
    holds, for each location that has a level in the answer, the quantity
    named "available" of the last such level (0 when the level names no
    such quantity), and nothing for any other location. *)
Theorem inventory_levels_by_location (gql : Shopify.Client) (invItemGid : string)
    (s : State) :
  match getInventoryByLocation gql invItemGid s with
  | (o, s') =>
      s' = record (ToShopify (Shopify.LevelsQuery invItemGid)) s /\
      match o with
      | Returned qty =>
          exists body,
            gql (Shopify.LevelsQuery invItemGid) = Resolved body /\
            Shopify.errors body = [] /\
            forall id, qty !! id = availableOf <$> lastLevel id (levelsOf body)
      | Threw e =>
          (exists reason,
              gql (Shopify.LevelsQuery invItemGid) = Rejected reason /\
              e = AxiosError reason) \/
          (exists body,
              gql (Shopify.LevelsQuery invItemGid) = Resolved body /\
              Shopify.errors body <> [] /\
              e = Thrown (ShopifyGQLError (Shopify.errors body)))
      | Running => False
      end
  end.
Proof.
  unfold getInventoryByLocation. unfold bind at 1, await.
  destruct (gql (Shopify.LevelsQuery invItemGid)) as [reason|body] eqn:Hq.
  { split; [reflexivity|]. left. now exists reason. }
  unfold bind at 1, assertNoGqlErrors.
  destruct (Shopify.errors body) as [|m ms] eqn:He.
  2:{ split; [reflexivity|]. right. exists body. rewrite He. now repeat split. }
  unfold ret. split; [reflexivity|]. exists body. split; [reflexivity|].
  split; [exact He|]. intros id. fold (levelsOf body).
  rewrite levels_lookup. destruct (lastLevel id (levelsOf body)); reflexivity.
Qed.

(** X11.  However a run of [buildPickupResponse] ends, every request it
    has made is one its configuration and its arguments call for: none to
    the primary provider in the mode "osm", none to the secondary provider
    in the mode "google", and no inventory query when no variant was
    supplied.  This covers the geocoding of the pincode and of every
    location. *)
Theorem resolver_makes_permitted_requests_only (rt : Runtime) (env : Env) (w : World)
    (fuel : nat) (req : Request) (gql : Shopify.Client) (shop : string) (s : State) :
  exists calls,
    log (snd (buildPickupResponse rt env w fuel req gql shop s)) = (log s ++ calls)%list /\
    forall c, In c calls ->
      (mode env = "osm" -> toGoogle c = false) /\
      (mode env = "google" -> toNominatim c = false) /\
      (Js.truthy (variantId req) = false -> inventoryQuery c = false).
Proof.
  destruct (only_permitted rt env w fuel req gql shop s) as (calls & E & F).
  exists calls. split; [exact E|]. intros c Hc.
  rewrite forallb_forall in F. specialize (F c Hc).
  destruct c as [p|p|[first after|id|id]]; simpl in *; repeat split; try reflexivity;
    intros H; rewrite H in F; discriminate.
Qed.

(** X12.  A repeated request is served from the caches.  After a run of
    [buildPickupResponse] has returned a result for a shop no two of whose
    listed locations have the same id, a second run with the same arguments
    returns the same result, whatever the geocoding providers would answer
    by then and however many iterations its loop is allowed: the only
    requests it makes are the inventory queries.  (The caches are the finite
    maps of the model: no entry has expired or been evicted between the two
    runs.) *)
Theorem repeated_request_is_served_from_the_caches (rt : Runtime) (env : Env) (w : World)
    (fuel : nat) (req : Request) (gql : Shopify.Client) (shop : string) (s s' : State)
    (r : PickupResult) :
  buildPickupResponse rt env w fuel req gql shop s = (Returned r, s') ->
  (forall locations,
      shopifyLocationsCache s' !! ("locations:" +:+ shop) = Some locations ->
      List.NoDup (map Shopify.id locations)) ->
  forall w2 fuel2, exists calls,
    forallb inventoryQuery calls = true /\
    buildPickupResponse rt env w2 fuel2 req gql shop s' = (Returned r, logged calls s').
Proof.
  unfold buildPickupResponse at 1. intros H Hdistinct w2 fuel2.
  apply bind_returned in H as ([] & s0 & Hv & H).
  apply validate_returned in Hv as (Ht & Hok & ->).
  apply bind_returned in H as (pin & s1 & Hpin & H).
  apply bind_returned in H as (locations & s2 & Hloc & H).
  apply bind_returned in H as ([gid qty] & s3 & Hinv & H).
  apply bind_returned in H as (visited & s4 & Hvis & H).
  inversion H; subst s4 r; clear H.
  destruct (inventory_stateless rt gql (variantId req)) as (o & calls & Hcalls & Hpure).
  rewrite Hpure in Hinv. injection Hinv as -> <-.
  exists calls. split; [exact Hcalls|].
  unfold visitAll, bind at 1, get in Hvis.
  pose proof (visits_keep rt env w _ pin qty locations _ _ _ Hvis) as (Vg & _ & Vs).
  specialize (Vg (reflexivity _)).
  apply geocode_remembered in Hpin.
  pose proof (fetchShopifyLocations_effect fuel gql shop s1) as E.
  rewrite Hloc in E. cbv zeta in E.
  assert (Hshop : shopifyLocationsCache s2 !! ("locations:" +:+ shop) = Some locations).
  { destruct E as [[Hh ->]|(_ & _ & c & _ & _ & ->)]; [assumption|].
    simpl. apply lookup_insert_eq. }
  assert (Hgeo : geocodeCache s2 = geocodeCache s1).
  { destruct E as [[_ ->]|(_ & _ & c & _ & _ & ->)]; reflexivity. }
  assert (Hnd : List.NoDup (map Shopify.id locations)).
  { apply Hdistinct. rewrite Vs. exact Hshop. }
  apply (visits_cached rt env w _ pin qty locations Hnd) in Hvis as (_ & Vl);
    [|reflexivity].
  unfold buildPickupResponse. unfold bind at 1, validate. rewrite Ht, Hok. simpl.
  unfold bind at 1. rewrite (geocode_hit env w2 _ s' pin).
  2:{ eapply lookup_weaken; [|exact Vg]. simpl. now rewrite Hgeo. }
  unfold bind at 1. unfold fetchShopifyLocations, bind at 1, get.
  rewrite Vs. simpl. rewrite Hshop. unfold ret at 1.
  unfold bind at 1. rewrite Hpure.
  unfold bind at 1. unfold visitAll, bind at 1, get.
  rewrite (visits_replayed rt env w2 _ pin qty locations visited).
  - reflexivity.
  - exact Vl.
Qed.

Lemma repeated_request_is_served_from_the_caches_witness :
  exists r s' calls,
    Pickup.buildPickupResponse Sample.runtime (Sample.env_of_mode None) Sample.india 10
      (Sample.request "110001" (JStr "42") JUndefined)
      (Sample.shopify [[Sample.edge "c1" Sample.delhi; Sample.edge "c3" Sample.agra]]
         Sample.levels)
      "demo.myshopify.com" emptyState = (Returned r, s') /\
    forallb inventoryQuery calls = true /\
    Pickup.buildPickupResponse Sample.runtime (Sample.env_of_mode None) Sample.offline 0
      (Sample.request "110001" (JStr "42") JUndefined)
      (Sample.shopify [[Sample.edge "c1" Sample.delhi; Sample.edge "c3" Sample.agra]]
         Sample.levels)
      "demo.myshopify.com" s' = (Returned r, logged calls s').
Proof.
  assert (H : exists r s',
             Pickup.buildPickupResponse Sample.runtime (Sample.env_of_mode None)
               Sample.india 10 (Sample.request "110001" (JStr "42") JUndefined)
               (Sample.shopify
                  [[Sample.edge "c1" Sample.delhi; Sample.edge "c3" Sample.agra]]
                  Sample.levels)
               "demo.myshopify.com" emptyState = (Returned r, s') /\
             shopifyLocationsCache s' !! "locations:demo.myshopify.com"
               = Some [Sample.delhi; Sample.agra]).
  { eexists. eexists. split; vm_compute; reflexivity. }
  destruct H as (r & s' & H & Hcache). exists r, s'.
  destruct (repeated_request_is_served_from_the_caches _ _ _ _ _ _ _ _ _ _ H)
    with (w2 := Sample.offline) (fuel2 := 0) as (calls & Hc & H2).
  - intros locations E.
    change (shopifyLocationsCache s' !! "locations:demo.myshopify.com" = Some locations)
      in E.
    rewrite Hcache in E. injection E as <-.
    repeat constructor; simpl; intuition discriminate.
  - exists calls. now repeat split.
Defined.

(** With an id that Shopify lists twice the second run is not the first:
    the two callbacks of the first run each look up their own address,
    North 2.35 km from the pincode and South 179.49 km away, and both
    write to the one key of the location cache; the callbacks of the
    second run both read what is left there. *)
Lemma repeated_id_is_served_differently :
  exists r s' r2 s2,
    Pickup.buildPickupResponse Sample.runtime (Sample.env_of_mode None) Sample.india 10
      (Sample.request "110001" JUndefined JUndefined)
      (Sample.shopify
         [[Sample.edge "c1" Storefront.north; Sample.edge "c2" Storefront.south]]
         Sample.levels)
      "demo.myshopify.com" emptyState = (Returned r, s') /\
    map (fun x => (name x, distanceKm x)) (inRadius r ++ outOfRadius r)
      = [("North", Fin (47 # 20)); ("South", Fin (17949 # 100))] /\
    Pickup.buildPickupResponse Sample.runtime (Sample.env_of_mode None) Sample.india 10
      (Sample.request "110001" JUndefined JUndefined)
      (Sample.shopify
         [[Sample.edge "c1" Storefront.north; Sample.edge "c2" Storefront.south]]
         Sample.levels)
      "demo.myshopify.com" s' = (Returned r2, s2) /\
    map (fun x => JsNumber.eq (distanceKm x) (Fin (17949 # 100)))
      (inRadius r2 ++ outOfRadius r2) = [true; true].
Proof.
  eexists. eexists. eexists. eexists.
  split; [vm_compute; reflexivity|]. split; [vm_compute; reflexivity|].
  split; vm_compute; reflexivity.
Qed.

(** X13.  The result names locations of the shop only: every entry of
    the two lists carries the id, the name and the address fields of one of
    the listed locations, and the two lists together have at most as many
    entries as there are locations. *)
Theorem result_entries_are_locations_of_the_shop (rt : Runtime) (env : Env) (w : World)
    (fuel : nat) (req : Request) (gql : Shopify.Client) (shop : string) (s s' : State)
    (r : PickupResult) :
  buildPickupResponse rt env w fuel req gql shop s = (Returned r, s') ->
  exists pin qty locations visited,
    resolved rt env w fuel req gql shop s pin qty locations visited /\
    length (inRadius r) + length (outOfRadius r) <= length locations /\
    forall x, In x (inRadius r ++ outOfRadius r) ->
      exists loc, In loc locations /\ locationId x = Shopify.id loc /\
                  Pickup.name x = Shopify.name loc /\
                  fields (Pickup.address x) = Shopify.address loc.
Proof.
  intros H. apply buildPickupResponse_stages in H
    as (pin & gid & qty & locations & visited & _ & Hres & Hsur & ->).
  exists pin, qty, locations, visited. split; [exact Hres|]. split.
  - assert (Hsort : forall l : list EnrichedLocation,
               length (sort byDistance l) = length l).
    { intros l. apply Permutation_length, SortFacts.sort_perm. }
    assert (HR : isNaN (effectiveRadius env (radiusKm req)) = false).
    { pose proof (effectiveRadius_finite env (radiusKm req)) as F.
      now destruct (effectiveRadius env (radiusKm req)). }
    simpl. unfold inRadiusOf, outOfRadiusOf. rewrite !Hsort, <- length_app.
    rewrite (Permutation_length (filter_le_gt_perm _ (omap id visited) HR)).
    pose proof (List.filter_length_le
                  (fun x => negb (isNaN (distanceKm x))) (omap id visited)) as L1.
    pose proof (omap_id_length visited) as L2.
    unfold survivors in Hsur. apply Forall2_length in Hsur. lia.
  - intros x Hx. apply (survivors_from rt env w pin qty locations visited x Hsur).
    apply In_omap_id. simpl in Hx. apply in_app_or in Hx as [Hx|Hx].
    + now apply In_inRadius in Hx.
    + now apply In_outOfRadius in Hx.
Qed.

Lemma result_entries_are_locations_of_the_shop_witness :
  exists r s' pin qty locations visited,
    Pickup.buildPickupResponse Sample.runtime (Sample.env_of_mode None) Sample.india 10
      (Sample.request "110001" JUndefined JUndefined)
      (Sample.shopify [[Sample.edge "c2" Sample.closed; Sample.edge "c1" Sample.delhi]]
         Sample.levels)
      "demo.myshopify.com" emptyState = (Returned r, s') /\
    resolved Sample.runtime (Sample.env_of_mode None) Sample.india 10
      (Sample.request "110001" JUndefined JUndefined)
      (Sample.shopify [[Sample.edge "c2" Sample.closed; Sample.edge "c1" Sample.delhi]]
         Sample.levels)
      "demo.myshopify.com" emptyState pin qty locations visited /\
    length (inRadius r) + length (outOfRadius r) <= length locations.
Proof.
  assert (H : exists r s',
             Pickup.buildPickupResponse Sample.runtime (Sample.env_of_mode None)
               Sample.india 10 (Sample.request "110001" JUndefined JUndefined)
               (Sample.shopify
                  [[Sample.edge "c2" Sample.closed; Sample.edge "c1" Sample.delhi]]
                  Sample.levels)
               "demo.myshopify.com" emptyState = (Returned r, s')).
  { eexists. eexists. vm_compute. reflexivity. }
  destruct H as (r & s' & H). exists r, s'.
  destruct (result_entries_are_locations_of_the_shop _ _ _ _ _ _ _ _ _ _ H)
    as (pin & qty & locations & visited & Hres & Hlen & _).
  exists pin, qty, locations, visited. now repeat split.
Defined.



(** X15.  The sort of the two lists is stable: for every distance, the
    entries of [inRadius] (of [outOfRadius]) at that distance are, in the
    same order, the entries at that distance among those the filter kept,
    which is the order of the list of locations. *)
Theorem equal_distances_keep_the_order_of_the_locations (RADIUS d : num)
    (enriched : list EnrichedLocation) :
  List.filter (atDistance d) (inRadiusOf RADIUS enriched)
  = List.filter (atDistance d)
      (List.filter (fun x => JsNumber.le (distanceKm x) RADIUS) enriched) /\
  List.filter (atDistance d) (outOfRadiusOf RADIUS enriched)
  = List.filter (atDistance d)
      (List.filter (fun x => JsNumber.gt (distanceKm x) RADIUS) enriched).
Proof.
  unfold inRadiusOf, outOfRadiusOf, byDistance, atDistance.
  split; apply (sort_stable distanceKm d).
Qed.

(** X16.  The effective radius is a finite number whatever the request
    and the environment hold: [numberOr] with a finite fallback is finite,
    and the fallback of the configured default is 100.  So no [radiusKm]
    (not [Infinity], not a text) switches the cut off, and every entry whose
    distance is a number is on one side of it. *)
Theorem effective_radius_is_always_finite (env : Env) (radiusKm : jsval) :
  (forall a fb, isFinite fb = true -> isFinite (Geo.numberOr a fb) = true) /\
  isFinite (effectiveRadius env radiusKm) = true /\
  forall x : EnrichedLocation,
    isNaN (distanceKm x) = false ->
    xorb (le (distanceKm x) (effectiveRadius env radiusKm))
         (gt (distanceKm x) (effectiveRadius env radiusKm)) = true.
Proof.
  split; [intros a fb; apply numberOr_finite|].
  pose proof (effectiveRadius_finite env radiusKm) as F. split; [exact F|].
  intros x Hx. destruct (effectiveRadius env radiusKm) as [| |R]; try discriminate.
  rewrite (NumberFacts.le_or_gt (distanceKm x) (Fin R) Hx eq_refl).
  now destruct (gt (distanceKm x) (Fin R)).
Qed.

(** X17.  [haversineKm] yields [NaN] as soon as one of the four
    coordinates is not a finite number, whatever the runtime's elementary
    functions are; the entry the resolver builds from such coordinates then
    has the distance [NaN]. *)
Theorem haversineKm_of_a_point_that_is_not_finite (rt : Runtime) (a b : Geo.LatLng) :
  finitePoint a && finitePoint b = false ->
  Geo.haversineKm rt a b = NaN /\
  forall pin qty loc g x,
    {| Geo.lat := lat pin; Geo.lng := lng pin |} = a ->
    {| Geo.lat := lat g; Geo.lng := lng g |} = b ->
    enrich rt pin qty loc g = Some x -> distanceKm x = NaN.
Proof.
  intros H. split; [now apply haversineKm_not_finite|].
  intros pin qty loc g x <- <- Hx. apply (enrich_some rt) in Hx as (_ & _ & Hc & Hd & _).
  rewrite Hd, Hc. now rewrite haversineKm_not_finite.
Qed.

Lemma haversineKm_of_a_point_that_is_not_finite_witness :
  Geo.haversineKm Sample.runtime
    {| Geo.lat := Fin (286328 # 10000); Geo.lng := Fin (772197 # 10000) |}
    {| Geo.lat := NaN; Geo.lng := Fin (757873 # 10000) |} = NaN.
Proof.
  apply (haversineKm_of_a_point_that_is_not_finite Sample.runtime
           {| Geo.lat := Fin (286328 # 10000); Geo.lng := Fin (772197 # 10000) |}
           {| Geo.lat := NaN; Geo.lng := Fin (757873 # 10000) |}).
  reflexivity.
Defined.

(** X26.  The callbacks of [Promise.all] do not interfere.  Whatever
    state a callback resumes in, as long as it is one that lookups have led
    to from the state [map] was called in, and so whatever callbacks have
    run before it, it returns for its location the value it returns when
    its [geocodeShopifyLocation] runs alone from the state [map] was called
    in.  So the values of the callbacks, and with them the result of the
    resolver, do not depend on the order in which the callbacks resume; the
    order of the list, in which the model runs them, is one of them.  (The
    providers answer the same request in the same way throughout the
    run.) *)
Theorem callbacks_do_not_interfere (rt : Runtime) (env : Env) (w : World)
    (called : State) (pin : GeoPoint) (qty : gmap string Z)
    (order : list Shopify.Location) :
  (forall s,
      grown env w called s ->
      fst (mapM (visit rt env w called pin qty) order s)
      = Returned (map (fun loc => enrich rt pin qty loc (coordinatesAt env w called loc))
                    order)) /\
  fst (visitAll rt env w pin qty order called)
  = Returned (map (fun loc => enrich rt pin qty loc (coordinatesAt env w called loc))
                order).
Proof.
  assert (H : forall s,
             grown env w called s ->
             fst (mapM (visit rt env w called pin qty) order s)
             = Returned (map (fun loc => enrich rt pin qty loc
                                           (coordinatesAt env w called loc)) order)).
  { intros s Hg.
    destruct (returns_mapM (visit rt env w called pin qty) order
                (fun loc => returns_visit rt env w called pin qty loc) s)
      as (visited & s' & E).
    rewrite E. cbn [fst]. unfold visit in E. apply mapM_built in E as (gs & Hgs & ->).
    pose proof (callbacks_alone env w called order s Hg) as A.
    rewrite Hgs in A. cbn [fst] in A. injection A as ->.
    now rewrite zip_with_map_r. }
  split; [exact H|]. exact (H called (grown_refl env w called)).
Qed.

End Further.

(* ===================================================================== *)
(** ** Properties of the routes, the shop domain and the delivery customization *)
(* ===================================================================== *)

Section AroundTheModule.
Import Errors Effects JsString JsNumber M Geocoding ShopifyApi Pickup Vocabulary Behaviour.
Import MonadFacts GeocodeFacts LocationFacts PickupFacts ThrowFacts BehaviourFacts.
Import Catalogue CatalogueFacts Routes Frontend RouteFacts DeliveryOptions CartFacts.
Import JsRegExp RegExpFacts.

(** X18.  The errors of the resolver.  A run of [buildPickupResponse]
    that throws ends with one of: the two validation errors; an error of the
    geocoding of the pincode ([pin_unavailable], or in the mode "google" what
    the primary provider failed with); the rejection of a request to Shopify
    or a [ShopifyGQLError] with a non-empty list of messages; or
    [inventory_item_missing].  The geocoding of the locations contributes
    none.  An [AppError] among them has one of the six pairs of status and
    code of the catalogue, and outside the mode "google" no [TypeError] and
    no provider error is thrown. *)
Theorem resolver_errors (rt : Runtime) (env : Env) (w : World) (fuel : nat)
    (req : Request) (gql : Shopify.Client) (shop : string) (s s' : State) (e : exn) :
  buildPickupResponse rt env w fuel req gql shop s = (Threw e, s') ->
  resolverFailure rt env req e /\
  (forall a, e = Thrown a -> In (Errors.status a, Errors.code a) catalogue) /\
  (mode env <> "google" ->
   e <> TypeError /\
   forall reason more, e <> Thrown (GeocodeProviderError "google" reason more)).
Proof.
  intros H. apply buildPickupResponse_throws in H. split; [exact H|]. split.
  - intros a ->. now apply (resolverFailure_catalogued rt env req).
  - intros Hm.
    destruct H as [->|[->|[[->|(Hg & _)]|[[(r & ->)|(ms & _ & ->)]| ->]]]];
      try contradiction; split; discriminate.
Qed.

Lemma resolver_errors_witness :
  resolverFailure Sample.runtime (Sample.env_of_mode None)
    (Sample.request "12" JUndefined JUndefined)
    (Thrown (InvalidPincodeError (JStr "12"))).
Proof.
  apply (resolver_errors Sample.runtime (Sample.env_of_mode None) Sample.offline 10
           (Sample.request "12" JUndefined JUndefined)
           (Sample.shopify Sample.storePages Sample.levels) "demo.myshopify.com"
           emptyState emptyState).
  reflexivity.
Defined.

(** X19.  The shop domains the two routes accept.  The regular expression
    of the routes accepts a text exactly when it is a letter or digit,
    followed by letters, digits and hyphens, followed by ".myshopify.com";
    so an accepted text ends with that suffix and holds nothing but
    letters, digits, hyphens and dots: no slash, colon, at sign or space. *)
Theorem accepted_shop_domains (s : string) :
  (test shopifyDomainRegex s = true <->
   exists c label,
     s = String c label +:+ ".myshopify.com" /\
     isAlnum c = true /\ allChars isAlnumOrHyphen label = true) /\
  (test shopifyDomainRegex s = true ->
   allChars (fun c => isAlnumOrHyphen c || Ascii.eqb c ".") s = true).
Proof.
  assert (Hiff : test shopifyDomainRegex s = true <->
                 exists c label,
                   s = String c label +:+ ".myshopify.com" /\
                   isAlnum c = true /\ allChars isAlnumOrHyphen label = true).
  { rewrite test_spec. apply class_star_lit_spec. }
  split; [exact Hiff|]. intros H. apply Hiff in H as (c & label & -> & Hc & Hl).
  rewrite allChars_app. apply andb_true_iff. split; [|reflexivity].
  simpl. unfold isAlnumOrHyphen at 1. rewrite Hc. simpl.
  apply (allChars_weaken isAlnumOrHyphen); [|exact Hl].
  intros c' Hc'. now rewrite Hc'.
Qed.

(** X20.  The regular expression of the pincode, [^\d{4}$|^\d{6}$], accepts
    exactly the texts of four or of six ASCII digits: the test of the
    resolver is the test of this expression on the trimmed text of the
    pincode. *)
Theorem pincode_regular_expression (rt : Runtime) (s : string) (pincode : jsval) :
  test pincodeRegex s = digits_exactly 4 s || digits_exactly 6 s /\
  pincodeOk rt pincode = test pincodeRegex (trim (Js.ToString rt pincode)).
Proof.
  assert (H : forall t, test pincodeRegex t = digits_exactly 4 t || digits_exactly 6 t).
  { intros t. apply eq_true_iff_eq. rewrite test_spec, orb_true_iff.
    unfold pincodeRegex, digits_exactly, digit. rewrite !andb_true_iff, !Nat.eqb_eq.
    rewrite !allDigits_allChars. rewrite <- !times_class_spec.
    split; [inversion 1; subst; auto|intros [?|?]; [now apply MAltL|now apply MAltR]]. }
  split; [apply H|]. unfold pincodeOk. now rewrite H.
Qed.

(** A guard has answered: nothing was thrown, nothing has changed, and the
    response carries no result. *)
Ltac refused :=
  unfold ret; split; [congruence|];
  split; [intros H; now contradiction H|];
  intros;
  match goal with H : M.Returned _ = M.Returned _ |- _ => injection H as <- end;
  discriminate.

Section PickupRoute.
Variable rt : Runtime.
Variable env : Env.
Variable w : World.
Variable findFirst : jsval -> Attempt (option Session).
Variable connect : Client.Config -> Shopify.Client.
Variable foreign : exn -> ErrorView.

(** X21.  The pickup route never lets an exception out: a call ends with
    a response (or is still in the loop of the resolver).  It reaches the
    resolver, and so makes a request or changes a cache, only for a POST
    whose body names a well-formed shop domain with a session that holds an
    access token and a shop; and a response that carries a pickup result has
    status 200 and carries what [buildPickupResponse] returned for that
    session's shop and the arguments of the body. *)
Theorem pickup_route_guards (fuel : nat) (request : ApiPickup.Request) (s : State) :
  match ApiPickup.action rt env w findFirst connect foreign fuel request s with
  | (o, s') =>
      (forall e, o <> Threw e) /\
      (s' <> s ->
       exists body se, authorised rt findFirst request body se /\ shop se <> "") /\
      (forall resp r,
          o = Returned resp -> payload resp = PickupFound r ->
          Routes.status resp = 200%Z /\ cors resp = true /\
          exists body se cfg,
            authorised rt findFirst request body se /\
            Client.makeShopifyGqlClient rt env (JStr (shop se)) (JStr (accessToken se)) s
              = (Returned cfg, s) /\
            buildPickupResponse rt env w fuel (argumentsOf body) (connect cfg) (shop se) s
              = (Returned r, s'))
  end.
Proof.
  unfold ApiPickup.action.
  destruct (String.eqb (ApiPickup.method request) "OPTIONS") eqn:Ho.
  { refused. }
  destruct (String.eqb_spec (ApiPickup.method request) "POST") as [Hp|Hp]; cbn [negb].
  2:{ refused. }
  destruct (ApiPickup.json request) as [v|body] eqn:Hj.
  { refused. }
  destruct (Js.truthy (ApiPickup.myShopifyDomain body)) eqn:Ht; cbn [negb].
  2:{ refused. }
  destruct (test shopifyDomainRegex _) eqn:Hr; cbn [negb].
  2:{ refused. }
  destruct (findFirst (ApiPickup.myShopifyDomain body)) as [v|session] eqn:Hf.
  { refused. }
  destruct (authenticated session) as [se|] eqn:Ha.
  2:{ refused. }
  apply authenticated_some in Ha as [-> Htok].
  assert (Hadm : authorised rt findFirst request body se) by now repeat split.
  unfold try_catch, bind.
  destruct (makeShopifyGqlClient_cases rt env se s Htok)
    as [[Hs ->]|(Hs & cfg & Hcfg & _)]; [refused|].
  rewrite Hcfg.
  fold (argumentsOf body).
  destruct (buildPickupResponse rt env w fuel (argumentsOf body) (connect cfg) (shop se) s)
    as [[r|e|] s1] eqn:Hb; unfold ret.
  - split; [congruence|]. split; [intros _; now exists body, se|].
    intros resp r' [= <-] [= <-]. repeat split. now exists body, se, cfg.
  - split; [congruence|]. split; [intros _; now exists body, se|].
    intros resp r' [= <-]. discriminate.
  - split; [congruence|]. split; [intros _; now exists body, se|]. discriminate.
Qed.

(** X22.  The pickup route reports the errors of the resolver.  For a
    request that passes the guards, whose session has a shop, an [AppError]
    thrown by [buildPickupResponse] becomes a response with the status of
    the error, its message, its metadata and its code; the status and the
    code are a pair of the catalogue. *)
Theorem pickup_route_reports_errors (fuel : nat) (request : ApiPickup.Request)
    (body : ApiPickup.Body) (se : Session) (cfg : Client.Config) (a : AppError)
    (s s' : State) :
  authorised rt findFirst request body se ->
  Client.makeShopifyGqlClient rt env (JStr (shop se)) (JStr (accessToken se)) s
    = (Returned cfg, s) ->
  buildPickupResponse rt env w fuel (argumentsOf body) (connect cfg) (shop se) s
    = (Threw (Thrown a), s') ->
  ApiPickup.action rt env w findFirst connect foreign fuel request s
    = (Returned {| Routes.status := Errors.status a; cors := true;
                   payload := Failure (message a) (Some (meta a)) (Some (Errors.code a)) |},
       s') /\
  In (Errors.status a, Errors.code a) catalogue.
Proof.
  intros (Hp & Hj & Ht & Hr & Hf & Htok) Hc Hb.
  assert (Hcat : In (Errors.status a, Errors.code a) catalogue).
  { apply buildPickupResponse_throws in Hb.
    now apply (resolverFailure_catalogued rt env (argumentsOf body)). }
  split; [|exact Hcat].
  unfold ApiPickup.action. rewrite Hp. cbn [String.eqb Ascii.eqb Bool.eqb negb].
  rewrite Hj, Ht, Hr, Hf. cbn [negb].
  assert (Ha : authenticated (Some se) = Some se) by now apply authenticated_some.
  rewrite Ha. unfold try_catch, bind. rewrite Hc. fold (argumentsOf body). rewrite Hb.
  unfold ret, ApiPickup.caught, viewOf, statusOr500. simpl.
  destruct (Z.eqb_spec (Errors.status a) 0) as [E|E]; [|reflexivity].
  exfalso. rewrite E in Hcat. unfold catalogue in Hcat. simpl in Hcat.
  intuition discriminate.
Qed.

End PickupRoute.

Lemma pickup_route_reports_errors_witness :
  ApiPickup.action Sample.runtime (Sample.env_of_mode None) Sample.offline Storefront.sessions
    (fun _ => Sample.shopify Sample.storePages Sample.levels) Storefront.opaque 10
    (Storefront.post "demo.myshopify.com" "12") emptyState
  = (Returned {| Routes.status := 400; cors := true;
                 payload :=
                   Failure "Please enter a valid 4- or 6-digit postcode/pincode."
                     (Some [("pincode", MetaVal (JStr "12"))])
                     (Some "invalid_pincode") |},
     emptyState) /\
  In (400%Z, "invalid_pincode") catalogue.
Proof.
  eapply (pickup_route_reports_errors Sample.runtime (Sample.env_of_mode None)
            Sample.offline Storefront.sessions
            (fun _ => Sample.shopify Sample.storePages Sample.levels) Storefront.opaque 10
            (Storefront.post "demo.myshopify.com" "12") _
            {| shop := "demo.myshopify.com"; accessToken := "shpat_1" |} _
            (InvalidPincodeError (JStr "12")) emptyState emptyState).
  - repeat split; try reflexivity. discriminate.
  - reflexivity.
  - reflexivity.
Defined.

Section LocationsRoute.
Variable rt : Runtime.
Variable env : Env.
Variable findFirst : jsval -> Attempt (option Session).
Variable connect : Client.Config -> Shopify.Client.
Variable foreign : exn -> ErrorView.

(** X23.  The locations route never lets an exception out either, and
    reaches Shopify only for a well-formed shop domain with a session that
    holds an access token and a shop.  A response that carries a list
    carries the list [fetchShopifyLocations] returned for that session's
    shop, with its length as the count, under status 200; when the list was
    fetched and not read from the cache, all its locations are active. *)
Theorem locations_route_guards (fuel : nat) (request : ApiLocations.Request) (s : State) :
  match ApiLocations.loader rt env findFirst connect foreign fuel request s with
  | (o, s') =>
      (forall e, o <> Threw e) /\
      (s' <> s -> exists domain se, listed findFirst request domain se /\ shop se <> "") /\
      (forall resp name count locations,
          o = Returned resp -> payload resp = LocationsFound name count locations ->
          Routes.status resp = 200%Z /\ count = length locations /\
          (s' <> s -> forallb Shopify.isActive locations = true) /\
          exists domain se cfg,
            listed findFirst request domain se /\ name = shop se /\
            Client.makeShopifyGqlClient rt env (JStr (shop se)) (JStr (accessToken se)) s
              = (Returned cfg, s) /\
            fetchShopifyLocations fuel (connect cfg) (shop se) s = (Returned locations, s'))
  end.
Proof.
  unfold ApiLocations.loader.
  destruct (String.eqb_spec (ApiLocations.method request) "OPTIONS") as [Ho|Ho].
  { refused. }
  destruct (ApiLocations.shopDomain request) as [domain|] eqn:Hd.
  2:{ refused. }
  destruct (String.eqb domain "") eqn:He.
  { refused. }
  destruct (test shopifyDomainRegex domain) eqn:Hr; cbn [negb].
  2:{ refused. }
  destruct (findFirst (JStr domain)) as [v|session] eqn:Hf.
  { refused. }
  destruct (authenticated session) as [se|] eqn:Ha.
  2:{ refused. }
  apply authenticated_some in Ha as [-> Htok].
  assert (Hadm : listed findFirst request domain se) by now repeat split.
  unfold try_catch, bind.
  destruct (makeShopifyGqlClient_cases rt env se s Htok)
    as [[Hs ->]|(Hs & cfg & Hcfg & _)]; [refused|].
  rewrite Hcfg.
  pose proof (fetchShopifyLocations_effect fuel (connect cfg) (shop se) s) as E.
  destruct (fetchShopifyLocations fuel (connect cfg) (shop se) s)
    as [[l|e|] s1] eqn:Hb; unfold ret.
  - split; [congruence|]. split; [intros _; now exists domain, se|].
    intros resp name count locations [= <-] [= <- <- <-].
    split; [reflexivity|]. split; [reflexivity|]. split.
    + intros Hs1. cbv zeta in E. destruct E as [[_ ->]|(_ & Hact & _)]; [contradiction|].
      exact Hact.
    + now exists domain, se, cfg.
  - split; [congruence|]. split; [intros _; now exists domain, se|].
    intros ? ? ? ? [= <-]. discriminate.
  - split; [congruence|]. split; [intros _; now exists domain, se|]. discriminate.
Qed.

End LocationsRoute.

(** X24.  What the delivery customization hides.  Its operations are the
    hides of the options, in the order of the groups, for which being the
    option titled "Click And Collect" differs from the cart holding a click
    and collect product.  When the handles of the options are distinct, an
    option is hidden exactly in that case: with such a product in the cart
    only "Click And Collect" options remain, and without one exactly they
    are hidden. *)
Theorem delivery_options_hidden (cart : Cart) (o : DeliveryOption) :
  List.NoDup (map handle (optionsOf cart)) ->
  In o (optionsOf cart) ->
  cartDeliveryOptionsTransformRun cart
    = map hide
        (List.filter
           (fun o => xorb (isClickAndCollect o) (hasClickAndCollectProduct cart))
           (optionsOf cart)) /\
  hidden (cartDeliveryOptionsTransformRun cart) o
    = xorb (isClickAndCollect o) (hasClickAndCollectProduct cart).
Proof.
  intros Hnd Hin. split; [apply operations_of_options|].
  rewrite operations_of_options, hidden_map_hide.
  set (keep := fun o => xorb (isClickAndCollect o) (hasClickAndCollectProduct cart)).
  change (xorb (isClickAndCollect o) (hasClickAndCollectProduct cart)) with (keep o).
  destruct (keep o) eqn:Hk.
  - apply existsb_exists. exists o. split; [|apply String.eqb_refl].
    apply filter_In. now split.
  - apply not_true_iff_false. intros H. apply existsb_exists in H as (o' & Ho' & He).
    apply filter_In in Ho' as [Ho' Hk']. apply String.eqb_eq in He.
    assert (o' = o); [|congruence].
    clear Hk Hk'. revert Hnd Hin Ho' He. generalize (optionsOf cart).
    induction l as [|x l IH]; simpl; [contradiction|].
    intros Hnd [->|Hin] [->|Ho'] He; try reflexivity.
    + inversion Hnd as [|? ? Hx _]; subst. exfalso. apply Hx. rewrite <- He.
      now apply in_map.
    + inversion Hnd as [|? ? Hx _]; subst. exfalso. apply Hx. rewrite He.
      now apply in_map.
    + inversion Hnd; subst. now apply IH.
Qed.

Lemma delivery_options_hidden_witness :
  hidden (cartDeliveryOptionsTransformRun (Storefront.cart ["Desk (CLICK & COLLECT)"]))
    (Storefront.option "h3" "Express") = true.
Proof.
  apply (delivery_options_hidden (Storefront.cart ["Desk (CLICK & COLLECT)"])
           (Storefront.option "h3" "Express")).
  - repeat constructor; simpl; intuition discriminate.
  - simpl. tauto.
Defined.

(** X25.  When the customization takes the cart for a click and collect
    cart: exactly when the title of the product of some line, put in lower
    case, contains the text "click & collect" somewhere; so the letter case
    of the title plays no part, and a line without a product never
    counts. *)
Theorem click_and_collect_cart (cart : Cart) :
  (hasClickAndCollectProduct cart = true <->
   exists line t pre post,
     In line (lines cart) /\ productTitle line = Some t /\
     toLowerCase t = pre +:+ "click & collect" +:+ post) /\
  hasClickAndCollectProduct
    {| lines := map (fun line => {| productTitle := toLowerCase <$> productTitle line |})
                  (lines cart);
       deliveryGroups := deliveryGroups cart |}
  = hasClickAndCollectProduct cart.
Proof.
  split.
  - unfold hasClickAndCollectProduct. rewrite existsb_exists. split.
    + intros (line & Hin & H). destruct (productTitle line) as [t|] eqn:Ht; [|discriminate].
      apply includes_spec in H as (pre & post & H). now exists line, t, pre, post.
    + intros (line & t & pre & post & Hin & Ht & H). exists line. split; [exact Hin|].
      rewrite Ht. apply includes_spec. now exists pre, post.
  - unfold hasClickAndCollectProduct. simpl.
    induction (lines cart) as [|line l IH]; simpl; [reflexivity|]. rewrite IH. f_equal.
    destruct (productTitle line) as [t|]; simpl; [|reflexivity].
    now rewrite toLowerCase_idempotent.
Qed.

End AroundTheModule.
